(** * Prism "Rainbow": resonant filter bank and resampling pipeline

    Shallow embedding of [Filter] (filter.c), of [Audio] (Audio.cpp) and of
    the bank and filter selection of [Rainbow::process] (Rainbow.cpp).

    Conventions of the embedding
    - C [float] values are idealised as exact rationals ([Q]); equality of
      computed samples is [Qeq] ([==]).
    - [uint8_t]/[uint32_t]/[int32_t] values are [Z]; array subscripts and
      loop counters are [nat].
    - The conversion of an integer sample to [float] inside an arithmetic
      expression is idealised like the arithmetic.  Where the float copy of
      a sample is compared with an integer constant (the overload test of
      [filter_onepass]) the conversion is modelled exactly, as IEEE 754
      binary32 rounds to nearest, ties to even ([float_of_int]).
    - C arrays are lists read with [!!] and written with [<[i:=x]>].  A read
      outside the list yields the default (0), a write outside it is
      dropped; the C program has no defined behaviour there.
    - The history arrays [buf[ch][scale][note][3]] are kept as one flat list
      of floats per channel, exactly the memory the C code walks through
      the float pointer [ff] it takes from [buf[i]].
    - Constants, tables and collaborators declared in headers that are not
      part of the translated sources (Rainbow.hpp, scales/Scales.hpp, the
      VCV Rack SDK) are parameters, bundled in the classes [Dims],
      [Tables] and [Host]. *)

From Stdlib Require Import ZArith QArith Qround Qabs Lia Lqa List Bool.
From stdpp Require Import base list.
Import ListNotations.

Set Default Proof Using "Type".

(** ** Numeric helpers *)

Definition Qltb (x y : Q) : bool := negb (Qle_bool y x).
Definition Qgeb (x y : Q) : bool := Qle_bool y x.
Definition Qgtb (x y : Q) : bool := Qltb y x.

(** [(uint32_t) x] for a non-negative float: truncation, used as subscript. *)
Definition to_index (x : Q) : nat := Z.to_nat (Qfloor x).

(** [(int32_t) x]: truncation toward zero. *)
Definition Qtrunc (x : Q) : Z := Z.quot (Qnum x) (Zpos (Qden x)).

Definition clamp (x lo hi : Q) : Q :=
  if Qltb x lo then lo else if Qgtb x hi then hi else x.

(** [n / d] rounded to the nearest integer, ties to the even one
    ([0 <= n], [0 < d]). *)
Definition round_even (n d : Z) : Z :=
  let q := (n / d)%Z in
  let r := (n mod d)%Z in
  if (2 * r <? d)%Z then q
  else if (d <? 2 * r)%Z then (q + 1)%Z
  else if Z.even q then q else (q + 1)%Z.

(** The spacing of the binary32 values around the magnitude [a]: 1 up to
    2^24, then the power of two that leaves 24 significant bits. *)
Definition float_ulp (a : Z) : Z := (2 ^ Z.max 0 (Z.log2 a - 23))%Z.

(** [(float) x] for an [int32_t] [x], as the integer it is: the nearest
    binary32 value, ties to the even significand. *)
Definition float_of_int (x : Z) : Z :=
  let a := Z.abs x in
  (Z.sgn x * (round_even a (float_ulp a) * float_ulp a))%Z.

(** ** Array access *)

Definition getZ (l : list Z) (i : nat) : Z := default 0%Z (l !! i).
Definition getQ (l : list Q) (i : nat) : Q := default 0%Q (l !! i).
Definition getB (l : list bool) (i : nat) : bool := default false (l !! i).
Definition row {A} (m : list (list A)) (i : nat) : list A := default [] (m !! i).
Definition get2Q (m : list (list Q)) (i j : nat) : Q := getQ (row m i) j.
Definition get2Z (m : list (list Z)) (i j : nat) : Z := getZ (row m i) j.
Definition set2 {A} (m : list (list A)) (i j : nat) (x : A) : list (list A) :=
  <[i := <[j := x]> (row m i)]> m.

(** [for (k = 0; k < n; k++) body] threading a state. *)
Definition for_loop {S} (n : nat) (body : nat -> S -> S) (s : S) : S :=
  foldl (fun acc k => body k acc) s (seq 0 n).

(** ** Constants of Rainbow.hpp *)

Definition NUM_CHANNELS : nat := 6.

Class Dims := {
  NUM_SCALES : nat;
  NUM_FILTS : nat;
  NUM_SCALENOTES : nat;
  NUM_SCALEBANKS : nat;
  NUM_BANKNOTES : nat;
  NUM_SAMPLES : nat;
  INPUT_LED_CLIP_LEVEL : Z;
  CLIP_LEVEL : Q;
  MAX_12BIT : Q;
  MIN_12BIT : Q;
  CROSSFADE_MIN : Q;
  CROSSFADE_MAX : Q;
  CROSSFADE_WIDTH : Q
}.

(** A configuration in the proportions the sources show: bank numbers 0..19
    (the range of the BANK parameter), 21 notes per scale (the stride
    63 = 21 * 3 of [filter_bpre]) of which 20 are filters, and the
    crossfade centred on two thirds of the Q range.  Used to run the model
    on concrete inputs. *)
Definition rainbow_dims : Dims := {|
  NUM_SCALES := 11;
  NUM_FILTS := 20;
  NUM_SCALENOTES := 21;
  NUM_SCALEBANKS := 20;
  NUM_BANKNOTES := 231;
  NUM_SAMPLES := 32;
  INPUT_LED_CLIP_LEVEL := 0x58000000;
  CLIP_LEVEL := 0x7FFFFFFF # 1;
  MAX_12BIT := 0x7FFFFF # 1;
  MIN_12BIT := - (0x7FFFFF # 1);
  CROSSFADE_MIN := 1830;
  CROSSFADE_MAX := 3630;
  CROSSFADE_WIDTH := 1800
|}.

(** A small instance (2 scales, 2 notes, blocks of 2 samples) on which whole
    blocks can be evaluated by hand. *)
Definition tiny_dims : Dims := {|
  NUM_SCALES := 2;
  NUM_FILTS := 2;
  NUM_SCALENOTES := 3;
  NUM_SCALEBANKS := 3;
  NUM_BANKNOTES := 6;
  NUM_SAMPLES := 2;
  INPUT_LED_CLIP_LEVEL := 100;
  CLIP_LEVEL := 1000;
  MAX_12BIT := 2047;
  MIN_12BIT := -2048;
  CROSSFADE_MIN := 1830;
  CROSSFADE_MAX := 3630;
  CROSSFADE_WIDTH := 1800
|}.

(** ** Read-only tables (exp_4096, log_4096, twopass_calibration, presets) *)

Class Tables := {
  exp_4096 : nat -> Q;
  log_4096 : nat -> Q;
  twopass_calibration : nat -> Z;
  presets_c_maxq : Z -> list Q;
  presets_c_bpre_hi : Z -> list Q;
  presets_c_bpre_lo : Z -> list Q
}.

(** ** Data model *)

Inductive FilterTypes := MAXQ | BPRE.
Inductive FilterModes := ONEPASS | TWOPASS.

Definition FilterTypes_eqb (a b : FilterTypes) : bool :=
  match a, b with MAXQ, MAXQ | BPRE, BPRE => true | _, _ => false end.
Definition FilterModes_eqb (a b : FilterModes) : bool :=
  match a, b with ONEPASS, ONEPASS | TWOPASS, TWOPASS => true | _, _ => false end.

(** What a [float *] coefficient pointer of a channel designates. *)
Inductive CoefPtr :=
| NullPtr
| UserScaleBank
| PresetMaxq (bank : Z)
| PresetBpreHi (bank : Z)
| PresetBpreLo (bank : Z).

Record IO := {
  CHANGED_BANK : bool;
  NEW_BANK : Z;
  LOCK_ON : list bool;
  USER_SCALE_CHANGED : bool;
  USER_SCALE : list Q;
  FREQSCALE : Q;
  GLIDE_SWITCH : bool;
  INPUT_CLIP : bool;
  io_in : list (list Z);
  io_out : list (list Q);
  channelLevel : list Q
}.

Record Qctl := { qval : list Z }.
Record Tuning := { freq_nudge : list Q; freq_shift : list Q }.
Record Rotation := {
  motion_morphpos : list Q;
  motion_fadeto_note : list Z;
  motion_fadeto_scale : list Z
}.
Record Envelope := { envout_preload_voct : list Q; envout_preload : list Q }.
Record Levels := { channel_level : list Q }.

(** The members of [Filter] proper. *)
Record FilterSt := {
  note : list Z;
  scale : list Z;
  scale_bank : list Z;
  old_scale_bank : list Z;
  filter_type : FilterTypes;
  new_filter_type : FilterTypes;
  filter_type_changed : bool;
  filter_mode : FilterModes;
  user_scale_bank : list Q;
  c_hiq : list CoefPtr;
  c_loq : list CoefPtr;
  bpretuning : list CoefPtr;
  buf : list (list Q);
  buf_a : list (list Q);
  filter_out : list (list Q);
  qc : list Q;
  qval_a : list Q;
  qval_b : list Q
}.

(** [Filter] together with the objects it reaches through the pointers set
    by [Filter::configure]. *)
Record Filter := {
  fs : FilterSt;
  io : IO;
  q : Qctl;
  tuning : Tuning;
  rotation : Rotation;
  envelope : Envelope;
  levels : Levels
}.

(** *** Field updates *)

Definition io_set_INPUT_CLIP (b : bool) (o : IO) : IO :=
  {| CHANGED_BANK := CHANGED_BANK o; NEW_BANK := NEW_BANK o; LOCK_ON := LOCK_ON o;
     USER_SCALE_CHANGED := USER_SCALE_CHANGED o; USER_SCALE := USER_SCALE o;
     FREQSCALE := FREQSCALE o; GLIDE_SWITCH := GLIDE_SWITCH o; INPUT_CLIP := b;
     io_in := io_in o; io_out := io_out o; channelLevel := channelLevel o |}.
Definition io_set_USER_SCALE_CHANGED (b : bool) (o : IO) : IO :=
  {| CHANGED_BANK := CHANGED_BANK o; NEW_BANK := NEW_BANK o; LOCK_ON := LOCK_ON o;
     USER_SCALE_CHANGED := b; USER_SCALE := USER_SCALE o;
     FREQSCALE := FREQSCALE o; GLIDE_SWITCH := GLIDE_SWITCH o; INPUT_CLIP := INPUT_CLIP o;
     io_in := io_in o; io_out := io_out o; channelLevel := channelLevel o |}.
Definition io_set_in (v : list (list Z)) (o : IO) : IO :=
  {| CHANGED_BANK := CHANGED_BANK o; NEW_BANK := NEW_BANK o; LOCK_ON := LOCK_ON o;
     USER_SCALE_CHANGED := USER_SCALE_CHANGED o; USER_SCALE := USER_SCALE o;
     FREQSCALE := FREQSCALE o; GLIDE_SWITCH := GLIDE_SWITCH o; INPUT_CLIP := INPUT_CLIP o;
     io_in := v; io_out := io_out o; channelLevel := channelLevel o |}.
Definition io_set_out (v : list (list Q)) (o : IO) : IO :=
  {| CHANGED_BANK := CHANGED_BANK o; NEW_BANK := NEW_BANK o; LOCK_ON := LOCK_ON o;
     USER_SCALE_CHANGED := USER_SCALE_CHANGED o; USER_SCALE := USER_SCALE o;
     FREQSCALE := FREQSCALE o; GLIDE_SWITCH := GLIDE_SWITCH o; INPUT_CLIP := INPUT_CLIP o;
     io_in := io_in o; io_out := v; channelLevel := channelLevel o |}.
Definition io_set_channelLevel (v : list Q) (o : IO) : IO :=
  {| CHANGED_BANK := CHANGED_BANK o; NEW_BANK := NEW_BANK o; LOCK_ON := LOCK_ON o;
     USER_SCALE_CHANGED := USER_SCALE_CHANGED o; USER_SCALE := USER_SCALE o;
     FREQSCALE := FREQSCALE o; GLIDE_SWITCH := GLIDE_SWITCH o; INPUT_CLIP := INPUT_CLIP o;
     io_in := io_in o; io_out := io_out o; channelLevel := v |}.

Definition fs_set_scale (v : list Z) (s : FilterSt) : FilterSt :=
  {| note := note s; scale := v; scale_bank := scale_bank s;
     old_scale_bank := old_scale_bank s; filter_type := filter_type s;
     new_filter_type := new_filter_type s; filter_type_changed := filter_type_changed s;
     filter_mode := filter_mode s; user_scale_bank := user_scale_bank s;
     c_hiq := c_hiq s; c_loq := c_loq s; bpretuning := bpretuning s;
     buf := buf s; buf_a := buf_a s; filter_out := filter_out s;
     qc := qc s; qval_a := qval_a s; qval_b := qval_b s |}.
Definition fs_set_scale_bank (v : list Z) (s : FilterSt) : FilterSt :=
  {| note := note s; scale := scale s; scale_bank := v;
     old_scale_bank := old_scale_bank s; filter_type := filter_type s;
     new_filter_type := new_filter_type s; filter_type_changed := filter_type_changed s;
     filter_mode := filter_mode s; user_scale_bank := user_scale_bank s;
     c_hiq := c_hiq s; c_loq := c_loq s; bpretuning := bpretuning s;
     buf := buf s; buf_a := buf_a s; filter_out := filter_out s;
     qc := qc s; qval_a := qval_a s; qval_b := qval_b s |}.
Definition fs_set_old_scale_bank (v : list Z) (s : FilterSt) : FilterSt :=
  {| note := note s; scale := scale s; scale_bank := scale_bank s;
     old_scale_bank := v; filter_type := filter_type s;
     new_filter_type := new_filter_type s; filter_type_changed := filter_type_changed s;
     filter_mode := filter_mode s; user_scale_bank := user_scale_bank s;
     c_hiq := c_hiq s; c_loq := c_loq s; bpretuning := bpretuning s;
     buf := buf s; buf_a := buf_a s; filter_out := filter_out s;
     qc := qc s; qval_a := qval_a s; qval_b := qval_b s |}.
Definition fs_set_type (t : FilterTypes) (s : FilterSt) : FilterSt :=
  {| note := note s; scale := scale s; scale_bank := scale_bank s;
     old_scale_bank := old_scale_bank s; filter_type := t;
     new_filter_type := new_filter_type s; filter_type_changed := filter_type_changed s;
     filter_mode := filter_mode s; user_scale_bank := user_scale_bank s;
     c_hiq := c_hiq s; c_loq := c_loq s; bpretuning := bpretuning s;
     buf := buf s; buf_a := buf_a s; filter_out := filter_out s;
     qc := qc s; qval_a := qval_a s; qval_b := qval_b s |}.
Definition fs_set_pending (changed : bool) (t : FilterTypes) (s : FilterSt) : FilterSt :=
  {| note := note s; scale := scale s; scale_bank := scale_bank s;
     old_scale_bank := old_scale_bank s; filter_type := filter_type s;
     new_filter_type := t; filter_type_changed := changed;
     filter_mode := filter_mode s; user_scale_bank := user_scale_bank s;
     c_hiq := c_hiq s; c_loq := c_loq s; bpretuning := bpretuning s;
     buf := buf s; buf_a := buf_a s; filter_out := filter_out s;
     qc := qc s; qval_a := qval_a s; qval_b := qval_b s |}.
Definition fs_set_user_scale_bank (v : list Q) (s : FilterSt) : FilterSt :=
  {| note := note s; scale := scale s; scale_bank := scale_bank s;
     old_scale_bank := old_scale_bank s; filter_type := filter_type s;
     new_filter_type := new_filter_type s; filter_type_changed := filter_type_changed s;
     filter_mode := filter_mode s; user_scale_bank := v;
     c_hiq := c_hiq s; c_loq := c_loq s; bpretuning := bpretuning s;
     buf := buf s; buf_a := buf_a s; filter_out := filter_out s;
     qc := qc s; qval_a := qval_a s; qval_b := qval_b s |}.
Definition fs_set_coefs (hi lo tun : list CoefPtr) (s : FilterSt) : FilterSt :=
  {| note := note s; scale := scale s; scale_bank := scale_bank s;
     old_scale_bank := old_scale_bank s; filter_type := filter_type s;
     new_filter_type := new_filter_type s; filter_type_changed := filter_type_changed s;
     filter_mode := filter_mode s; user_scale_bank := user_scale_bank s;
     c_hiq := hi; c_loq := lo; bpretuning := tun;
     buf := buf s; buf_a := buf_a s; filter_out := filter_out s;
     qc := qc s; qval_a := qval_a s; qval_b := qval_b s |}.
Definition fs_set_buf (v : list (list Q)) (s : FilterSt) : FilterSt :=
  {| note := note s; scale := scale s; scale_bank := scale_bank s;
     old_scale_bank := old_scale_bank s; filter_type := filter_type s;
     new_filter_type := new_filter_type s; filter_type_changed := filter_type_changed s;
     filter_mode := filter_mode s; user_scale_bank := user_scale_bank s;
     c_hiq := c_hiq s; c_loq := c_loq s; bpretuning := bpretuning s;
     buf := v; buf_a := buf_a s; filter_out := filter_out s;
     qc := qc s; qval_a := qval_a s; qval_b := qval_b s |}.
Definition fs_set_buf_a (v : list (list Q)) (s : FilterSt) : FilterSt :=
  {| note := note s; scale := scale s; scale_bank := scale_bank s;
     old_scale_bank := old_scale_bank s; filter_type := filter_type s;
     new_filter_type := new_filter_type s; filter_type_changed := filter_type_changed s;
     filter_mode := filter_mode s; user_scale_bank := user_scale_bank s;
     c_hiq := c_hiq s; c_loq := c_loq s; bpretuning := bpretuning s;
     buf := buf s; buf_a := v; filter_out := filter_out s;
     qc := qc s; qval_a := qval_a s; qval_b := qval_b s |}.
Definition fs_set_filter_out (v : list (list Q)) (s : FilterSt) : FilterSt :=
  {| note := note s; scale := scale s; scale_bank := scale_bank s;
     old_scale_bank := old_scale_bank s; filter_type := filter_type s;
     new_filter_type := new_filter_type s; filter_type_changed := filter_type_changed s;
     filter_mode := filter_mode s; user_scale_bank := user_scale_bank s;
     c_hiq := c_hiq s; c_loq := c_loq s; bpretuning := bpretuning s;
     buf := buf s; buf_a := buf_a s; filter_out := v;
     qc := qc s; qval_a := qval_a s; qval_b := qval_b s |}.
Definition fs_set_qvals (c a b : list Q) (s : FilterSt) : FilterSt :=
  {| note := note s; scale := scale s; scale_bank := scale_bank s;
     old_scale_bank := old_scale_bank s; filter_type := filter_type s;
     new_filter_type := new_filter_type s; filter_type_changed := filter_type_changed s;
     filter_mode := filter_mode s; user_scale_bank := user_scale_bank s;
     c_hiq := c_hiq s; c_loq := c_loq s; bpretuning := bpretuning s;
     buf := buf s; buf_a := buf_a s; filter_out := filter_out s;
     qc := c; qval_a := a; qval_b := b |}.

Definition with_fs (f : FilterSt -> FilterSt) (m : Filter) : Filter :=
  {| fs := f (fs m); io := io m; q := q m; tuning := tuning m;
     rotation := rotation m; envelope := envelope m; levels := levels m |}.
Definition with_io (f : IO -> IO) (m : Filter) : Filter :=
  {| fs := fs m; io := f (io m); q := q m; tuning := tuning m;
     rotation := rotation m; envelope := envelope m; levels := levels m |}.
Definition with_envelope (f : Envelope -> Envelope) (m : Filter) : Filter :=
  {| fs := fs m; io := io m; q := q m; tuning := tuning m;
     rotation := rotation m; envelope := f (envelope m); levels := levels m |}.
Definition with_q (f : Qctl -> Qctl) (m : Filter) : Filter :=
  {| fs := fs m; io := io m; q := f (q m); tuning := tuning m;
     rotation := rotation m; envelope := envelope m; levels := levels m |}.
Definition with_rotation (f : Rotation -> Rotation) (m : Filter) : Filter :=
  {| fs := fs m; io := io m; q := q m; tuning := tuning m;
     rotation := f (rotation m); envelope := envelope m; levels := levels m |}.

Definition env_set_voct (v : list Q) (e : Envelope) : Envelope :=
  {| envout_preload_voct := v; envout_preload := envout_preload e |}.
Definition env_set_preload (v : list Q) (e : Envelope) : Envelope :=
  {| envout_preload_voct := envout_preload_voct e; envout_preload := v |}.

(** ** Filter: bank, user scale and filter type requests *)

Definition process_bank_change (m : Filter) : Filter :=
  if CHANGED_BANK (io m) then
    for_loop NUM_CHANNELS (fun i m =>
      if negb (getB (LOCK_ON (io m)) i)
      then with_fs (fun s => fs_set_scale_bank (<[i := NEW_BANK (io m)]> (scale_bank s)) s) m
      else m) m
  else m.

Definition process_user_scale_change `{Dims} (m : Filter) : Filter :=
  if USER_SCALE_CHANGED (io m) then
    for_loop NUM_BANKNOTES (fun i m =>
      with_fs (fun s =>
        fs_set_user_scale_bank (<[i := getQ (USER_SCALE (io m)) i]> (user_scale_bank s)) s) m) m
  else m.

Definition change_filter_type (newtype : FilterTypes) (m : Filter) : Filter :=
  if negb (FilterTypes_eqb (new_filter_type (fs m)) newtype)
  then with_fs (fs_set_pending true newtype) m
  else m.

(** ** Filter::process_scale_bank *)

(** The clearing loop over the float pointer [ff] to [buf[i]]: iteration [j]
    stores 0 at [ff+j], [ff+j+1] and [ff+j+2]. *)
Definition clear_step (j : nat) (ff : list Q) : list Q :=
  <[(j + 2)%nat := 0%Q]> (<[(j + 1)%nat := 0%Q]> (<[j := 0%Q]> ff)).

Definition clear_history `{Dims} (ff : list Q) : list Q :=
  for_loop (NUM_SCALES * NUM_FILTS) clear_step ff.

Definition clamp_scale_bank `{Dims} (sb : Z) : Z :=
  if (Z.of_nat NUM_SCALEBANKS <=? sb)%Z && negb (sb =? 255)%Z
  then (Z.of_nat NUM_SCALEBANKS - 1)%Z else sb.

Definition clamp_scale `{Dims} (sc : Z) : Z :=
  if (Z.of_nat NUM_SCALES <=? sc)%Z then (Z.of_nat NUM_SCALES - 1)%Z else sc.

(** Whether channel [i] takes the "new scale bank or filter type changed"
    branch, evaluated after the two clamps. *)
Definition needs_reset (usc : bool) (s : FilterSt) (i : nat) : bool :=
  negb (getZ (scale_bank s) i =? getZ (old_scale_bank s) i)%Z
  || filter_type_changed s || usc.

Definition resolve_coefs `{Dims} (i : nat) (s : FilterSt) : FilterSt :=
  let sb := getZ (scale_bank s) i in
  if FilterTypes_eqb (filter_type s) MAXQ then
    if (sb =? Z.of_nat NUM_SCALEBANKS - 1)%Z
    then fs_set_coefs (<[i := UserScaleBank]> (c_hiq s)) (c_loq s) (bpretuning s) s
    else fs_set_coefs (<[i := PresetMaxq sb]> (c_hiq s)) (c_loq s) (bpretuning s) s
  else if negb (FilterModes_eqb (filter_mode s) TWOPASS)
          && FilterTypes_eqb (filter_type s) BPRE then
    fs_set_coefs (<[i := PresetBpreHi sb]> (c_hiq s))
                 (<[i := PresetBpreLo sb]> (c_loq s))
                 (<[i := PresetMaxq sb]> (bpretuning s)) s
  else s.

Definition scale_bank_channel `{Dims} (usc : bool) (i : nat) (s : FilterSt) : FilterSt :=
  let s := fs_set_scale_bank (<[i := clamp_scale_bank (getZ (scale_bank s) i)]> (scale_bank s)) s in
  let s := fs_set_scale (<[i := clamp_scale (getZ (scale s) i)]> (scale s)) s in
  if needs_reset usc s i then
    let s := fs_set_old_scale_bank (<[i := getZ (scale_bank s) i]> (old_scale_bank s)) s in
    let s := fs_set_buf (<[i := clear_history (row (buf s) i)]> (buf s)) s in
    resolve_coefs i s
  else s.

Definition process_scale_bank `{Dims} (m : Filter) : Filter :=
  with_fs (for_loop NUM_CHANNELS (scale_bank_channel (USER_SCALE_CHANGED (io m)))) m.

(** ** Filter: coefficient access and history cells *)

Definition getP (l : list CoefPtr) (i : nat) : CoefPtr := default NullPtr (l !! i).

(** [*(p + off)] for a coefficient pointer [p]. *)
Definition deref `{Tables} (s : FilterSt) (p : CoefPtr) (off : nat) : Q :=
  match p with
  | NullPtr => 0%Q
  | UserScaleBank => getQ (user_scale_bank s) off
  | PresetMaxq b => getQ (presets_c_maxq b) off
  | PresetBpreHi b => getQ (presets_c_bpre_hi b) off
  | PresetBpreLo b => getQ (presets_c_bpre_lo b) off
  end.

(** Assignment to a [uint8_t] local. *)
Definition to_u8 (z : Z) : nat := Z.to_nat (z mod 256).

(** Offset of [buf[ch][scale_num][filter_num][k]] inside [buf[ch]]. *)
Definition hidx `{Dims} (scale_num filter_num k : nat) : nat :=
  ((scale_num * NUM_FILTS + filter_num) * 3 + k)%nat.

Definition c1_limit : Q := 1.30899581%Q.

Definition limit_c1 (c1 : Q) : Q := if Qgtb c1 c1_limit then c1_limit else c1.

Section FilterAlgorithms.
Context `{Dims} `{Tables}.
Local Open Scope Q_scope.

(** Exponential-table lookup shared by the Q/resonance coefficients:
    [1 - exp_4096[(uint32_t)(qv / 1.4) + 200] / (10 / FREQSCALE)]. *)
Definition resonance_c0 (m : Filter) (qv : Q) : Q :=
  1 - exp_4096 (to_index (qv / 1.4) + 200)%nat / (10 / FREQSCALE (io m)).

(** *** filter_twopass *)

Definition twopass_qval_a (qcv : Q) : Q :=
  let a := qcv * 2 in if Qgtb a 4095 then 4095 else a.

Definition twopass_qval_b (qcv old : Q) : Q :=
  if Qltb qcv 3900 then 1000
  else if Qgeb qcv 3900 then 1000 + (qcv - 3900) * 15
  else old.

(** Frequency coefficient of the source note in two-pass mode (nudge and
    shift are multiplied together first). *)
Definition twopass_c1 (m : Filter) (ch scale_num filter_num : nat) : Q :=
  let c1 := deref (fs m) (getP (c_hiq (fs m)) ch)
                  (scale_num * NUM_SCALENOTES + filter_num)%nat in
  let c1 := c1 * (getQ (freq_nudge (tuning m)) ch * getQ (freq_shift (tuning m)) ch) in
  let c1 := c1 * FREQSCALE (io m) in
  limit_c1 c1.

(** Frequency coefficient as computed for the morph destination in two-pass
    mode and for both notes in single-pass mode. *)
Definition freq_c1 (m : Filter) (ch scale_num filter_num : nat) : Q :=
  let c1 := deref (fs m) (getP (c_hiq (fs m)) ch)
                  (scale_num * NUM_SCALENOTES + filter_num)%nat in
  let c1 := c1 * getQ (freq_nudge (tuning m)) ch in
  let c1 := c1 * getQ (freq_shift (tuning m)) ch in
  let c1 := c1 * FREQSCALE (io m) in
  limit_c1 c1.

(** Crossfade between the two filters, from the raw Q value [qc]. *)
Definition crossfade_ratio_a (qcv : Q) : Q :=
  if Qltb qcv CROSSFADE_MIN then 1
  else if Qgtb qcv CROSSFADE_MAX then 0
  else
    let pos_in_cf := (qcv - CROSSFADE_MIN) / CROSSFADE_WIDTH in
    1 - pos_in_cf.

Definition twopass_ratio_b (ratio_a qvb : Q) : Q :=
  let ratio_b := 1 - ratio_a in
  ratio_b * (43801543.68 / inject_Z (twopass_calibration (to_index (qvb - 900)))).

Definition amplitude_c2 (c1 c0 : Q) : Q := (0.003 * c1) - (0.1 * c0) + 0.102.

(** One second-order section on the history cell at offset [o] of channel
    [ch]: the three stores of the C code, each reading memory as the
    previous store left it.  Returns the memory and the section output. *)
Definition section_step (b : list (list Q)) (ch o : nat) (c0 c1 c2 x : Q)
  : list (list Q) * Q :=
  let b := set2 b ch (o + 2) ((c0 * get2Q b ch (o + 1) + c1 * get2Q b ch o) - c2 * x) in
  let b := set2 b ch o (get2Q b ch o - (c1 * get2Q b ch (o + 2))) in
  let b := set2 b ch (o + 1) (get2Q b ch (o + 2)) in
  (b, get2Q b ch (o + 1)).

(** The input-overload test made on a raw sample. *)
Definition flag_clip (x : Z) (m : Filter) : Filter :=
  if (INPUT_LED_CLIP_LEVEL <=? x)%Z then with_io (io_set_INPUT_CLIP true) m else m.

(** The same test made on [float tmp], a float copy of the sample: the
    level is converted to [float] for the comparison. *)
Definition flag_clip_float (tmp : Z) (m : Filter) : Filter :=
  if (float_of_int INPUT_LED_CLIP_LEVEL <=? float_of_int tmp)%Z
  then with_io (io_set_INPUT_CLIP true) m else m.

(** Body of the per-sample loop of [filter_twopass]; [check] is set in the
    loop of the source note, which alone tests the clip level. *)
Definition twopass_sample (check : bool) (ch o j : nat)
    (c0_a c0 c1 c2_a c2 ratio_a : Q) (i : nat) (m : Filter) : Filter :=
  let x := get2Z (io_in (io m)) ch i in
  let m := if check then flag_clip x m else m in
  with_fs (fun s =>
    let '(ba, filter_out_a) := section_step (buf_a s) ch o c0_a c1 c2_a (inject_Z x) in
    let '(b, filter_out_b) := section_step (buf s) ch o c0 c1 c2 filter_out_a in
    fs_set_filter_out
      (set2 (filter_out s) j i ((ratio_a * filter_out_a) - filter_out_b))
      (fs_set_buf b (fs_set_buf_a ba s))) m.

(** V/oct output with glissando. *)
Definition glide_voct (ch : nat) (destvoct : Q) (m : Filter) : Filter :=
  if GLIDE_SWITCH (io m) then
    let mp := getQ (motion_morphpos (rotation m)) ch in
    with_envelope (fun e =>
      env_set_voct (<[ch := (getQ (envout_preload_voct e) ch * (1 - mp)) + (destvoct * mp)]>
                      (envout_preload_voct e)) e) m
  else m.

Definition set_voct (ch : nat) (v : Q) (m : Filter) : Filter :=
  with_envelope (fun e => env_set_voct (<[ch := v]> (envout_preload_voct e)) e) m.

Definition twopass_channel (channel_num : nat) (m : Filter) : Filter :=
  let filter_num := to_u8 (getZ (note (fs m)) channel_num) in
  let scale_num := to_u8 (getZ (scale (fs m)) channel_num) in
  let qcv := inject_Z (getZ (qval (q m)) channel_num) in
  let qva := twopass_qval_a qcv in
  let qvb := twopass_qval_b qcv (getQ (qval_b (fs m)) channel_num) in
  let m := with_fs (fun s => fs_set_qvals (<[channel_num := qcv]> (qc s))
                                          (<[channel_num := qva]> (qval_a s))
                                          (<[channel_num := qvb]> (qval_b s)) s) m in
  let c0_a := resonance_c0 m qva in
  let c0 := resonance_c0 m qvb in
  let c1 := twopass_c1 m channel_num scale_num filter_num in
  let ratio_a := crossfade_ratio_a qcv in
  let ratio_b := twopass_ratio_b ratio_a qvb in
  let c2_a := amplitude_c2 c1 c0_a in
  let c2 := amplitude_c2 c1 c0 * ratio_b in
  let m := for_loop NUM_SAMPLES
             (twopass_sample true channel_num (hidx scale_num filter_num 0) channel_num
                             c0_a c0 c1 c2_a c2 ratio_a) m in
  let m := set_voct channel_num c1 m in
  if Qgtb (getQ (motion_morphpos (rotation m)) channel_num) 0 then
    let filter_num := to_u8 (getZ (motion_fadeto_note (rotation m)) channel_num) in
    let scale_num := to_u8 (getZ (motion_fadeto_scale (rotation m)) channel_num) in
    let c1 := freq_c1 m channel_num scale_num filter_num in
    let destvoct := c1 in
    let c2_a := amplitude_c2 c1 c0_a in
    let c2 := amplitude_c2 c1 c0 * ratio_b in
    let m := for_loop NUM_SAMPLES
               (twopass_sample false channel_num (hidx scale_num filter_num 0)
                               (channel_num + 6) c0_a c0 c1 c2_a c2 ratio_a) m in
    glide_voct channel_num destvoct m
  else m.

Definition filter_twopass (m : Filter) : Filter :=
  let m := with_io (io_set_INPUT_CLIP false) m in
  for_loop NUM_CHANNELS twopass_channel m.

(** *** filter_onepass *)

(** Body of the per-sample loop of [filter_onepass].  [tmp] is declared
    [float]: the overload test is made on the float copy of the sample. *)
Definition onepass_sample (ch o j : nat) (c0 c1 c2 : Q) (i : nat) (m : Filter) : Filter :=
  let tmp := get2Z (io_in (io m)) ch i in
  let m := flag_clip_float tmp m in
  with_fs (fun s =>
    let b := buf s in
    let b := set2 b ch (o + 2)
               ((c0 * get2Q b ch (o + 1) + c1 * get2Q b ch o) - c2 * inject_Z tmp) in
    let iir := get2Q b ch o - (c1 * get2Q b ch (o + 2)) in
    let b := set2 b ch o iir in
    let b := set2 b ch (o + 1) (get2Q b ch (o + 2)) in
    fs_set_filter_out (set2 (filter_out s) j i (get2Q b ch (o + 1))) (fs_set_buf b s)) m.

(** The (channel, note, scale) a slot [j] of the 12-wide layout filters. *)
Definition slot_channel (j : nat) : nat :=
  if (j <? NUM_CHANNELS)%nat then j else (j - NUM_CHANNELS)%nat.

Definition slot_note (j : nat) (m : Filter) : nat :=
  if (j <? NUM_CHANNELS)%nat then to_u8 (getZ (note (fs m)) (slot_channel j))
  else to_u8 (getZ (motion_fadeto_note (rotation m)) (slot_channel j)).

Definition slot_scale (j : nat) (m : Filter) : nat :=
  if (j <? NUM_CHANNELS)%nat then to_u8 (getZ (scale (fs m)) (slot_channel j))
  else to_u8 (getZ (motion_fadeto_scale (rotation m)) (slot_channel j)).

Definition slot_active (j : nat) (m : Filter) : bool :=
  (j <? NUM_CHANNELS)%nat
  || negb (Qeq_bool (getQ (motion_morphpos (rotation m)) (slot_channel j)) 0).

Definition onepass_slot (j : nat) (m : Filter) : Filter :=
  let channel_num := slot_channel j in
  if slot_active j m then
    let filter_num := slot_note j m in
    let scale_num := slot_scale j m in
    let qv := inject_Z (getZ (qval (q m)) channel_num) in
    let c0 := resonance_c0 m qv in
    let c1 := freq_c1 m channel_num scale_num filter_num in
    let m := if (j <? NUM_CHANNELS)%nat then set_voct channel_num c1 m else m in
    let destvoct := c1 in
    let c2 := amplitude_c2 c1 c0 in
    let c2 := c2 * (((4096 - qv) / 1024) + 1.04) in
    let m := for_loop NUM_SAMPLES
               (onepass_sample channel_num (hidx scale_num filter_num 0) j c0 c1 c2) m in
    if (NUM_CHANNELS <=? j)%nat then glide_voct channel_num destvoct m else m
  else m.

Definition filter_onepass (m : Filter) : Filter :=
  let m := with_io (io_set_INPUT_CLIP false) m in
  for_loop (NUM_CHANNELS * 2) onepass_slot m.

(** *** filter_bpre *)

Definition bpre_var_f (nudge : Q) : Q :=
  let var_f := nudge in
  let var_f := if Qltb var_f 0.002 then 0 else var_f in
  if Qgtb var_f 0.998 then 1 else var_f.

Definition nudge_filter (filter_num : nat) : nat :=
  let n := ((filter_num + 1) mod 256)%nat in
  if (NUM_FILTS <? n)%nat then NUM_FILTS else n.

(** Blend of the coefficient [k] of the note and of the next note. *)
Definition bpre_note_blend (m : Filter) (p : CoefPtr)
    (scale_num filter_num k : nat) (var_f : Q) : Q :=
  deref (fs m) p (scale_num * 63 + nudge_filter filter_num * 3 + k)%nat * var_f
  + deref (fs m) p (scale_num * 63 + filter_num * 3 + k)%nat * (1 - var_f).

Definition bpre_var_q (qv : Z) : Q :=
  if (4065 <? qv)%Z then 1 else log_4096 (Z.to_nat qv).

Definition bpre_inv_var_q (qv : Z) : Q :=
  if (4065 <? qv)%Z then 0 else 1 - log_4096 (Z.to_nat qv).

(** Coefficient [k] (0, 1 or 2) used by the recursion of [filter_bpre]. *)
Definition bpre_coef (m : Filter) (ch scale_num filter_num k : nat) : Q :=
  let var_f := bpre_var_f (getQ (freq_nudge (tuning m)) ch) in
  let a := bpre_note_blend m (getP (c_loq (fs m)) ch) scale_num filter_num k var_f in
  let c := bpre_note_blend m (getP (c_hiq (fs m)) ch) scale_num filter_num k var_f in
  let qv := getZ (qval (q m)) ch in
  c * bpre_var_q qv + a * bpre_inv_var_q qv.

Definition bpre_sample (ch o j : nat) (c0 c1 c2 : Q) (i : nat) (m : Filter) : Filter :=
  let pTmp := get2Z (io_in (io m)) ch i in
  let m := flag_clip pTmp m in
  with_fs (fun s =>
    let b := buf s in
    let tmp := get2Q b ch o in
    let b := set2 b ch o (get2Q b ch (o + 1)) in
    let iir := inject_Z pTmp * c0 in
    let iir := iir - c1 * tmp in
    let fir := - tmp in
    let iir := iir - c2 * get2Q b ch o in
    let fir := fir + iir in
    let b := set2 b ch (o + 1) iir in
    fs_set_filter_out (set2 (filter_out s) j i fir) (fs_set_buf b s)) m.

Definition bpre_slot (j : nat) (m : Filter) : Filter :=
  let channel_num := slot_channel j in
  if slot_active j m then
    let filter_num := slot_note j m in
    let scale_num := slot_scale j m in
    let voct := deref (fs m) (getP (bpretuning (fs m)) channel_num)
                      (scale_num * NUM_SCALENOTES + filter_num)%nat in
    let m := if (j <? NUM_CHANNELS)%nat then set_voct channel_num voct m else m in
    let destvoct := voct in
    let c0 := bpre_coef m channel_num scale_num filter_num 0 in
    let c1 := bpre_coef m channel_num scale_num filter_num 1 in
    let c2 := bpre_coef m channel_num scale_num filter_num 2 in
    let m := for_loop NUM_SAMPLES
               (bpre_sample channel_num (hidx scale_num filter_num 0) j c0 c1 c2) m in
    if (NUM_CHANNELS <=? j)%nat then glide_voct channel_num destvoct m else m
  else m.

Definition filter_bpre (m : Filter) : Filter :=
  let m := with_io (io_set_INPUT_CLIP false) m in
  for_loop (NUM_CHANNELS * 2) bpre_slot m.
End FilterAlgorithms.

(** ** Filter::process_audio_block *)

(** [Q::update] and [Rotation::update_morph] belong to collaborators of the
    filter; each is given the object it owns and the shared [IO]. *)
Class Collaborators := {
  q_update : IO -> Qctl -> Qctl;
  update_morph : IO -> Rotation -> Rotation
}.

Section AudioBlock.
Context `{Dims} `{Tables} `{Collaborators}.
Local Open Scope Q_scope.

Definition apply_pending_type (m : Filter) : Filter :=
  if filter_type_changed (fs m)
  then with_fs (fun s => fs_set_type (new_filter_type s) s) m
  else m.

(** The algorithm that filters the block. *)
Inductive Algorithm := AlgTwoPass | AlgOnePass | AlgBpre.

Definition selected_algorithm (s : FilterSt) : Algorithm :=
  if FilterModes_eqb (filter_mode s) TWOPASS then AlgTwoPass
  else if FilterTypes_eqb (filter_type s) MAXQ then AlgOnePass
  else AlgBpre.

Definition run_algorithm (a : Algorithm) (m : Filter) : Filter :=
  match a with
  | AlgTwoPass => filter_twopass m
  | AlgOnePass => filter_onepass m
  | AlgBpre => filter_bpre m
  end.

Definition run_filter (m : Filter) : Filter :=
  run_algorithm (selected_algorithm (fs m)) m.

Definition f_blended_at (m : Filter) (j i : nat) : Q :=
  let mp := getQ (motion_morphpos (rotation m)) j in
  if Qeq_bool mp 0 then get2Q (filter_out (fs m)) j i
  else (get2Q (filter_out (fs m)) j i * (1 - mp))
       + (get2Q (filter_out (fs m)) (j + NUM_CHANNELS) i * mp).

(** The MORPHING loops: samples outside, channels inside. *)
Definition morph_cell (i j : nat) (m : Filter) : Filter :=
  let f_blended := f_blended_at m j i in
  with_io (fun o =>
    io_set_out (set2 (io_out o) j i (f_blended * getQ (channel_level (levels m)) j)) o) m.

Definition morph_blend (m : Filter) : Filter :=
  for_loop NUM_SAMPLES (fun i => for_loop NUM_CHANNELS (morph_cell i)) m.

(** Level meter and envelope input, from sample 0 of the block. *)
Definition level_cell (j : nat) (m : Filter) : Filter :=
  let mp := getQ (motion_morphpos (rotation m)) j in
  let f_blended := (get2Q (filter_out (fs m)) j 0 * (1 - mp))
                   + (get2Q (filter_out (fs m)) (j + NUM_CHANNELS) 0 * mp) in
  let m := with_io (fun o =>
             io_set_channelLevel
               (<[j := (f_blended * getQ (channel_level (levels m)) j) / CLIP_LEVEL]>
                  (channelLevel o)) o) m in
  with_envelope (fun e =>
    env_set_preload
      (<[j := if Qgtb f_blended 0 then f_blended else -1 * f_blended]> (envout_preload e)) e) m.

Definition clear_change_flags (m : Filter) : Filter :=
  let m := with_fs (fun s => fs_set_pending false (new_filter_type s) s) m in
  with_io (io_set_USER_SCALE_CHANGED false) m.

(** The block up to and including the filter algorithm. *)
Definition block_filtered (m : Filter) : Filter :=
  let m := apply_pending_type m in
  let m := process_scale_bank m in
  let m := with_q (q_update (io m)) m in
  run_filter m.

Definition process_audio_block (m : Filter) : Filter :=
  let m := block_filtered m in
  let m := with_rotation (update_morph (io m)) m in
  let m := morph_blend m in
  let m := for_loop NUM_CHANNELS level_cell m in
  clear_change_flags m.
End AudioBlock.

(** ** Filter::set_default_user_scalebank *)

Definition set_default_user_scalebank `{Dims} `{Tables} (m : Filter) : Filter :=
  for_loop NUM_BANKNOTES (fun j m =>
    with_fs (fun s =>
      fs_set_user_scale_bank
        (<[j := getQ (presets_c_maxq (Z.of_nat NUM_SCALEBANKS - 1)) j]> (user_scale_bank s)) s)
      m) m.

(** ** Audio: noise, resampling and multiplexing *)

(** The VCV Rack side of [Audio]: the noise generators, the sample rate
    converter and the ring buffers come from libraries outside the
    translated sources.  [src_process st frames max] stands for
    [SampleRateConverter::process]: it returns the converter, the number of
    input frames consumed and the frames produced. *)
Class Host := {
  BrownNoise : Type;
  PinkNoise : Type;
  WhiteNoise : Type;
  brown_next : BrownNoise -> Q * BrownNoise;
  pink_next : PinkNoise -> Q * PinkNoise;
  white_next : WhiteNoise -> Q * WhiteNoise;
  SrcState : Type;
  src_setRates : Q -> Q -> SrcState -> SrcState;
  src_process : SrcState -> list Q -> nat -> SrcState * nat * list Q;
  BUFFER_SIZE : nat
}.

(** [Controller::process_audio], the one-block entry point of the engine. *)
Class Engine := { process_audio : Filter -> Filter }.

Record Input := { in_voltages : list Q }.
Record Output := { out_channels : nat; out_voltages : list Q }.

Definition getVoltage (input : Input) (c : nat) : Q := getQ (in_voltages input) c.
Definition setChannels (n : nat) (o : Output) : Output :=
  {| out_channels := n; out_voltages := out_voltages o |}.
Definition setVoltage (v : Q) (c : nat) (o : Output) : Output :=
  {| out_channels := out_channels o; out_voltages := <[c := v]> (out_voltages o) |}.

(** [engine_runs] is not a member of the C++ class: it counts the calls of
    [process_audio] made so far, so that statements can speak about them. *)
Record Audio `{Host} := {
  noiseSelected : Z;
  inputChannels : Z;
  outputChannels : Z;
  inChannels : nat;
  outChannels : nat;
  sampleRate : Q;
  brown : BrownNoise;
  pink : PinkNoise;
  white : WhiteNoise;
  nInputSrc : list SrcState;
  nOutputSrc : list SrcState;
  nInputBuffer : list (list Q);
  nOutputBuffer : list (list Q);
  nInputFrame : list Q;
  nOutputFrame : list Q;
  nInputFrames : list (list Q);
  nOutputFrames : list (list Q);
  engine_runs : nat
}.

Definition set_inChannels `{Host} (v : nat) (a : Audio) : Audio :=
  {| noiseSelected := noiseSelected a; inputChannels := inputChannels a; outputChannels
     := outputChannels a; inChannels := v; outChannels := outChannels a; sampleRate :=
     sampleRate a; brown := brown a; pink := pink a; white := white a; nInputSrc :=
     nInputSrc a; nOutputSrc := nOutputSrc a; nInputBuffer := nInputBuffer a;
     nOutputBuffer := nOutputBuffer a; nInputFrame := nInputFrame a; nOutputFrame :=
     nOutputFrame a; nInputFrames := nInputFrames a; nOutputFrames := nOutputFrames a;
     engine_runs := engine_runs a |}.
Definition set_outChannels `{Host} (v : nat) (a : Audio) : Audio :=
  {| noiseSelected := noiseSelected a; inputChannels := inputChannels a; outputChannels
     := outputChannels a; inChannels := inChannels a; outChannels := v; sampleRate :=
     sampleRate a; brown := brown a; pink := pink a; white := white a; nInputSrc :=
     nInputSrc a; nOutputSrc := nOutputSrc a; nInputBuffer := nInputBuffer a;
     nOutputBuffer := nOutputBuffer a; nInputFrame := nInputFrame a; nOutputFrame :=
     nOutputFrame a; nInputFrames := nInputFrames a; nOutputFrames := nOutputFrames a;
     engine_runs := engine_runs a |}.
Definition set_brown `{Host} (v : BrownNoise) (a : Audio) : Audio :=
  {| noiseSelected := noiseSelected a; inputChannels := inputChannels a; outputChannels
     := outputChannels a; inChannels := inChannels a; outChannels := outChannels a;
     sampleRate := sampleRate a; brown := v; pink := pink a; white := white a; nInputSrc
     := nInputSrc a; nOutputSrc := nOutputSrc a; nInputBuffer := nInputBuffer a;
     nOutputBuffer := nOutputBuffer a; nInputFrame := nInputFrame a; nOutputFrame :=
     nOutputFrame a; nInputFrames := nInputFrames a; nOutputFrames := nOutputFrames a;
     engine_runs := engine_runs a |}.
Definition set_pink `{Host} (v : PinkNoise) (a : Audio) : Audio :=
  {| noiseSelected := noiseSelected a; inputChannels := inputChannels a; outputChannels
     := outputChannels a; inChannels := inChannels a; outChannels := outChannels a;
     sampleRate := sampleRate a; brown := brown a; pink := v; white := white a;
     nInputSrc := nInputSrc a; nOutputSrc := nOutputSrc a; nInputBuffer := nInputBuffer
     a; nOutputBuffer := nOutputBuffer a; nInputFrame := nInputFrame a; nOutputFrame :=
     nOutputFrame a; nInputFrames := nInputFrames a; nOutputFrames := nOutputFrames a;
     engine_runs := engine_runs a |}.
Definition set_white `{Host} (v : WhiteNoise) (a : Audio) : Audio :=
  {| noiseSelected := noiseSelected a; inputChannels := inputChannels a; outputChannels
     := outputChannels a; inChannels := inChannels a; outChannels := outChannels a;
     sampleRate := sampleRate a; brown := brown a; pink := pink a; white := v; nInputSrc
     := nInputSrc a; nOutputSrc := nOutputSrc a; nInputBuffer := nInputBuffer a;
     nOutputBuffer := nOutputBuffer a; nInputFrame := nInputFrame a; nOutputFrame :=
     nOutputFrame a; nInputFrames := nInputFrames a; nOutputFrames := nOutputFrames a;
     engine_runs := engine_runs a |}.
Definition set_nInputSrc `{Host} (v : list SrcState) (a : Audio) : Audio :=
  {| noiseSelected := noiseSelected a; inputChannels := inputChannels a; outputChannels
     := outputChannels a; inChannels := inChannels a; outChannels := outChannels a;
     sampleRate := sampleRate a; brown := brown a; pink := pink a; white := white a;
     nInputSrc := v; nOutputSrc := nOutputSrc a; nInputBuffer := nInputBuffer a;
     nOutputBuffer := nOutputBuffer a; nInputFrame := nInputFrame a; nOutputFrame :=
     nOutputFrame a; nInputFrames := nInputFrames a; nOutputFrames := nOutputFrames a;
     engine_runs := engine_runs a |}.
Definition set_nOutputSrc `{Host} (v : list SrcState) (a : Audio) : Audio :=
  {| noiseSelected := noiseSelected a; inputChannels := inputChannels a; outputChannels
     := outputChannels a; inChannels := inChannels a; outChannels := outChannels a;
     sampleRate := sampleRate a; brown := brown a; pink := pink a; white := white a;
     nInputSrc := nInputSrc a; nOutputSrc := v; nInputBuffer := nInputBuffer a;
     nOutputBuffer := nOutputBuffer a; nInputFrame := nInputFrame a; nOutputFrame :=
     nOutputFrame a; nInputFrames := nInputFrames a; nOutputFrames := nOutputFrames a;
     engine_runs := engine_runs a |}.
Definition set_nInputBuffer `{Host} (v : list (list Q)) (a : Audio) : Audio :=
  {| noiseSelected := noiseSelected a; inputChannels := inputChannels a; outputChannels
     := outputChannels a; inChannels := inChannels a; outChannels := outChannels a;
     sampleRate := sampleRate a; brown := brown a; pink := pink a; white := white a;
     nInputSrc := nInputSrc a; nOutputSrc := nOutputSrc a; nInputBuffer := v;
     nOutputBuffer := nOutputBuffer a; nInputFrame := nInputFrame a; nOutputFrame :=
     nOutputFrame a; nInputFrames := nInputFrames a; nOutputFrames := nOutputFrames a;
     engine_runs := engine_runs a |}.
Definition set_nOutputBuffer `{Host} (v : list (list Q)) (a : Audio) : Audio :=
  {| noiseSelected := noiseSelected a; inputChannels := inputChannels a; outputChannels
     := outputChannels a; inChannels := inChannels a; outChannels := outChannels a;
     sampleRate := sampleRate a; brown := brown a; pink := pink a; white := white a;
     nInputSrc := nInputSrc a; nOutputSrc := nOutputSrc a; nInputBuffer := nInputBuffer
     a; nOutputBuffer := v; nInputFrame := nInputFrame a; nOutputFrame := nOutputFrame
     a; nInputFrames := nInputFrames a; nOutputFrames := nOutputFrames a; engine_runs :=
     engine_runs a |}.
Definition set_nInputFrame `{Host} (v : list Q) (a : Audio) : Audio :=
  {| noiseSelected := noiseSelected a; inputChannels := inputChannels a; outputChannels
     := outputChannels a; inChannels := inChannels a; outChannels := outChannels a;
     sampleRate := sampleRate a; brown := brown a; pink := pink a; white := white a;
     nInputSrc := nInputSrc a; nOutputSrc := nOutputSrc a; nInputBuffer := nInputBuffer
     a; nOutputBuffer := nOutputBuffer a; nInputFrame := v; nOutputFrame := nOutputFrame
     a; nInputFrames := nInputFrames a; nOutputFrames := nOutputFrames a; engine_runs :=
     engine_runs a |}.
Definition set_nOutputFrame `{Host} (v : list Q) (a : Audio) : Audio :=
  {| noiseSelected := noiseSelected a; inputChannels := inputChannels a; outputChannels
     := outputChannels a; inChannels := inChannels a; outChannels := outChannels a;
     sampleRate := sampleRate a; brown := brown a; pink := pink a; white := white a;
     nInputSrc := nInputSrc a; nOutputSrc := nOutputSrc a; nInputBuffer := nInputBuffer
     a; nOutputBuffer := nOutputBuffer a; nInputFrame := nInputFrame a; nOutputFrame :=
     v; nInputFrames := nInputFrames a; nOutputFrames := nOutputFrames a; engine_runs :=
     engine_runs a |}.
Definition set_nInputFrames `{Host} (v : list (list Q)) (a : Audio) : Audio :=
  {| noiseSelected := noiseSelected a; inputChannels := inputChannels a; outputChannels
     := outputChannels a; inChannels := inChannels a; outChannels := outChannels a;
     sampleRate := sampleRate a; brown := brown a; pink := pink a; white := white a;
     nInputSrc := nInputSrc a; nOutputSrc := nOutputSrc a; nInputBuffer := nInputBuffer
     a; nOutputBuffer := nOutputBuffer a; nInputFrame := nInputFrame a; nOutputFrame :=
     nOutputFrame a; nInputFrames := v; nOutputFrames := nOutputFrames a; engine_runs :=
     engine_runs a |}.
Definition set_nOutputFrames `{Host} (v : list (list Q)) (a : Audio) : Audio :=
  {| noiseSelected := noiseSelected a; inputChannels := inputChannels a; outputChannels
     := outputChannels a; inChannels := inChannels a; outChannels := outChannels a;
     sampleRate := sampleRate a; brown := brown a; pink := pink a; white := white a;
     nInputSrc := nInputSrc a; nOutputSrc := nOutputSrc a; nInputBuffer := nInputBuffer
     a; nOutputBuffer := nOutputBuffer a; nInputFrame := nInputFrame a; nOutputFrame :=
     nOutputFrame a; nInputFrames := nInputFrames a; nOutputFrames := v; engine_runs :=
     engine_runs a |}.
Definition set_engine_runs `{Host} (v : nat) (a : Audio) : Audio :=
  {| noiseSelected := noiseSelected a; inputChannels := inputChannels a; outputChannels
     := outputChannels a; inChannels := inChannels a; outChannels := outChannels a;
     sampleRate := sampleRate a; brown := brown a; pink := pink a; white := white a;
     nInputSrc := nInputSrc a; nOutputSrc := nOutputSrc a; nInputBuffer := nInputBuffer
     a; nOutputBuffer := nOutputBuffer a; nInputFrame := nInputFrame a; nOutputFrame :=
     nOutputFrame a; nInputFrames := nInputFrames a; nOutputFrames := nOutputFrames a;
     engine_runs := v |}.

Section Pipeline.
Context `{Dims} `{Host} `{Engine}.
Local Open Scope Q_scope.

Definition generateNoise (a : Audio) : Q * Audio :=
  match noiseSelected a with
  | 0%Z => let '(x, g) := brown_next (brown a) in (x * 10 - 5, set_brown g a)
  | 1%Z => let '(x, g) := pink_next (pink a) in (x * 10 - 5, set_pink g a)
  | 2%Z => let '(x, g) := white_next (white a) in (x * 10 - 5, set_white g a)
  | _ => let '(x, g) := pink_next (pink a) in (x * 10 - 5, set_pink g a)
  end.

(** *** Ring buffers *)

Definition buffer_empty (b : list Q) : bool := (length b =? 0)%nat.
Definition buffer_full (b : list Q) : bool := (BUFFER_SIZE <=? length b)%nat.
Definition buffer_capacity (b : list Q) : nat := (BUFFER_SIZE - length b)%nat.

(** Frames written by a converter at the start of a frame array. *)
Definition overwrite_prefix (new old : list Q) : list Q := new ++ drop (length new) old.

(** *** Channel counts *)

Definition select_inChannels (inputChannels : Z) : nat :=
  match inputChannels with
  | 0%Z | 1%Z | 2%Z => 2%nat
  | 3%Z => 3%nat
  | _ => 6%nat
  end.

Definition select_outChannels (outputChannels : Z) : nat :=
  match outputChannels with
  | 0%Z => 1%nat
  | 1%Z => 2%nat
  | 2%Z => 6%nat
  | _ => 1%nat
  end.

(** *** populateInputBuffer *)

Definition populate_lane (input : Input) (i : nat) (a : Audio) : Audio :=
  if negb (buffer_full (row (nInputBuffer a) i)) then
    let '(v, a) :=
      if (inputChannels a =? 0)%Z then
        let '(nO, a) := generateNoise a in (nO / 5, a)
      else if (inputChannels a =? 1)%Z then (getVoltage input 0 / 5, a)
      else (getVoltage input i / 5, a) in
    let a := set_nInputFrame (<[i := v]> (nInputFrame a)) a in
    set_nInputBuffer
      (<[i := row (nInputBuffer a) i ++ [getQ (nInputFrame a) i]]> (nInputBuffer a)) a
  else a.

Definition populateInputBuffer (input : Input) (a : Audio) : Audio :=
  for_loop (inChannels a) (populate_lane input) a.

(** *** resampleInput *)

(** The store of one converted sample [v] of lane [i] into [main.io->in]. *)
Definition store_lane_sample (inCh : nat) (i j : nat) (v : Z) (tin : list (list Z))
  : list (list Z) :=
  match inCh with
  | 2%nat => set2 (set2 (set2 tin i j v) (2 + i) j v) (4 + i) j v
  | 3%nat => set2 (set2 tin i j v) (1 + i) j v
  | _ => set2 tin i j v
  end.

Definition to_12bit (x : Q) : Z := Qtrunc (clamp (x * MAX_12BIT) MIN_12BIT MAX_12BIT).

Definition store_lane (inCh : nat) (frames : list Q) (i : nat) (tin : list (list Z))
  : list (list Z) :=
  for_loop NUM_SAMPLES
    (fun j tin => store_lane_sample inCh i j (to_12bit (getQ frames j)) tin) tin.

Definition resample_lane (i : nat) (st : Audio * Filter) : Audio * Filter :=
  let '(a, main) := st in
  if negb (buffer_empty (row (nInputBuffer a) i)) then
    match nInputSrc a !! i with
    | Some src =>
        let src := src_setRates (sampleRate a) 96000 src in
        let '(src, inLen, produced) := src_process src (row (nInputBuffer a) i) NUM_SAMPLES in
        let produced := take NUM_SAMPLES produced in
        let a := set_nInputSrc (<[i := src]> (nInputSrc a)) a in
        let a := set_nInputFrames
                   (<[i := overwrite_prefix produced (row (nInputFrames a) i)]>
                      (nInputFrames a)) a in
        let a := set_nInputBuffer
                   (<[i := drop inLen (row (nInputBuffer a) i)]> (nInputBuffer a)) a in
        let main := with_io (fun o =>
                      io_set_in (store_lane (inChannels a) (row (nInputFrames a) i) i (io_in o)) o)
                      main in
        (a, main)
    | None => st
    end
  else st.

Definition resampleInput (st : Audio * Filter) : Audio * Filter :=
  for_loop NUM_CHANNELS resample_lane st.

(** *** populateAndResampleOutputBuffer *)

Definition accumulate_output (chan i : nat) (main : Filter) (a : Audio) : Audio :=
  let x := get2Q (io_out (io main)) chan i / MAX_12BIT in
  let add (lane : nat) :=
    set_nOutputFrames (set2 (nOutputFrames a) lane i (get2Q (nOutputFrames a) lane i + x)) a in
  match outputChannels a with
  | 0%Z => add 0%nat
  | 1%Z => if Nat.odd i then add 1%nat else add 0%nat
  | 2%Z => set_nOutputFrames (set2 (nOutputFrames a) chan i x) a
  | _ => add 0%nat
  end.

Definition convert_output (chan : nat) (a : Audio) : Audio :=
  match nOutputSrc a !! chan with
  | Some src =>
      let src := src_setRates 96000 (sampleRate a) src in
      let cap := buffer_capacity (row (nOutputBuffer a) chan) in
      let '(src, inLen, produced) :=
        src_process src (take NUM_SAMPLES (row (nOutputFrames a) chan)) cap in
      let a := set_nOutputSrc (<[chan := src]> (nOutputSrc a)) a in
      set_nOutputBuffer
        (<[chan := row (nOutputBuffer a) chan ++ take cap produced]> (nOutputBuffer a)) a
  | None => a
  end.

Definition populateAndResampleOutputBuffer (main : Filter) (a : Audio) : Audio :=
  for_loop NUM_CHANNELS (fun chan =>
    for_loop NUM_SAMPLES (fun i a =>
      convert_output chan (accumulate_output chan i main a))) a.

(** *** processOutputBuffer *)

Definition buffer_ready (a : Audio) : bool :=
  for_loop (outChannels a)
    (fun chan ready => ready && negb (buffer_empty (row (nOutputBuffer a) chan))) true.

(** [nOutputFrame[chan] = nOutputBuffer[chan].shift()]. *)
Definition shift_lane (chan : nat) (a : Audio) : Audio :=
  let b := row (nOutputBuffer a) chan in
  let a := set_nOutputFrame (<[chan := getQ b 0]> (nOutputFrame a)) a in
  set_nOutputBuffer (<[chan := drop 1 b]> (nOutputBuffer a)) a.

Definition emit_frames (a : Audio) (output : Output) : Output :=
  match outputChannels a with
  | 0%Z => setVoltage (getQ (nOutputFrame a) 0 * 5) 0 output
  | 1%Z => setVoltage (getQ (nOutputFrame a) 1 * 5) 1
             (setVoltage (getQ (nOutputFrame a) 0 * 5) 0 output)
  | 2%Z => for_loop (outChannels a)
             (fun chan output => setVoltage (getQ (nOutputFrame a) chan * 5) chan output) output
  | _ => setVoltage (getQ (nOutputFrame a) 0 * 5) 0 output
  end.

Definition processOutputBuffer (st : Audio * Output) : Audio * Output :=
  let '(a, output) := st in
  let output := setChannels (outChannels a) output in
  if buffer_ready a then
    let a := for_loop (outChannels a) shift_lane a in
    (a, emit_frames a output)
  else (a, output).

(** *** nChannelProcess *)

(** The processing cycle run when lane 0 of the output is drained. *)
Definition processing_cycle (st : Audio * Filter) : Audio * Filter :=
  let '(a, main) := resampleInput st in
  let main := process_audio main in
  let a := set_engine_runs (Datatypes.S (engine_runs a)) a in
  (populateAndResampleOutputBuffer main a, main).

(** The two switches on the host's channel counts. *)
Definition select_channels (a : Audio) : Audio :=
  let a := set_inChannels (select_inChannels (inputChannels a)) a in
  set_outChannels (select_outChannels (outputChannels a)) a.

Definition nChannelProcess (input : Input) (st : Audio * Filter * Output)
  : Audio * Filter * Output :=
  let '(a, main, output) := st in
  let a := select_channels a in
  let a := populateInputBuffer input a in
  let '(a, main) :=
    if buffer_empty (row (nOutputBuffer a) 0) then processing_cycle (a, main)
    else (a, main) in
  let '(a, output) :=
    if negb (buffer_empty (row (nOutputBuffer a) 0)) then processOutputBuffer (a, output)
    else (a, output) in
  (a, main, output).
End Pipeline.

(** ** Well-formed states and derived notions used in the statements *)

(** The per-channel arrays of [Filter] have [NUM_CHANNELS] entries and hold
    [uint8_t] values; each history buffer holds [NUM_SCALES * NUM_FILTS]
    state vectors of 3 floats. *)
Definition is_u8 (z : Z) : Prop := (0 <= z < 256)%Z.

Definition wf_channels `{Dims} (s : FilterSt) : Prop :=
  length (scale_bank s) = NUM_CHANNELS /\
  length (old_scale_bank s) = NUM_CHANNELS /\
  length (scale s) = NUM_CHANNELS /\
  length (note s) = NUM_CHANNELS /\
  length (buf s) = NUM_CHANNELS /\
  length (buf_a s) = NUM_CHANNELS /\
  Forall is_u8 (scale_bank s) /\
  Forall is_u8 (scale s) /\
  Forall is_u8 (note s) /\
  Forall (fun h => length h = (NUM_SCALES * NUM_FILTS * 3)%nat) (buf s) /\
  Forall (fun h => length h = (NUM_SCALES * NUM_FILTS * 3)%nat) (buf_a s).

(** The same conditions as a test that can be evaluated. *)
Definition wf_channelsb `{Dims} (s : FilterSt) : bool :=
  (length (scale_bank s) =? NUM_CHANNELS)%nat &&
  (length (old_scale_bank s) =? NUM_CHANNELS)%nat &&
  (length (scale s) =? NUM_CHANNELS)%nat &&
  (length (note s) =? NUM_CHANNELS)%nat &&
  (length (buf s) =? NUM_CHANNELS)%nat &&
  (length (buf_a s) =? NUM_CHANNELS)%nat &&
  forallb (fun z => (0 <=? z)%Z && (z <? 256)%Z) (scale_bank s) &&
  forallb (fun z => (0 <=? z)%Z && (z <? 256)%Z) (scale s) &&
  forallb (fun z => (0 <=? z)%Z && (z <? 256)%Z) (note s) &&
  forallb (fun h => (length h =? NUM_SCALES * NUM_FILTS * 3)%nat) (buf s) &&
  forallb (fun h => (length h =? NUM_SCALES * NUM_FILTS * 3)%nat) (buf_a s).

(** The condition under which [process_scale_bank] resets channel [i],
    read on the state it is entered with: the (clamped) bank differs from
    the bank resolved last, or the filter type changed, or the user scale
    was updated. *)
Definition reset_due `{Dims} (m : Filter) (i : nat) : bool :=
  negb (clamp_scale_bank (getZ (scale_bank (fs m)) i) =? getZ (old_scale_bank (fs m)) i)%Z
  || filter_type_changed (fs m) || USER_SCALE_CHANGED (io m).


(** The loop over the channels, described channel by channel from the state
    the function is entered with. *)
Definition channel_loop_inv `{Dims} (usc : bool) (s : FilterSt) (n : nat) (s' : FilterSt) : Prop :=
  (note s' = note s /\ buf_a s' = buf_a s /\
   filter_type s' = filter_type s /\ new_filter_type s' = new_filter_type s /\
   filter_type_changed s' = filter_type_changed s /\ filter_mode s' = filter_mode s) /\
  (length (scale_bank s') = length (scale_bank s) /\
   length (old_scale_bank s') = length (old_scale_bank s) /\
   length (scale s') = length (scale s) /\
   length (buf s') = length (buf s)) /\
  (forall k, (n <= k)%nat ->
     scale_bank s' !! k = scale_bank s !! k /\
     old_scale_bank s' !! k = old_scale_bank s !! k /\
     scale s' !! k = scale s !! k /\
     buf s' !! k = buf s !! k) /\
  (forall k, (k < n)%nat ->
     scale_bank s' !! k = Some (clamp_scale_bank (getZ (scale_bank s) k)) /\
     scale s' !! k = Some (clamp_scale (getZ (scale s) k)) /\
     buf s' !! k =
       Some (if negb (clamp_scale_bank (getZ (scale_bank s) k) =? getZ (old_scale_bank s) k)%Z
                || filter_type_changed s || usc
             then clear_history (row (buf s) k) else row (buf s) k)).

(** *** Concrete states used to run the model *)

Definition idle_io : IO := {|
  CHANGED_BANK := false; NEW_BANK := 0; LOCK_ON := replicate 6 false;
  USER_SCALE_CHANGED := false; USER_SCALE := []; FREQSCALE := 1%Q;
  GLIDE_SWITCH := false; INPUT_CLIP := false;
  io_in := []; io_out := []; channelLevel := replicate 6 0%Q |}.

(** A filter at rest in two-pass mode whose history cells all hold [h]. *)
Definition resting_filter `{Dims} (h : Q) : Filter := {|
  fs := {| note := replicate 6 0%Z; scale := replicate 6 0%Z;
           scale_bank := replicate 6 0%Z; old_scale_bank := replicate 6 0%Z;
           filter_type := MAXQ; new_filter_type := MAXQ;
           filter_type_changed := false; filter_mode := TWOPASS;
           user_scale_bank := replicate NUM_BANKNOTES 0%Q;
           c_hiq := replicate 6 (PresetMaxq 0); c_loq := replicate 6 NullPtr;
           bpretuning := replicate 6 NullPtr;
           buf := replicate 6 (replicate (NUM_SCALES * NUM_FILTS * 3) h);
           buf_a := replicate 6 (replicate (NUM_SCALES * NUM_FILTS * 3) h);
           filter_out := replicate 12 (replicate NUM_SAMPLES 0%Q);
           qc := replicate 6 0%Q; qval_a := replicate 6 0%Q; qval_b := replicate 6 0%Q |};
  io := {| CHANGED_BANK := false; NEW_BANK := 0; LOCK_ON := replicate 6 false;
           USER_SCALE_CHANGED := false; USER_SCALE := replicate NUM_BANKNOTES 0%Q;
           FREQSCALE := 1%Q; GLIDE_SWITCH := false; INPUT_CLIP := false;
           io_in := replicate 6 (replicate NUM_SAMPLES 0%Z);
           io_out := replicate 6 (replicate NUM_SAMPLES 0%Q);
           channelLevel := replicate 6 0%Q |};
  q := {| qval := replicate 6 2048%Z |};
  tuning := {| freq_nudge := replicate 6 1%Q; freq_shift := replicate 6 1%Q |};
  rotation := {| motion_morphpos := replicate 6 0%Q;
                 motion_fadeto_note := replicate 6 0%Z;
                 motion_fadeto_scale := replicate 6 0%Z |};
  envelope := {| envout_preload_voct := replicate 6 0%Q;
                 envout_preload := replicate 6 0%Q |};
  levels := {| channel_level := replicate 6 1%Q |} |}.

(** The bank of every unlocked channel was switched from 0 to 1 while the
    history cells hold 1. *)
Definition after_bank_switch : Filter :=
  @process_bank_change
    (with_io (fun o =>
       {| CHANGED_BANK := true; NEW_BANK := 1; LOCK_ON := LOCK_ON o;
          USER_SCALE_CHANGED := USER_SCALE_CHANGED o; USER_SCALE := USER_SCALE o;
          FREQSCALE := FREQSCALE o; GLIDE_SWITCH := GLIDE_SWITCH o;
          INPUT_CLIP := INPUT_CLIP o; io_in := io_in o; io_out := io_out o;
          channelLevel := channelLevel o |}) (@resting_filter rainbow_dims 1%Q)).


(** *** What the filter algorithms read but never write *)

Definition io_but_clip (o : IO) : IO := io_set_INPUT_CLIP false o.

Definition fs_config (s : FilterSt) :=
  (note s, scale s, scale_bank s, old_scale_bank s,
   (filter_type s, new_filter_type s, filter_type_changed s, filter_mode s),
   user_scale_bank s, (c_hiq s, c_loq s, bpretuning s)).

Definition filter_inputs (m : Filter) :=
  (fs_config (fs m), io_but_clip (io m), q m, tuning m, rotation m, levels m,
   envout_preload (envelope m)).

Definition type_state (s : FilterSt) :=
  (filter_type s, new_filter_type s, filter_type_changed s, filter_mode s).

(** [io->out] holds [NUM_CHANNELS] rows of [NUM_SAMPLES] floats. *)
Definition out_shape `{Dims} (o : list (list Q)) : Prop :=
  length o = NUM_CHANNELS /\
  forall j, (j < NUM_CHANNELS)%nat -> length (row o j) = NUM_SAMPLES.

(** The value the MORPHING loop stores for channel [j], sample [i]. *)
Definition finalized_sample (m : Filter) (j i : nat) : Q :=
  (f_blended_at m j i * getQ (channel_level (levels m)) j)%Q.

(** The state the filter algorithm of a block is run on. *)
Definition block_prepared `{Dims} `{Collaborators} (m : Filter) : Filter :=
  let m := process_scale_bank (apply_pending_type m) in
  with_q (q_update (io m)) m.

(** Collaborators that leave their objects as they are, and constant
    tables. *)
Definition still_collaborators : Collaborators :=
  {| q_update := fun _ qs => qs; update_morph := fun _ r => r |}.

Definition flat_tables : Tables := {|
  exp_4096 := fun _ => (1 # 100)%Q;
  log_4096 := fun _ => (1 # 2)%Q;
  twopass_calibration := fun _ => 43801543%Z;
  presets_c_maxq := fun _ => replicate 231 (1 # 10)%Q;
  presets_c_bpre_hi := fun _ => concat (replicate 231 [1%Q; 2%Q; (-1)%Q]);
  presets_c_bpre_lo := fun _ => concat (replicate 231 [1%Q; 2%Q; (-1)%Q])
|}.

(** *** Input overload *)







(** The same constants with another clip level. *)
Definition with_clip_level (L : Z) (D : Dims) : Dims := {|
  NUM_SCALES := @NUM_SCALES D; NUM_FILTS := @NUM_FILTS D;
  NUM_SCALENOTES := @NUM_SCALENOTES D; NUM_SCALEBANKS := @NUM_SCALEBANKS D;
  NUM_BANKNOTES := @NUM_BANKNOTES D; NUM_SAMPLES := @NUM_SAMPLES D;
  INPUT_LED_CLIP_LEVEL := L; CLIP_LEVEL := @CLIP_LEVEL D;
  MAX_12BIT := @MAX_12BIT D; MIN_12BIT := @MIN_12BIT D;
  CROSSFADE_MIN := @CROSSFADE_MIN D; CROSSFADE_MAX := @CROSSFADE_MAX D;
  CROSSFADE_WIDTH := @CROSSFADE_WIDTH D |}.

(** The state with the overload flag put down. *)
Definition unflagged (m : Filter) : Filter := with_io io_but_clip m.

(** Two states that differ at most in the overload flag. *)
Definition agree (m1 m2 : Filter) : Prop := unflagged m1 = unflagged m2.

(** Two state transformers that map agreeing states to agreeing states. *)
Definition sim (f1 f2 : Filter -> Filter) : Prop :=
  forall m1 m2, agree m1 m2 -> agree (f1 m1) (f2 m2).

(** *** A host to run the pipeline on *)

(** Noise sources that count their draws, a converter that passes frames
    through at equal rates, ring buffers of 256 frames. *)
Definition passthrough_host : Host := {|
  BrownNoise := nat; PinkNoise := nat; WhiteNoise := nat;
  brown_next := fun n => ((1 # 4)%Q, S n);
  pink_next := fun n => ((1 # 2)%Q, S n);
  white_next := fun n => ((3 # 4)%Q, S n);
  SrcState := unit;
  src_setRates := fun _ _ s => s;
  src_process := fun s frames max => (s, length (take max frames), take max frames);
  BUFFER_SIZE := 256
|}.

(** An engine entry point that leaves the block as it was read. *)
Definition idle_engine : Engine := {| process_audio := fun m => m |}.

(** The pipeline before the first host call, for [n] connected input
    channels and mono output. *)
Definition fresh_audio (n : Z) : @Audio passthrough_host :=
  @Build_Audio passthrough_host
    1 n 0 0 0 96000%Q
    0%nat 0%nat 0%nat
    (replicate 6 tt) (replicate 6 tt)
    (replicate 6 []) (replicate 6 [])
    (replicate 6 0%Q) (replicate 6 0%Q)
    (replicate 6 (replicate 2 0%Q)) (replicate 6 (replicate 2 0%Q))
    0.

(** An engine state whose input block holds the marker -7 everywhere. *)
Definition marked_main : Filter :=
  with_io (io_set_in (replicate 6 (replicate 2 (-7)%Z))) (@resting_filter tiny_dims 0%Q).

Definition fresh_output : Output := {| out_channels := 0; out_voltages := replicate 16 0%Q |}.

(** One host call with the given input voltages. *)
Definition first_call (n : Z) (volts : list Q) : @Audio passthrough_host * Filter * Output :=
  @nChannelProcess tiny_dims passthrough_host idle_engine
    {| in_voltages := volts |} (fresh_audio n, marked_main, fresh_output).




(** *** What the input side of the pipeline does not touch *)

Definition output_side `{Host} (a : Audio) :=
  (noiseSelected a, inputChannels a, outputChannels a, inChannels a, outChannels a,
   sampleRate a, nInputSrc a, nOutputSrc a, nOutputBuffer a, nOutputFrame a,
   nInputFrames a, nOutputFrames a, engine_runs a).

(** What popping output frames does not touch. *)
Definition input_side `{Host} (a : Audio) :=
  (noiseSelected a, inputChannels a, outputChannels a, inChannels a, outChannels a,
   sampleRate a, nInputSrc a, nOutputSrc a, nInputBuffer a, nInputFrame a,
   nInputFrames a, nOutputFrames a, engine_runs a, (brown a, pink a, white a)).

(** ** Notions used by the further properties *)

(** [for (j = 0; j < n; j++) l[j] = f(j)]. *)
Definition copy_loop (f : nat -> Q) (n : nat) (l : list Q) : list Q :=
  for_loop n (fun j l => <[j := f j]> l) l.

(** A bank-change event for bank [b] with the locks [locks]. *)
Definition bank_event (b : Z) (locks : list bool) (o : IO) : IO :=
  {| CHANGED_BANK := true; NEW_BANK := b; LOCK_ON := locks;
     USER_SCALE_CHANGED := USER_SCALE_CHANGED o; USER_SCALE := USER_SCALE o;
     FREQSCALE := FREQSCALE o; GLIDE_SWITCH := GLIDE_SWITCH o;
     INPUT_CLIP := INPUT_CLIP o; io_in := io_in o; io_out := io_out o;
     channelLevel := channelLevel o |}.

(** A user-scale update carrying the coefficients [coeffs]. *)
Definition user_scale_event (coeffs : list Q) (o : IO) : IO :=
  {| CHANGED_BANK := CHANGED_BANK o; NEW_BANK := NEW_BANK o; LOCK_ON := LOCK_ON o;
     USER_SCALE_CHANGED := true; USER_SCALE := coeffs;
     FREQSCALE := FREQSCALE o; GLIDE_SWITCH := GLIDE_SWITCH o;
     INPUT_CLIP := INPUT_CLIP o; io_in := io_in o; io_out := io_out o;
     channelLevel := channelLevel o |}.

(** The pending filter type is in step with the active one: with no change
    flagged, the type requested last is the active type. *)
Definition type_in_step (s : FilterSt) : Prop :=
  filter_type_changed s = false -> filter_type s = new_filter_type s.

(** A series of [change_filter_type] requests, oldest first. *)
Definition request_types (ts : list FilterTypes) (m : Filter) : Filter :=
  foldl (fun m t => change_filter_type t m) m ts.

(** Number of channels each working array of the filter has. *)
Definition array_lengths (m : Filter) :=
  (length (buf (fs m)), length (buf_a (fs m)), length (filter_out (fs m))).

(** The per-channel index arrays and the bank last resolved. *)
Definition bank_state (s : FilterSt) :=
  (scale_bank s, old_scale_bank s, scale s).

(** The per-channel arrays [process_scale_bank] works on have an entry for
    every channel. *)
Definition channels_present (s : FilterSt) : Prop :=
  length (scale_bank s) = NUM_CHANNELS /\
  length (old_scale_bank s) = NUM_CHANNELS /\
  length (scale s) = NUM_CHANNELS /\
  length (buf s) = NUM_CHANNELS.

(** The blend of sample 0 the level meter and the envelope input are
    computed from. *)
Definition level_blend (m : Filter) (j : nat) : Q :=
  let mp := getQ (motion_morphpos (rotation m)) j in
  ((get2Q (filter_out (fs m)) j 0 * (1 - mp))
   + (get2Q (filter_out (fs m)) (j + NUM_CHANNELS) 0 * mp))%Q.

(** ** Notions used by the properties of the pipeline *)

(** The rows of [main.io->in] that the store of lane [i] writes, for the
    three values of [inChannels]. *)
Definition lane_written (inCh i k : nat) : bool :=
  match inCh with
  | 2%nat => (k =? i)%nat || (k =? 2 + i)%nat || (k =? 4 + i)%nat
  | 3%nat => (k =? i)%nat || (k =? 1 + i)%nat
  | _ => (k =? i)%nat
  end.

(** Lane [i] of the input has frames to resample. *)
Definition lane_active `{Host} (a : Audio) (i : nat) : bool :=
  negb (buffer_empty (row (nInputBuffer a) i)).

(** The lane whose samples row [k] holds once the lanes below [n] were
    resampled in order: the last active lane that writes the row. *)
Fixpoint feeding_lane (inCh : nat) (active : nat -> bool) (n k : nat) : option nat :=
  match n with
  | O => None
  | Datatypes.S n' =>
      if active n' && lane_written inCh n' k then Some n'
      else feeding_lane inCh active n' k
  end.

(** No ring buffer of the pipeline holds more than [BUFFER_SIZE] frames. *)
Definition buffers_bounded `{Host} (a : Audio) : Prop :=
  forall k, (length (row (nInputBuffer a) k) <= BUFFER_SIZE)%nat /\
            (length (row (nOutputBuffer a) k) <= BUFFER_SIZE)%nat.

(** The sum [populateAndResampleOutputBuffer] builds in a cell that starts at
    [old], for sample [i] of the engine output. *)
Definition mixed_sample `{Dims} (main : Filter) (i : nat) (old : Q) : Q :=
  for_loop NUM_CHANNELS
    (fun chan acc => (acc + get2Q (io_out (io main)) chan i / MAX_12BIT)%Q) old.

(** The lane of [nOutputFrames] that receives sample [i] of channel [chan],
    and the value its cell takes when [x] arrives on top of [old]. *)
Definition output_lane (outputChannels : Z) (chan i : nat) : nat :=
  match outputChannels with
  | 1%Z => if Nat.odd i then 1%nat else 0%nat
  | 2%Z => chan
  | _ => 0%nat
  end.

Definition mix_cell (outputChannels : Z) (x old : Q) : Q :=
  match outputChannels with
  | 2%Z => x
  | _ => (old + x)%Q
  end.

(** ** Rainbow: bank and filter selection (Rainbow.cpp) *)

(** The value [Bpre] of the enumeration [FilterSetting] comes from a header
    that is not part of the translated sources. *)
Class Settings := { Bpre : Z }.

(** What the bank and filter handling of [Rainbow::process] reads and
    writes besides [CHANGED_BANK] and [NEW_BANK]: four members of the
    module, the two panel parameters, and the member [FILTER_SWITCH] of
    [main.io], which [Filter] does not read. *)
Record Panel := {
  currBank : Z;
  nextBank : Z;
  currFilter : Z;
  nextFilter : Z;
  BANK_PARAM : Q;
  FILTER_PARAM : Q;
  FILTER_SWITCH : Z
}.

Definition io_set_bank (changed : bool) (b : Z) (o : IO) : IO :=
  {| CHANGED_BANK := changed; NEW_BANK := b; LOCK_ON := LOCK_ON o;
     USER_SCALE_CHANGED := USER_SCALE_CHANGED o; USER_SCALE := USER_SCALE o;
     FREQSCALE := FREQSCALE o; GLIDE_SWITCH := GLIDE_SWITCH o;
     INPUT_CLIP := INPUT_CLIP o; io_in := io_in o; io_out := io_out o;
     channelLevel := channelLevel o |}.

Definition io_set_CHANGED_BANK (changed : bool) (o : IO) : IO :=
  io_set_bank changed (NEW_BANK o) o.

(** Reading the two parameters and handling a filter change. *)
Definition handle_filter_change `{Settings} (st : Panel * IO) : Panel * IO :=
  let '(p, o) := st in
  let nb := Qtrunc (BANK_PARAM p) in
  let nf := Qtrunc (FILTER_PARAM p) in
  if negb (nf =? currFilter p)%Z then
    if (nf =? Bpre)%Z && (currBank p =? 19)%Z then
      ({| currBank := 0; nextBank := 0; currFilter := nf; nextFilter := nf;
          BANK_PARAM := 0; FILTER_PARAM := FILTER_PARAM p;
          FILTER_SWITCH := FILTER_SWITCH p |},
       io_set_bank true 0 o)
    else
      ({| currBank := currBank p; nextBank := nb; currFilter := nf; nextFilter := nf;
          BANK_PARAM := BANK_PARAM p; FILTER_PARAM := FILTER_PARAM p;
          FILTER_SWITCH := FILTER_SWITCH p |}, o)
  else
    ({| currBank := currBank p; nextBank := nb; currFilter := currFilter p; nextFilter := nf;
        BANK_PARAM := BANK_PARAM p; FILTER_PARAM := FILTER_PARAM p;
        FILTER_SWITCH := FILTER_SWITCH p |}, o).

(** Handling the bank switch; [pressed] is what [changeBankTrigger.process]
    returns on this tick. *)
Definition handle_bank_switch `{Settings} (pressed : bool) (st : Panel * IO) : Panel * IO :=
  let '(p, o) := st in
  if pressed then
    if (FILTER_SWITCH p =? Bpre)%Z && (nextBank p =? 19)%Z then
      ({| currBank := currBank p; nextBank := nextBank p; currFilter := currFilter p;
          nextFilter := nextFilter p; BANK_PARAM := inject_Z (currBank p);
          FILTER_PARAM := FILTER_PARAM p; FILTER_SWITCH := FILTER_SWITCH p |},
       io_set_CHANGED_BANK false o)
    else
      ({| currBank := nextBank p; nextBank := nextBank p; currFilter := currFilter p;
          nextFilter := nextFilter p; BANK_PARAM := BANK_PARAM p;
          FILTER_PARAM := FILTER_PARAM p; FILTER_SWITCH := FILTER_SWITCH p |},
       io_set_bank true (nextBank p) o)
  else (p, io_set_CHANGED_BANK false o).

(** The bank and filter handling of one call of [Rainbow::process]. *)
Definition bank_filter_tick `{Settings} (pressed : bool) (st : Panel * IO) : Panel * IO :=
  let '(p, o) := handle_bank_switch pressed (handle_filter_change st) in
  ({| currBank := currBank p; nextBank := nextBank p; currFilter := currFilter p;
      nextFilter := nextFilter p; BANK_PARAM := BANK_PARAM p;
      FILTER_PARAM := FILTER_PARAM p; FILTER_SWITCH := Qtrunc (FILTER_PARAM p) |}, o).

(** The interpolated filter is not selected together with bank 19. *)
Definition last_bank_excluded `{Settings} (p : Panel) : Prop :=
  ~ (currFilter p = Bpre /\ currBank p = 19%Z).

(** The filter the handling saw last is the one written to [main.io]. *)
Definition filter_in_step (p : Panel) : Prop := FILTER_SWITCH p = currFilter p.

(** A panel at rest on bank [b] with filter setting [f]. *)
Definition panel_at (b f : Z) : Panel :=
  {| currBank := b; nextBank := b; currFilter := f; nextFilter := f;
     BANK_PARAM := inject_Z b; FILTER_PARAM := inject_Z f; FILTER_SWITCH := f |}.

(** The user turns the two knobs. *)
Definition turn_knobs (bank filter : Q) (p : Panel) : Panel :=
  {| currBank := currBank p; nextBank := nextBank p; currFilter := currFilter p;
     nextFilter := nextFilter p; BANK_PARAM := bank; FILTER_PARAM := filter;
     FILTER_SWITCH := FILTER_SWITCH p |}.

(** Settings to run the handling on: the interpolated filter is setting 2. *)
Definition panel_settings : Settings := {| Bpre := 2 |}.

(** ** Loops *)

Lemma for_loop_0 {S} (body : nat -> S -> S) (s : S) : for_loop 0 body s = s.
Proof. reflexivity. Qed.

Lemma for_loop_S {S} (n : nat) (body : nat -> S -> S) (s : S) :
  for_loop (Datatypes.S n) body s = body n (for_loop n body s).
Proof.
  unfold for_loop. rewrite seq_S, foldl_app. reflexivity.
Qed.

(** An invariant indexed by the number of completed iterations. *)
Lemma for_loop_ind {S} (P : nat -> S -> Prop) (body : nat -> S -> S) (s : S) (n : nat) :
  P 0%nat s ->
  (forall k acc, (k < n)%nat -> P k acc -> P (Datatypes.S k) (body k acc)) ->
  P n (for_loop n body s).
Proof.
  intros H0 Hstep. induction n as [|n IH].
  - exact H0.
  - rewrite for_loop_S. apply Hstep; [lia|]. apply IH.
    intros k acc Hk. apply Hstep. lia.
Qed.

(** From here on loops are reasoned about through [for_loop_S],
    [for_loop_ind] and [for_loop_frame] only. *)
Lemma for_loop_frame {S A} (P : S -> A) (n : nat) (body : nat -> S -> S) (s : S) :
  (forall k acc, P (body k acc) = P acc) -> P (for_loop n body s) = P s.
Proof.
  intros Hb. induction n as [|n IH]; [reflexivity|].
  rewrite for_loop_S, Hb. exact IH.
Qed.

Lemma for_loop_ext {S} (n : nat) (body1 body2 : nat -> S -> S) (s : S) :
  (forall k acc, body1 k acc = body2 k acc) -> for_loop n body1 s = for_loop n body2 s.
Proof.
  intros Hb. induction n as [|n IH]; [reflexivity|].
  rewrite !for_loop_S, IH. apply Hb.
Qed.

Global Opaque for_loop.

(** ** The clearing loop *)

Section ClearHistory.
Context `{Dims}.

Lemma clear_step_length j ff : length (clear_step j ff) = length ff.
Proof. unfold clear_step. rewrite !length_insert. reflexivity. Qed.

Lemma clear_loop_length n ff : length (for_loop n clear_step ff) = length ff.
Proof.
  induction n as [|n IH]; [reflexivity|].
  rewrite for_loop_S, clear_step_length. exact IH.
Qed.

(** The floats the loop has stored to after [n] iterations are the offsets
    below [n + 2]. *)
Lemma clear_loop_zero n ff k :
  (1 <= n)%nat -> (k < n + 2)%nat -> (k < length ff)%nat ->
  for_loop n clear_step ff !! k = Some 0%Q.
Proof.
  induction n as [|n IH]; intros Hn Hk Hlen; [lia|].
  rewrite for_loop_S. unfold clear_step at 1.
  pose proof (clear_loop_length n ff) as Hl.
  destruct (decide (k = n + 2)%nat) as [->|N2].
  { apply list_lookup_insert_eq. rewrite !length_insert. lia. }
  rewrite list_lookup_insert_ne by lia.
  destruct (decide (k = n + 1)%nat) as [->|N1].
  { apply list_lookup_insert_eq. rewrite !length_insert. lia. }
  rewrite list_lookup_insert_ne by lia.
  destruct (decide (k = n)) as [->|N0].
  { apply list_lookup_insert_eq. lia. }
  rewrite list_lookup_insert_ne by lia.
  apply IH; lia.
Qed.

(** Everything from offset [n + 2] on is left as it was. *)
Lemma clear_loop_untouched n ff k :
  (n + 2 <= k)%nat -> for_loop n clear_step ff !! k = ff !! k.
Proof.
  induction n as [|n IH]; intros Hk; [reflexivity|].
  rewrite for_loop_S. unfold clear_step at 1.
  rewrite !list_lookup_insert_ne by lia. apply IH. lia.
Qed.

Lemma clear_history_length ff : length (clear_history ff) = length ff.
Proof. apply clear_loop_length. Qed.

Lemma clear_history_zero ff k :
  (1 <= NUM_SCALES * NUM_FILTS)%nat ->
  (k < NUM_SCALES * NUM_FILTS + 2)%nat -> (k < length ff)%nat ->
  clear_history ff !! k = Some 0%Q.
Proof. apply clear_loop_zero. Qed.

Lemma clear_history_untouched ff k :
  (NUM_SCALES * NUM_FILTS + 2 <= k)%nat -> clear_history ff !! k = ff !! k.
Proof. apply clear_loop_untouched. Qed.
End ClearHistory.

(** ** Two-dimensional arrays *)

Lemma Qltb_lt (x y : Q) : Qltb x y = true <-> (x < y)%Q.
Proof.
  unfold Qltb. rewrite negb_true_iff. split.
  - intros E. apply Qnot_le_lt. intros L. apply Qle_bool_iff in L. congruence.
  - intros L. destruct (Qle_bool y x) eqn:E; [|reflexivity].
    apply Qle_bool_iff in E. exfalso. exact (Qlt_not_le _ _ L E).
Qed.

Lemma Qltb_ge (x y : Q) : Qltb x y = false <-> (y <= x)%Q.
Proof.
  unfold Qltb. rewrite negb_false_iff. apply Qle_bool_iff.
Qed.

Lemma length_set2 {A} (m : list (list A)) i j x : length (set2 m i j x) = length m.
Proof. unfold set2. apply length_insert. Qed.

Lemma row_set2_eq {A} (m : list (list A)) i j x :
  (i < length m)%nat -> row (set2 m i j x) i = <[j := x]> (row m i).
Proof.
  intros Hi. unfold set2, row at 1. rewrite list_lookup_insert_eq by exact Hi. reflexivity.
Qed.

Lemma row_set2_ne {A} (m : list (list A)) i j x k :
  i <> k -> row (set2 m i j x) k = row m k.
Proof.
  intros Hk. unfold set2, row. rewrite list_lookup_insert_ne by exact Hk. reflexivity.
Qed.

Lemma length_row_set2 {A} (m : list (list A)) i j x k :
  length (row (set2 m i j x) k) = length (row m k).
Proof.
  destruct (decide (i = k)) as [->|Hne].
  - destruct (decide (k < length m)%nat) as [Hlt|Hge].
    + rewrite row_set2_eq by exact Hlt. apply length_insert.
    + unfold set2. rewrite list_insert_ge by lia. reflexivity.
  - rewrite row_set2_ne by exact Hne. reflexivity.
Qed.

Lemma get2Q_set2_eq (m : list (list Q)) i j x :
  (i < length m)%nat -> (j < length (row m i))%nat -> get2Q (set2 m i j x) i j = x.
Proof.
  intros Hi Hj. unfold get2Q. rewrite row_set2_eq by exact Hi.
  unfold getQ. rewrite list_lookup_insert_eq by exact Hj. reflexivity.
Qed.

Lemma get2Q_set2_ne (m : list (list Q)) i j x k l :
  (i <> k \/ j <> l) -> get2Q (set2 m i j x) k l = get2Q m k l.
Proof.
  intros Hne. unfold get2Q.
  destruct (decide (i = k)) as [->|Hik].
  - destruct (decide (k < length m)%nat) as [Hlt|Hge].
    + rewrite row_set2_eq by exact Hlt. unfold getQ.
      rewrite list_lookup_insert_ne; [reflexivity|]. destruct Hne; congruence.
    + unfold set2. rewrite list_insert_ge by lia. reflexivity.
  - rewrite row_set2_ne by exact Hik. reflexivity.
Qed.

Lemma get2Z_set2_eq (m : list (list Z)) i j x :
  (i < length m)%nat -> (j < length (row m i))%nat -> get2Z (set2 m i j x) i j = x.
Proof.
  intros Hi Hj. unfold get2Z. rewrite row_set2_eq by exact Hi.
  unfold getZ. rewrite list_lookup_insert_eq by exact Hj. reflexivity.
Qed.

Lemma get2Z_set2_ne (m : list (list Z)) i j x k l :
  (i <> k \/ j <> l) -> get2Z (set2 m i j x) k l = get2Z m k l.
Proof.
  intros Hne. unfold get2Z.
  destruct (decide (i = k)) as [->|Hik].
  - destruct (decide (k < length m)%nat) as [Hlt|Hge].
    + rewrite row_set2_eq by exact Hlt. unfold getZ.
      rewrite list_lookup_insert_ne; [reflexivity|]. destruct Hne; congruence.
    + unfold set2. rewrite list_insert_ge by lia. reflexivity.
  - rewrite row_set2_ne by exact Hik. reflexivity.
Qed.

Lemma pair_eq_inv {A B} (a c : A) (b d : B) : (a, b) = (c, d) -> a = c /\ b = d.
Proof. intros E. split; [exact (f_equal fst E)|exact (f_equal snd E)]. Qed.

(** Split an equation between tuples into its components. *)
Ltac tuple_inv E :=
  repeat match goal with
  | H : (_, _) = (_, _) |- _ => apply pair_eq_inv in H; destruct H
  end.

(** ** Conversion of an integer to float *)

Section FloatConversion.
Local Open Scope Z_scope.









End FloatConversion.

(** ** process_scale_bank: what one channel's pass changes *)

Section ScaleBank.
Context `{Dims}.

Lemma resolve_coefs_frame i s :
  scale_bank (resolve_coefs i s) = scale_bank s /\
  old_scale_bank (resolve_coefs i s) = old_scale_bank s /\
  scale (resolve_coefs i s) = scale s /\
  note (resolve_coefs i s) = note s /\
  buf (resolve_coefs i s) = buf s /\
  buf_a (resolve_coefs i s) = buf_a s /\
  filter_type (resolve_coefs i s) = filter_type s /\
  new_filter_type (resolve_coefs i s) = new_filter_type s /\
  filter_type_changed (resolve_coefs i s) = filter_type_changed s /\
  filter_mode (resolve_coefs i s) = filter_mode s.
Proof.
  unfold resolve_coefs.
  destruct (FilterTypes_eqb (filter_type s) MAXQ);
    [destruct (_ =? _)%Z|destruct (_ && _)]; cbn; repeat split; reflexivity.
Qed.

(** Fields a channel pass never writes. *)
Lemma scale_bank_channel_globals usc i s :
  let s' := scale_bank_channel usc i s in
  note s' = note s /\ buf_a s' = buf_a s /\
  filter_type s' = filter_type s /\ new_filter_type s' = new_filter_type s /\
  filter_type_changed s' = filter_type_changed s /\ filter_mode s' = filter_mode s.
Proof.
  cbv zeta. unfold scale_bank_channel.
  destruct (needs_reset _ _ _).
  - match goal with |- context [resolve_coefs i ?t] =>
      destruct (resolve_coefs_frame i t) as (_ & _ & _ & Hn & _ & Ha & Ht & Hnt & Hc & Hm) end.
    rewrite Hn, Ha, Ht, Hnt, Hc, Hm. cbn. repeat split; reflexivity.
  - cbn. repeat split; reflexivity.
Qed.

(** Entries of the other channels are left alone. *)
Lemma scale_bank_channel_others usc i s k :
  k <> i ->
  let s' := scale_bank_channel usc i s in
  scale_bank s' !! k = scale_bank s !! k /\
  old_scale_bank s' !! k = old_scale_bank s !! k /\
  scale s' !! k = scale s !! k /\
  buf s' !! k = buf s !! k.
Proof.
  intros Hk. cbv zeta. unfold scale_bank_channel.
  destruct (needs_reset _ _ _).
  - match goal with |- context [resolve_coefs i ?t] =>
      destruct (resolve_coefs_frame i t) as (Hsb & Ho & Hs & _ & Hb & _) end.
    rewrite Hsb, Ho, Hs, Hb. cbn.
    rewrite !list_lookup_insert_ne by congruence. repeat split; reflexivity.
  - cbn. rewrite !list_lookup_insert_ne by congruence. repeat split; reflexivity.
Qed.

Lemma scale_bank_channel_lengths usc i s :
  let s' := scale_bank_channel usc i s in
  length (scale_bank s') = length (scale_bank s) /\
  length (old_scale_bank s') = length (old_scale_bank s) /\
  length (scale s') = length (scale s) /\
  length (buf s') = length (buf s).
Proof.
  cbv zeta. unfold scale_bank_channel.
  destruct (needs_reset _ _ _).
  - match goal with |- context [resolve_coefs i ?t] =>
      destruct (resolve_coefs_frame i t) as (Hsb & Ho & Hs & _ & Hb & _) end.
    rewrite Hsb, Ho, Hs, Hb. cbn. rewrite !length_insert. repeat split; reflexivity.
  - cbn. rewrite !length_insert. repeat split; reflexivity.
Qed.

(** The pass of channel [i] itself. *)
Lemma scale_bank_channel_own usc i s :
  (i < length (scale_bank s))%nat -> (i < length (scale s))%nat ->
  (i < length (buf s))%nat ->
  let s' := scale_bank_channel usc i s in
  let due := negb (clamp_scale_bank (getZ (scale_bank s) i) =? getZ (old_scale_bank s) i)%Z
             || filter_type_changed s || usc in
  scale_bank s' !! i = Some (clamp_scale_bank (getZ (scale_bank s) i)) /\
  scale s' !! i = Some (clamp_scale (getZ (scale s) i)) /\
  buf s' !! i = Some (if due then clear_history (row (buf s) i) else row (buf s) i).
Proof.
  intros Hsb Hs Hb. cbv zeta. unfold scale_bank_channel, needs_reset. cbn.
  assert (Hget : getZ (<[i:=clamp_scale_bank (getZ (scale_bank s) i)]> (scale_bank s)) i
                 = clamp_scale_bank (getZ (scale_bank s) i)).
  { unfold getZ at 1. rewrite list_lookup_insert_eq by exact Hsb. reflexivity. }
  rewrite Hget.
  destruct (negb _ || filter_type_changed s || usc).
  - match goal with |- context [resolve_coefs i ?t] =>
      destruct (resolve_coefs_frame i t) as (Esb & _ & Es & _ & Eb & _) end.
    rewrite Esb, Es, Eb. cbn.
    rewrite !list_lookup_insert_eq by assumption. repeat split; reflexivity.
  - cbn. rewrite !list_lookup_insert_eq by assumption. repeat split.
    unfold row. destruct (buf s !! i) eqn:E; [reflexivity|].
    apply lookup_ge_None in E. lia.
Qed.

Lemma channel_loop_spec usc s n :
  (n <= length (scale_bank s))%nat -> (n <= length (scale s))%nat ->
  (n <= length (buf s))%nat ->
  channel_loop_inv usc s n (for_loop n (scale_bank_channel usc) s).
Proof.
  intros Lsb Ls Lb.
  apply (for_loop_ind (channel_loop_inv usc s)).
  - unfold channel_loop_inv. repeat split; intros; lia.
  - intros k acc Hk (G & L & Hi & Lo).
    destruct G as (G1 & G2 & G3 & G4 & G5 & G6).
    destruct L as (L1 & L2 & L3 & L4).
    destruct (scale_bank_channel_globals usc k acc) as (A1 & A2 & A3 & A4 & A5 & A6).
    destruct (scale_bank_channel_lengths usc k acc) as (B1 & B2 & B3 & B4).
    unfold channel_loop_inv. split; [|split; [|split]].
    + repeat split; congruence.
    + repeat split; congruence.
    + intros j Hj.
      destruct (scale_bank_channel_others usc k acc j ltac:(lia)) as (C1 & C2 & C3 & C4).
      destruct (Hi j ltac:(lia)) as (D1 & D2 & D3 & D4).
      repeat split; congruence.
    + intros j Hj. destruct (decide (j = k)) as [->|Hne].
      * destruct (scale_bank_channel_own usc k acc) as (E1 & E2 & E3); [lia..|].
        destruct (Hi k ltac:(lia)) as (D1 & D2 & D3 & D4).
        rewrite E1, E2, E3. unfold getZ, row. rewrite D1, D2, D3, D4, G5.
        repeat split; reflexivity.
      * destruct (scale_bank_channel_others usc k acc j Hne) as (C1 & C2 & C3 & C4).
        destruct (Lo j ltac:(lia)) as (D1 & D2 & D3).
        repeat split; congruence.
Qed.
End ScaleBank.

(** ** History reset and index clamping at the start of a block *)

Section ScaleBankClaims.
Context `{Dims}.

Lemma wf_channels_lengths (s : FilterSt) :
  wf_channels s ->
  (NUM_CHANNELS <= length (scale_bank s))%nat /\
  (NUM_CHANNELS <= length (scale s))%nat /\
  (NUM_CHANNELS <= length (buf s))%nat.
Proof. intros (A & _ & B & _ & C & _). lia. Qed.

Lemma process_scale_bank_spec (m : Filter) :
  wf_channels (fs m) ->
  channel_loop_inv (USER_SCALE_CHANGED (io m)) (fs m) NUM_CHANNELS (fs (process_scale_bank m)).
Proof.
  intros W. destruct (wf_channels_lengths _ W) as (A & B & C).
  exact (channel_loop_spec _ _ _ A B C).
Qed.

Lemma wf_row_length (s : FilterSt) (i : nat) :
  wf_channels s -> (i < NUM_CHANNELS)%nat ->
  length (row (buf s) i) = (NUM_SCALES * NUM_FILTS * 3)%nat.
Proof.
  intros (_ & _ & _ & _ & Lb & _ & _ & _ & _ & Fb & _) Hi.
  unfold row. destruct (buf s !! i) as [h|] eqn:E.
  - cbn. exact (proj1 (Forall_lookup _ _) Fb i h E).
  - apply lookup_ge_None in E. lia.
Qed.


End ScaleBankClaims.

Lemma wf_channelsb_correct `{Dims} (s : FilterSt) :
  wf_channelsb s = true -> wf_channels s.
Proof.
  unfold wf_channelsb, wf_channels. rewrite !andb_true_iff, !Nat.eqb_eq.
  rewrite !forallb_forall, !Forall_forall.
  intros ((((((((((A & B) & C) & D) & E) & F) & G) & I) & J) & K) & L).
  do 6 (split; [assumption|]).
  split; [|split; [|split; [|split]]].
  - intros z Hz. apply list_elem_of_In, G in Hz. unfold is_u8. lia.
  - intros z Hz. apply list_elem_of_In, I in Hz. unfold is_u8. lia.
  - intros z Hz. apply list_elem_of_In, J in Hz. unfold is_u8. lia.
  - intros h Hh. apply list_elem_of_In, K in Hh. apply Nat.eqb_eq. exact Hh.
  - intros h Hh. apply list_elem_of_In, L in Hh. apply Nat.eqb_eq. exact Hh.
Qed.





(** ** Two-pass crossfade *)

Section Crossfade.
Context `{Dims}.
Local Open Scope Q_scope.

Lemma crossfade_below (qcv : Q) :
  qcv < CROSSFADE_MIN -> crossfade_ratio_a qcv = 1.
Proof.
  intros Hlt. unfold crossfade_ratio_a.
  rewrite (proj2 (Qltb_lt _ _) Hlt). reflexivity.
Qed.

Lemma crossfade_above (qcv : Q) :
  CROSSFADE_MIN <= qcv -> CROSSFADE_MAX < qcv -> crossfade_ratio_a qcv = 0.
Proof.
  intros Hge Hgt. unfold crossfade_ratio_a, Qgtb.
  rewrite (proj2 (Qltb_ge _ _) Hge), (proj2 (Qltb_lt _ _) Hgt). reflexivity.
Qed.

Lemma crossfade_ramp (qcv : Q) :
  CROSSFADE_MIN <= qcv -> qcv <= CROSSFADE_MAX ->
  crossfade_ratio_a qcv = 1 - (qcv - CROSSFADE_MIN) / CROSSFADE_WIDTH.
Proof.
  intros Hge Hle. unfold crossfade_ratio_a, Qgtb.
  rewrite (proj2 (Qltb_ge _ _) Hge), (proj2 (Qltb_ge _ _) Hle). reflexivity.
Qed.

Lemma ramp_decreasing (x y : Q) :
  0 < CROSSFADE_WIDTH -> x < y ->
  1 - (y - CROSSFADE_MIN) / CROSSFADE_WIDTH < 1 - (x - CROSSFADE_MIN) / CROSSFADE_WIDTH.
Proof.
  intros Hw Hxy.
  assert (Hinv : 0 < / CROSSFADE_WIDTH) by (apply Qinv_lt_0_compat; exact Hw).
  unfold Qdiv.
  assert (Hm : (x - CROSSFADE_MIN) * / CROSSFADE_WIDTH < (y - CROSSFADE_MIN) * / CROSSFADE_WIDTH).
  { apply Qmult_lt_compat_r; [exact Hinv|]. lra. }
  lra.
Qed.

(** C3.  With the crossfade region [CROSSFADE_MIN, CROSSFADE_MAX] of
    positive width [CROSSFADE_WIDTH], for every raw Q value [qc]:
    [ratio_a] is 1 at or below [CROSSFADE_MIN], 0 at or above
    [CROSSFADE_MAX], and in between it is the ramp
    [1 - (qc - CROSSFADE_MIN) / CROSSFADE_WIDTH], strictly decreasing in
    [qc]. *)
Theorem C3_crossfade_ratio (qc1 qc2 : Z) :
  0 < CROSSFADE_WIDTH ->
  CROSSFADE_MAX - CROSSFADE_MIN == CROSSFADE_WIDTH ->
  let r := fun z => crossfade_ratio_a (inject_Z z) in
  (inject_Z qc1 <= CROSSFADE_MIN -> r qc1 == 1) /\
  (CROSSFADE_MAX <= inject_Z qc1 -> r qc1 == 0) /\
  (CROSSFADE_MIN < inject_Z qc1 -> inject_Z qc1 < CROSSFADE_MAX ->
     r qc1 == 1 - (inject_Z qc1 - CROSSFADE_MIN) / CROSSFADE_WIDTH) /\
  (CROSSFADE_MIN < inject_Z qc1 -> (qc1 < qc2)%Z -> inject_Z qc2 < CROSSFADE_MAX ->
     r qc2 < r qc1).
Proof.
  intros Hw Hspan r. subst r. cbv beta.
  assert (Hmm : CROSSFADE_MIN < CROSSFADE_MAX) by lra.
  assert (Hne : ~ CROSSFADE_WIDTH == 0) by lra.
  repeat split.
  - intros Hle. destruct (Qlt_le_dec (inject_Z qc1) CROSSFADE_MIN) as [Hlt|Hge].
    + rewrite crossfade_below by exact Hlt. reflexivity.
    + rewrite crossfade_ramp by lra.
      assert (E : inject_Z qc1 == CROSSFADE_MIN) by lra.
      rewrite E. field. exact Hne.
  - intros Hge. destruct (Qlt_le_dec CROSSFADE_MAX (inject_Z qc1)) as [Hgt|Hle].
    + rewrite crossfade_above by lra. reflexivity.
    + rewrite crossfade_ramp by lra.
      assert (E : inject_Z qc1 == CROSSFADE_MAX) by lra.
      rewrite E, <- Hspan. field. lra.
  - intros Hlo Hhi. rewrite crossfade_ramp by lra. reflexivity.
  - intros Hlo Hlt Hhi.
    assert (Hq : inject_Z qc1 < inject_Z qc2) by (rewrite <- Zlt_Qlt; exact Hlt).
    rewrite !crossfade_ramp by lra.
    apply ramp_decreasing; assumption.
Qed.
End Crossfade.

Lemma C3_crossfade_ratio_witness :
  let r := fun z => @crossfade_ratio_a rainbow_dims (inject_Z z) in
  (r 1000%Z == 1)%Q /\ (r 4000%Z == 0)%Q /\
  (r 2000%Z == 1 - (inject_Z 2000 - 1830) / 1800)%Q /\
  (r 3000%Z < r 2000%Z)%Q.
Proof.
  cbv zeta.
  destruct (@C3_crossfade_ratio rainbow_dims 1000 1000 eq_refl (Qeq_refl _))
    as (Wlow & _).
  destruct (@C3_crossfade_ratio rainbow_dims 4000 4000 eq_refl (Qeq_refl _))
    as (_ & Whigh & _).
  destruct (@C3_crossfade_ratio rainbow_dims 2000 3000 eq_refl (Qeq_refl _))
    as (_ & _ & Wramp & Wdec).
  split; [apply Wlow; discriminate|].
  split; [apply Whigh; discriminate|].
  split; [apply Wramp; reflexivity|].
  apply Wdec; reflexivity.
Defined.

(** ** The ceiling on the frequency coefficient *)

Section FrequencyCeiling.
Context `{Dims} `{Tables}.
Local Open Scope Q_scope.


End FrequencyCeiling.

(** ** The filter algorithms leave their inputs alone *)

Lemma io_but_clip_inv (o o' : IO) :
  io_but_clip o' = io_but_clip o ->
  io_in o' = io_in o /\ io_out o' = io_out o /\
  FREQSCALE o' = FREQSCALE o /\ GLIDE_SWITCH o' = GLIDE_SWITCH o /\
  USER_SCALE_CHANGED o' = USER_SCALE_CHANGED o.
Proof.
  intros E.
  split; [exact (f_equal io_in E)|].
  split; [exact (f_equal io_out E)|].
  split; [exact (f_equal FREQSCALE E)|].
  split; [exact (f_equal GLIDE_SWITCH E)|exact (f_equal USER_SCALE_CHANGED E)].
Qed.

Lemma filter_inputs_inv (m m' : Filter) :
  filter_inputs m' = filter_inputs m ->
  fs_config (fs m') = fs_config (fs m) /\
  io_but_clip (io m') = io_but_clip (io m) /\
  q m' = q m /\ tuning m' = tuning m /\ rotation m' = rotation m /\
  levels m' = levels m /\
  envout_preload (envelope m') = envout_preload (envelope m).
Proof.
  unfold filter_inputs. intros E. tuple_inv E. repeat split; assumption.
Qed.

Lemma inputs_type_state (m m' : Filter) :
  filter_inputs m' = filter_inputs m -> type_state (fs m') = type_state (fs m).
Proof.
  intros E. destruct (filter_inputs_inv _ _ E) as (C & _).
  unfold fs_config in C. tuple_inv C. unfold type_state. congruence.
Qed.

Lemma inputs_io_out (m m' : Filter) :
  filter_inputs m' = filter_inputs m ->
  io_out (io m') = io_out (io m) /\ io_in (io m') = io_in (io m).
Proof.
  intros E. destruct (filter_inputs_inv _ _ E) as (_ & Eio & _).
  destruct (io_but_clip_inv _ _ Eio) as (A & B & _). split; assumption.
Qed.


Lemma inputs_rotation (m m' : Filter) :
  filter_inputs m' = filter_inputs m -> rotation m' = rotation m.
Proof. intros E. destruct (filter_inputs_inv _ _ E) as (_ & _ & _ & _ & Er & _). exact Er. Qed.

Section FilterFrames.
Context `{Dims} `{Tables}.

Lemma flag_clip_inputs x m : filter_inputs (flag_clip x m) = filter_inputs m.
Proof. unfold flag_clip. destruct (_ <=? _)%Z; reflexivity. Qed.

Lemma flag_clip_fs x m : fs (flag_clip x m) = fs m.
Proof. unfold flag_clip. destruct (_ <=? _)%Z; reflexivity. Qed.

Lemma flag_clip_float_inputs x m : filter_inputs (flag_clip_float x m) = filter_inputs m.
Proof. unfold flag_clip_float. destruct (_ <=? _)%Z; reflexivity. Qed.

Lemma flag_clip_float_fs x m : fs (flag_clip_float x m) = fs m.
Proof. unfold flag_clip_float. destruct (_ <=? _)%Z; reflexivity. Qed.

Lemma twopass_sample_inputs check ch o j c0_a c0 c1 c2_a c2 ratio_a i m :
  filter_inputs (twopass_sample check ch o j c0_a c0 c1 c2_a c2 ratio_a i m)
  = filter_inputs m.
Proof.
  unfold twopass_sample.
  set (m1 := if check then _ else m).
  assert (E : filter_inputs m1 = filter_inputs m).
  { subst m1. destruct check; [apply flag_clip_inputs|reflexivity]. }
  rewrite <- E. unfold filter_inputs, fs_config, with_fs. cbn [fs io q tuning rotation levels envelope].
  destruct (section_step (buf_a (fs m1)) _ _ _ _ _ _) as [ba fa].
  destruct (section_step (buf (fs m1)) _ _ _ _ _ _) as [b fb].
  reflexivity.
Qed.

Lemma onepass_sample_inputs ch o j c0 c1 c2 i m :
  filter_inputs (onepass_sample ch o j c0 c1 c2 i m) = filter_inputs m.
Proof.
  unfold onepass_sample. rewrite <- (flag_clip_float_inputs (get2Z (io_in (io m)) ch i) m).
  reflexivity.
Qed.

Lemma bpre_sample_inputs ch o j c0 c1 c2 i m :
  filter_inputs (bpre_sample ch o j c0 c1 c2 i m) = filter_inputs m.
Proof.
  unfold bpre_sample. rewrite <- (flag_clip_inputs (get2Z (io_in (io m)) ch i) m).
  reflexivity.
Qed.

Lemma set_voct_inputs ch v m : filter_inputs (set_voct ch v m) = filter_inputs m.
Proof. reflexivity. Qed.

Lemma glide_voct_inputs ch v m : filter_inputs (glide_voct ch v m) = filter_inputs m.
Proof. unfold glide_voct. destruct (GLIDE_SWITCH (io m)); reflexivity. Qed.

Lemma twopass_channel_inputs ch m :
  filter_inputs (twopass_channel ch m) = filter_inputs m.
Proof.
  unfold twopass_channel. cbv zeta.
  match goal with |- context [if ?c then _ else _] => destruct c end.
  - rewrite glide_voct_inputs.
    rewrite for_loop_frame by (intros; apply twopass_sample_inputs).
    rewrite set_voct_inputs.
    rewrite for_loop_frame by (intros; apply twopass_sample_inputs).
    reflexivity.
  - rewrite set_voct_inputs.
    rewrite for_loop_frame by (intros; apply twopass_sample_inputs).
    reflexivity.
Qed.

Lemma onepass_slot_inputs j m : filter_inputs (onepass_slot j m) = filter_inputs m.
Proof.
  unfold onepass_slot. cbv zeta.
  destruct (slot_active j m); [|reflexivity].
  destruct (NUM_CHANNELS <=? j)%nat; [rewrite glide_voct_inputs|];
    (rewrite for_loop_frame by (intros; apply onepass_sample_inputs));
    destruct (j <? NUM_CHANNELS)%nat; reflexivity.
Qed.

Lemma bpre_slot_inputs j m : filter_inputs (bpre_slot j m) = filter_inputs m.
Proof.
  unfold bpre_slot. cbv zeta.
  destruct (slot_active j m); [|reflexivity].
  destruct (NUM_CHANNELS <=? j)%nat; [rewrite glide_voct_inputs|];
    (rewrite for_loop_frame by (intros; apply bpre_sample_inputs));
    destruct (j <? NUM_CHANNELS)%nat; reflexivity.
Qed.

Lemma filter_twopass_inputs m : filter_inputs (filter_twopass m) = filter_inputs m.
Proof.
  unfold filter_twopass. cbv zeta.
  rewrite for_loop_frame by (intros; apply twopass_channel_inputs). reflexivity.
Qed.

Lemma filter_onepass_inputs m : filter_inputs (filter_onepass m) = filter_inputs m.
Proof.
  unfold filter_onepass. cbv zeta.
  rewrite for_loop_frame by (intros; apply onepass_slot_inputs). reflexivity.
Qed.

Lemma filter_bpre_inputs m : filter_inputs (filter_bpre m) = filter_inputs m.
Proof.
  unfold filter_bpre. cbv zeta.
  rewrite for_loop_frame by (intros; apply bpre_slot_inputs). reflexivity.
Qed.
End FilterFrames.

(** ** One filter type per block *)

Section BlockClaims.
Context `{Dims} `{Tables} `{Collaborators}.
Local Open Scope Q_scope.

Lemma process_scale_bank_type_state (m : Filter) :
  type_state (fs (process_scale_bank m)) = type_state (fs m).
Proof.
  unfold process_scale_bank. cbn [fs with_fs].
  apply (for_loop_frame type_state). intros k acc.
  destruct (scale_bank_channel_globals (USER_SCALE_CHANGED (io m)) k acc)
    as (_ & _ & A & B & C & D).
  unfold type_state. rewrite A, B, C, D. reflexivity.
Qed.

Lemma run_algorithm_inputs (a : Algorithm) (m : Filter) :
  filter_inputs (run_algorithm a m) = filter_inputs m.
Proof.
  destruct a; [apply filter_twopass_inputs|apply filter_onepass_inputs|apply filter_bpre_inputs].
Qed.

Lemma morph_cell_frame i j m :
  fs (morph_cell i j m) = fs m /\ rotation (morph_cell i j m) = rotation m /\
  levels (morph_cell i j m) = levels m /\
  INPUT_CLIP (io (morph_cell i j m)) = INPUT_CLIP (io m).
Proof. repeat split; reflexivity. Qed.

Lemma morph_blend_frame m :
  fs (morph_blend m) = fs m /\ rotation (morph_blend m) = rotation m /\
  levels (morph_blend m) = levels m /\
  INPUT_CLIP (io (morph_blend m)) = INPUT_CLIP (io m).
Proof.
  unfold morph_blend.
  set (P := fun m : Filter => (fs m, rotation m, levels m, INPUT_CLIP (io m))).
  assert (E : P (for_loop NUM_SAMPLES (fun i => for_loop NUM_CHANNELS (morph_cell i)) m) = P m).
  { apply for_loop_frame. intros i acc. apply for_loop_frame. intros j acc'. reflexivity. }
  unfold P in E. tuple_inv E. repeat split; assumption.
Qed.

Lemma level_loop_frame m :
  let m' := for_loop NUM_CHANNELS level_cell m in
  fs m' = fs m /\ rotation m' = rotation m /\ levels m' = levels m /\
  io_out (io m') = io_out (io m) /\ INPUT_CLIP (io m') = INPUT_CLIP (io m).
Proof.
  cbv zeta.
  set (P := fun m : Filter => (fs m, rotation m, levels m, io_out (io m), INPUT_CLIP (io m))).
  assert (E : P (for_loop NUM_CHANNELS level_cell m) = P m).
  { apply for_loop_frame. intros j acc. reflexivity. }
  unfold P in E. tuple_inv E. repeat split; assumption.
Qed.

Lemma block_prepared_type_state (m : Filter) :
  type_state (fs (block_prepared m)) = type_state (fs (apply_pending_type m)).
Proof.
  unfold block_prepared. cbv zeta. cbn [fs with_q].
  apply process_scale_bank_type_state.
Qed.

Lemma fs_with_rotation (f : Rotation -> Rotation) (m : Filter) :
  fs (with_rotation f m) = fs m.
Proof. reflexivity. Qed.

Lemma clear_change_flags_fs (m : Filter) :
  filter_type (fs (clear_change_flags m)) = filter_type (fs m) /\
  filter_type_changed (fs (clear_change_flags m)) = false /\
  filter_out (fs (clear_change_flags m)) = filter_out (fs m) /\
  rotation (clear_change_flags m) = rotation m /\
  levels (clear_change_flags m) = levels m /\
  io_out (io (clear_change_flags m)) = io_out (io m) /\
  INPUT_CLIP (io (clear_change_flags m)) = INPUT_CLIP (io m).
Proof. repeat split; reflexivity. Qed.

Lemma block_filtered_type_state (m : Filter) :
  type_state (fs (block_filtered m)) = type_state (fs (apply_pending_type m)).
Proof.
  unfold block_filtered, run_filter. cbv zeta.
  fold (block_prepared m).
  rewrite (inputs_type_state _ _ (run_algorithm_inputs
    (selected_algorithm (fs (block_prepared m))) (block_prepared m))).
  apply block_prepared_type_state.
Qed.

Lemma process_audio_block_type_state (m : Filter) :
  filter_type (fs (process_audio_block m)) = filter_type (fs (apply_pending_type m)) /\
  filter_type_changed (fs (process_audio_block m)) = false.
Proof.
  unfold process_audio_block. cbv zeta.
  match goal with |- context [clear_change_flags ?x] =>
    destruct (clear_change_flags_fs x) as (A & B & _); rewrite A, B; clear A B end.
  split; [|reflexivity].
  match goal with |- context [for_loop NUM_CHANNELS level_cell ?x] =>
    rewrite (proj1 (level_loop_frame x)) end.
  match goal with |- context [morph_blend ?x] =>
    rewrite (proj1 (morph_blend_frame x)) end.
  match goal with |- context [fs (with_rotation ?f ?x)] =>
    rewrite (fs_with_rotation f x) end.
  pose proof (block_filtered_type_state m) as E. unfold type_state in E.
  tuple_inv E. assumption.
Qed.

(** C5.  A filter type recorded by [change_filter_type] is pending: the
    request leaves the active [filter_type] as it is.  The next
    [process_audio_block] makes it the active type at its top; the state on
    which coefficients are resolved and the state the filter algorithm is run
    on carry that type, the one algorithm run for the whole block is the one
    selected by it, the type is the same after the filter and at the end of
    the block, and the pending flag is cleared at the end of the block. *)
Theorem C5_pending_type_applied_at_block_start (t : FilterTypes) (m : Filter) :
  new_filter_type (fs m) <> t ->
  let r := change_filter_type t m in
  (filter_type (fs r) = filter_type (fs m) /\
   filter_type_changed (fs r) = true /\ new_filter_type (fs r) = t) /\
  filter_type (fs (apply_pending_type r)) = t /\
  filter_type (fs (block_prepared r)) = t /\
  block_filtered r =
    run_algorithm (selected_algorithm (fs_set_type t (fs m))) (block_prepared r) /\
  filter_type (fs (block_filtered r)) = t /\
  filter_type (fs (process_audio_block r)) = t /\
  filter_type_changed (fs (process_audio_block r)) = false.
Proof.
  intros Hne r.
  assert (Hr : r = with_fs (fs_set_pending true t) m).
  { subst r. unfold change_filter_type.
    destruct (new_filter_type (fs m)), t; try reflexivity; congruence. }
  assert (Ha : filter_type (fs (apply_pending_type r)) = t).
  { rewrite Hr. reflexivity. }
  assert (Hm : filter_mode (fs (apply_pending_type r)) = filter_mode (fs m)).
  { rewrite Hr. reflexivity. }
  pose proof (block_prepared_type_state r) as Hp. unfold type_state in Hp.
  pose proof (block_filtered_type_state r) as Hf. unfold type_state in Hf.
  tuple_inv Hp.
  destruct (process_audio_block_type_state r) as (Hb1 & Hb2).
  split; [rewrite Hr; repeat split; reflexivity|].
  split; [exact Ha|].
  split; [congruence|].
  split.
  { unfold block_filtered, run_filter. cbv zeta. fold (block_prepared r).
    f_equal. unfold selected_algorithm.
    replace (filter_mode (fs (block_prepared r))) with (filter_mode (fs m)) by congruence.
    replace (filter_type (fs (block_prepared r))) with t by congruence.
    reflexivity. }
  split; [congruence|].
  split; [congruence|exact Hb2].
Qed.

(** ** The MORPHING loop *)

(** State of [io->out] while the loops run: [n] whole samples are written
    for every channel, and [c] channels of sample [n]. *)
Lemma morph_cell_out i j m k l :
  get2Q (io_out (io (morph_cell i j m))) k l =
  if decide (k = j /\ l = i /\ (j < length (io_out (io m)))%nat
             /\ (i < length (row (io_out (io m)) j))%nat)
  then finalized_sample m j i else get2Q (io_out (io m)) k l.
Proof.
  unfold morph_cell. cbn [io with_io io_out io_set_out].
  destruct (decide _) as [(-> & -> & Hj & Hi)|Hn].
  - rewrite get2Q_set2_eq by assumption. reflexivity.
  - destruct (decide (j = k)) as [->|Hjk].
    + destruct (decide (i = l)) as [->|Hil].
      * unfold get2Q.
        destruct (decide (k < length (io_out (io m)))%nat) as [Hk|Hk].
        -- rewrite row_set2_eq by exact Hk. unfold getQ.
           rewrite list_insert_ge; [reflexivity|]. 
           destruct (decide (l < length (row (io_out (io m)) k))%nat); [|lia].
           exfalso. apply Hn. repeat split; assumption.
        -- unfold set2. rewrite list_insert_ge by lia. reflexivity.
      * apply get2Q_set2_ne. right. exact Hil.
    + apply get2Q_set2_ne. left. exact Hjk.
Qed.

Lemma morph_cell_shape i j m :
  out_shape (io_out (io m)) -> out_shape (io_out (io (morph_cell i j m))).
Proof.
  intros (L & R). unfold morph_cell. cbn [io with_io io_out io_set_out]. split.
  - rewrite length_set2. exact L.
  - intros k Hk. rewrite length_row_set2. apply R. exact Hk.
Qed.

Lemma morph_blend_out (m : Filter) (j i : nat) :
  out_shape (io_out (io m)) ->
  (j < NUM_CHANNELS)%nat -> (i < NUM_SAMPLES)%nat ->
  get2Q (io_out (io (morph_blend m))) j i = finalized_sample m j i.
Proof.
  intros Hshape Hj Hi. unfold morph_blend.
  set (Inv := fun (n : nat) (c : nat) (m' : Filter) =>
    fs m' = fs m /\ rotation m' = rotation m /\ levels m' = levels m /\
    out_shape (io_out (io m')) /\
    (forall k l, (k < NUM_CHANNELS)%nat -> (l < n)%nat ->
       get2Q (io_out (io m')) k l = finalized_sample m k l) /\
    (forall k, (k < c)%nat -> get2Q (io_out (io m')) k n = finalized_sample m k n)).
  assert (Hall : Inv NUM_SAMPLES 0%nat
            (for_loop NUM_SAMPLES (fun i0 => for_loop NUM_CHANNELS (morph_cell i0)) m)).
  { apply (for_loop_ind (fun n m' => Inv n 0%nat m')).
    - unfold Inv. repeat split; try reflexivity; try apply Hshape; intros; lia.
    - intros n acc Hn Hacc.
      assert (Hin : Inv n NUM_CHANNELS (for_loop NUM_CHANNELS (morph_cell n) acc)).
      { apply (for_loop_ind (fun c m' => Inv n c m')); [exact Hacc|].
        intros c acc' Hc (Ef & Er & El & Sh & Hdone & Hrow).
        unfold Inv. destruct Sh as (SL & SR).
        assert (Efin : forall a b, finalized_sample acc' a b = finalized_sample m a b).
        { intros a b. unfold finalized_sample, f_blended_at. rewrite Ef, Er, El. reflexivity. }
        split; [exact Ef|]. split; [exact Er|]. split; [exact El|].
        split; [apply morph_cell_shape; split; assumption|].
        split.
        - intros k l Hk Hl. rewrite morph_cell_out.
          destruct (decide _) as [(_ & -> & _)|_]; [lia|]. apply Hdone; assumption.
        - intros k Hk. rewrite morph_cell_out.
          destruct (decide _) as [(-> & _)|Hn'].
          + apply Efin.
          + destruct (decide (k = c)) as [->|Hkc].
            * exfalso. apply Hn'. repeat split; try reflexivity.
              -- rewrite SL. exact Hc.
              -- rewrite (SR c Hc). exact Hn.
            * apply Hrow. lia. }
      destruct Hin as (Ef & Er & El & Sh & Hdone & Hrow).
      unfold Inv. repeat split; try assumption; try apply Sh.
      + intros k l Hk Hl. destruct (decide (l = n)) as [->|Hln].
        * apply Hrow. exact Hk.
        * apply Hdone; [exact Hk|lia].
      + intros k Hk. lia. }
  destruct Hall as (_ & _ & _ & _ & Hdone & _). apply Hdone; assumption.
Qed.

Lemma finalized_sample_blend (m : Filter) (j i : nat) :
  let src := get2Q (filter_out (fs m)) j i in
  let dst := get2Q (filter_out (fs m)) (j + NUM_CHANNELS) i in
  let mp := getQ (motion_morphpos (rotation m)) j in
  let lvl := getQ (channel_level (levels m)) j in
  finalized_sample m j i == (src * (1 - mp) + dst * mp) * lvl /\
  (mp == 0 -> finalized_sample m j i == src * lvl) /\
  (mp == 1 -> finalized_sample m j i == dst * lvl).
Proof.
  cbv zeta. unfold finalized_sample, f_blended_at.
  destruct (Qeq_bool (getQ (motion_morphpos (rotation m)) j) 0) eqn:E.
  - apply Qeq_bool_eq in E. split; [|split].
    + rewrite E. ring.
    + intros _. reflexivity.
    + intros E1. rewrite E1 in E. discriminate E.
  - split; [|split].
    + reflexivity.
    + intros E0. apply Qeq_eq_bool in E0. congruence.
    + intros E1. rewrite E1. ring.
Qed.
End BlockClaims.

Section MorphClaim.
Context `{Dims} `{Tables} `{Collaborators}.
Local Open Scope Q_scope.

Lemma io_with_rotation (f : Rotation -> Rotation) (m : Filter) :
  io (with_rotation f m) = io m.
Proof. reflexivity. Qed.

Lemma block_prepared_io (m : Filter) : io (block_prepared m) = io m.
Proof.
  unfold block_prepared, apply_pending_type. cbv zeta.
  destruct (filter_type_changed (fs m)); reflexivity.
Qed.

Lemma block_filtered_io_out (m : Filter) :
  io_out (io (block_filtered m)) = io_out (io m) /\
  io_in (io (block_filtered m)) = io_in (io m).
Proof.
  unfold block_filtered, run_filter. cbv zeta. fold (block_prepared m).
  destruct (inputs_io_out _ _ (run_algorithm_inputs
    (selected_algorithm (fs (block_prepared m))) (block_prepared m))) as (A & B).
  rewrite A, B, block_prepared_io. split; reflexivity.
Qed.

Lemma process_audio_block_unfold (m : Filter) :
  process_audio_block m =
  clear_change_flags
    (for_loop NUM_CHANNELS level_cell
       (morph_blend (with_rotation (update_morph (io (block_filtered m))) (block_filtered m)))).
Proof. reflexivity. Qed.

(** The finalizer on the state [mr] it is entered with. *)
Lemma finalizer_out (mr : Filter) (j i : nat) :
  out_shape (io_out (io mr)) ->
  (j < NUM_CHANNELS)%nat -> (i < NUM_SAMPLES)%nat ->
  let m' := clear_change_flags (for_loop NUM_CHANNELS level_cell (morph_blend mr)) in
  let src := get2Q (filter_out (fs m')) j i in
  let dst := get2Q (filter_out (fs m')) (j + 6) i in
  let mp := getQ (motion_morphpos (rotation m')) j in
  let lvl := getQ (channel_level (levels m')) j in
  let out := get2Q (io_out (io m')) j i in
  out == (src * (1 - mp) + dst * mp) * lvl /\
  (mp == 0 -> out == src * lvl) /\
  (mp == 1 -> out == dst * lvl).
Proof.
  intros Hsh Hj Hi. cbv zeta.
  destruct (clear_change_flags_fs (for_loop NUM_CHANNELS level_cell (morph_blend mr)))
    as (_ & _ & C1 & C2 & C3 & C4 & _).
  destruct (level_loop_frame (morph_blend mr)) as (F1 & R1 & L1 & O1 & _).
  destruct (morph_blend_frame mr) as (F2 & R2 & L2 & _).
  rewrite C1, C2, C3, C4, F1, R1, L1, O1, F2, R2, L2.
  rewrite (morph_blend_out mr j i Hsh Hj Hi).
  exact (finalized_sample_blend mr j i).
Qed.

(** C6.  For every channel [j] and sample [i] of a block, the output
    [io->out[j][i]] left by [process_audio_block] is the blend of
    [filter_out[j][i]] and [filter_out[j+6][i]] by the channel's morph
    position, times the channel level: [(src*(1-m) + dst*m) * level]; it is
    [src * level] when the morph position is 0 and [dst * level] when it
    is 1. *)
Theorem C6_output_is_morph_blend (m : Filter) (j i : nat) :
  out_shape (io_out (io m)) ->
  (j < NUM_CHANNELS)%nat -> (i < NUM_SAMPLES)%nat ->
  let m' := process_audio_block m in
  let src := get2Q (filter_out (fs m')) j i in
  let dst := get2Q (filter_out (fs m')) (j + 6) i in
  let mp := getQ (motion_morphpos (rotation m')) j in
  let lvl := getQ (channel_level (levels m')) j in
  let out := get2Q (io_out (io m')) j i in
  out == (src * (1 - mp) + dst * mp) * lvl /\
  (mp == 0 -> out == src * lvl) /\
  (mp == 1 -> out == dst * lvl).
Proof.
  intros Hshape Hj Hi.
  rewrite process_audio_block_unfold.
  apply finalizer_out; [|exact Hj|exact Hi].
  rewrite (io_with_rotation (update_morph (io (block_filtered m))) (block_filtered m)).
  rewrite (proj1 (block_filtered_io_out m)). exact Hshape.
Qed.
End MorphClaim.

Lemma C6_output_is_morph_blend_witness :
  let m' := @process_audio_block tiny_dims flat_tables still_collaborators
              (@resting_filter tiny_dims 0%Q) in
  let src := get2Q (filter_out (fs m')) 0 1 in
  let dst := get2Q (filter_out (fs m')) (0 + 6) 1 in
  let mp := getQ (motion_morphpos (rotation m')) 0 in
  let lvl := getQ (channel_level (levels m')) 0 in
  let out := get2Q (io_out (io m')) 0 1 in
  (out == (src * (1 - mp) + dst * mp) * lvl /\
   (mp == 0 -> out == src * lvl) /\
   (mp == 1 -> out == dst * lvl))%Q.
Proof.
  apply (@C6_output_is_morph_blend tiny_dims flat_tables still_collaborators
           (@resting_filter tiny_dims 0%Q) 0 1).
  - split; [reflexivity|]. intros j Hj.
    do 6 (destruct j as [|j]; [reflexivity|]). unfold NUM_CHANNELS in Hj. lia.
  - unfold NUM_CHANNELS. lia.
  - cbn. lia.
Defined.

Lemma C5_pending_type_applied_at_block_start_witness :
  let m := @resting_filter tiny_dims 0%Q in
  let r := change_filter_type BPRE m in
  (filter_type (fs r) = filter_type (fs m) /\
   filter_type_changed (fs r) = true /\ new_filter_type (fs r) = BPRE) /\
  filter_type (fs (apply_pending_type r)) = BPRE /\
  filter_type (fs (@block_prepared tiny_dims still_collaborators r)) = BPRE /\
  @block_filtered tiny_dims flat_tables still_collaborators r =
    @run_algorithm tiny_dims flat_tables
      (selected_algorithm (fs_set_type BPRE (fs m)))
      (@block_prepared tiny_dims still_collaborators r) /\
  filter_type (fs (@block_filtered tiny_dims flat_tables still_collaborators r)) = BPRE /\
  filter_type (fs (@process_audio_block tiny_dims flat_tables still_collaborators r)) = BPRE /\
  filter_type_changed (fs (@process_audio_block tiny_dims flat_tables still_collaborators r))
    = false.
Proof.
  apply (@C5_pending_type_applied_at_block_start tiny_dims flat_tables still_collaborators
           BPRE (@resting_filter tiny_dims 0%Q)).
  cbn. discriminate.
Defined.

(** ** The input-overload flag *)

Section ClipFlag.
Context `{Dims} `{Tables}.





















End ClipFlag.

(** ** The clip level has no influence on what is filtered *)


Lemma agree_trans (m1 m2 m3 : Filter) : agree m1 m2 -> agree m2 m3 -> agree m1 m3.
Proof. unfold agree. congruence. Qed.

Lemma unflagged_split (m : Filter) :
  m = with_io (io_set_INPUT_CLIP (INPUT_CLIP (io m))) (unflagged m).
Proof. destruct m as [f o qs t r e l]. destruct o. reflexivity. Qed.

(** Agreeing states are one state carrying two values of the flag. *)
Lemma agree_inv (m1 m2 : Filter) :
  agree m1 m2 ->
  exists e b1 b2,
    m1 = with_io (io_set_INPUT_CLIP b1) e /\ m2 = with_io (io_set_INPUT_CLIP b2) e.
Proof.
  intros Hag. exists (unflagged m1), (INPUT_CLIP (io m1)), (INPUT_CLIP (io m2)). split.
  - apply unflagged_split.
  - rewrite Hag. apply unflagged_split.
Qed.




Lemma sim_set_voct ch v1 v2 : v1 = v2 -> sim (set_voct ch v1) (set_voct ch v2).
Proof.
  intros -> m1 m2 Hag. destruct (agree_inv _ _ Hag) as (e & b1 & b2 & -> & ->).
  reflexivity.
Qed.


Section LevelBlind.
Context (D : Dims) {T : Tables} (L1 L2 : Z).

Let D1 : Dims := with_clip_level L1 D.
Let D2 : Dims := with_clip_level L2 D.










End LevelBlind.

Section ClipClaim.
Context `{Dims} `{Tables} `{Collaborators}.




End ClipClaim.





(** ** The ceiling is not applied by the interpolated algorithm *)


(** ** Noise colour *)

Section Noise.
Context `{Host}.
Local Open Scope Q_scope.

(** C10.  For a noise colour outside {0, 1, 2}, [generateNoise] draws from the
    pink source and returns [pink.next() * 10 - 5], leaving the other two
    sources alone: the value and the pink source are the same as for any
    state that selects colour 1 with the same pink source. *)
Theorem C10_unknown_colour_is_pink (a a1 : Audio) :
  noiseSelected a <> 0%Z -> noiseSelected a <> 1%Z -> noiseSelected a <> 2%Z ->
  noiseSelected a1 = 1%Z -> pink a1 = pink a ->
  generateNoise a = (fst (pink_next (pink a)) * 10 - 5, set_pink (snd (pink_next (pink a))) a) /\
  fst (generateNoise a) = fst (generateNoise a1) /\
  pink (snd (generateNoise a)) = pink (snd (generateNoise a1)).
Proof.
  intros N0 N1 N2 E1 Ep.
  assert (Ea : generateNoise a
               = (fst (pink_next (pink a)) * 10 - 5, set_pink (snd (pink_next (pink a))) a)).
  { unfold generateNoise.
    destruct (noiseSelected a) as [|[p|[p|p|]|]|p]; try congruence;
      destruct (pink_next (pink a)); reflexivity. }
  assert (Eb : generateNoise a1
               = (fst (pink_next (pink a1)) * 10 - 5, set_pink (snd (pink_next (pink a1))) a1)).
  { unfold generateNoise. rewrite E1. destruct (pink_next (pink a1)); reflexivity. }
  split; [exact Ea|]. rewrite Ea, Eb, Ep. split; reflexivity.
Qed.
End Noise.

Lemma C10_unknown_colour_is_pink_witness :
  let a := @set_inChannels passthrough_host 2 (fresh_audio 0) in
  let a7 := @Build_Audio passthrough_host 7 0 0 0 0 96000%Q 0%nat 0%nat 0%nat
              [] [] [] [] [] [] [] [] 0 in
  @generateNoise passthrough_host a7
    = ((fst (@pink_next passthrough_host (pink a7)) * 10 - 5)%Q,
       set_pink (snd (@pink_next passthrough_host (pink a7))) a7) /\
  fst (@generateNoise passthrough_host a7) = fst (@generateNoise passthrough_host a) /\
  pink (snd (@generateNoise passthrough_host a7)) = pink (snd (@generateNoise passthrough_host a)).
Proof.
  apply (@C10_unknown_colour_is_pink passthrough_host); cbn; congruence.
Defined.

(** ** Input channel mapping on concrete host calls *)

(** C2, evaluated.  One host call on a fresh pipeline whose engine input
    holds the marker -7, with 12-bit full scale 2047:
    - 1 input channel at 1 V: the sample 409 reaches all six channels;
    - 3 input channels at 1 V, 2 V, 3 V (409, 818, 1228): channels 0, 1, 2
      hold lanes 0, 1, 2, channel 3 holds lane 2, and channels 4 and 5 keep
      the marker; lanes 0 and 1 appear on no second channel. *)
Theorem C2_channel_mapping_evaluated :
  io_in (io (snd (fst (first_call 1 [1%Q])))) =
    [[409; 0]; [409; 0]; [409; 0]; [409; 0]; [409; 0]; [409; 0]]%Z /\
  io_in (io (snd (fst (first_call 3 [1%Q; 2%Q; 3%Q])))) =
    [[409; 0]; [818; 0]; [1228; 0]; [1228; 0]; [-7; -7]; [-7; -7]]%Z.
Proof. split; vm_compute; reflexivity. Qed.

(** ** The processing cycle is gated on the drained output lane *)

Section Gating.
Context `{Dims} `{Host} `{Engine}.

Lemma generateNoise_output_side (a : Audio) :
  output_side (snd (generateNoise a)) = output_side a.
Proof.
  unfold generateNoise.
  destruct (noiseSelected a) as [|[p|[p|p|]|]|p];
    first [destruct (brown_next (brown a)) | idtac];
    first [destruct (pink_next (pink a)) | idtac];
    first [destruct (white_next (white a)) | idtac]; reflexivity.
Qed.

Lemma populate_lane_output_side (input : Input) (i : nat) (a : Audio) :
  output_side (populate_lane input i a) = output_side a.
Proof.
  unfold populate_lane.
  destruct (negb (buffer_full (row (nInputBuffer a) i))); [|reflexivity].
  destruct (inputChannels a =? 0)%Z.
  - pose proof (generateNoise_output_side a) as E.
    destruct (generateNoise a) as [nO a']. cbn [snd] in E. rewrite <- E. reflexivity.
  - destruct (inputChannels a =? 1)%Z; reflexivity.
Qed.

Lemma populateInputBuffer_output_side (input : Input) (a : Audio) :
  output_side (populateInputBuffer input a) = output_side a.
Proof.
  unfold populateInputBuffer. apply for_loop_frame. intros k acc.
  apply populate_lane_output_side.
Qed.

Lemma resample_lane_runs (i : nat) (st : Audio * Filter) :
  engine_runs (fst (resample_lane i st)) = engine_runs (fst st).
Proof.
  unfold resample_lane. destruct st as [a main].
  destruct (negb (buffer_empty (row (nInputBuffer a) i))); [|reflexivity].
  destruct (nInputSrc a !! i) as [src|]; [|reflexivity].
  destruct (src_process _ _ _) as [[src' inLen] produced]. reflexivity.
Qed.

Lemma resampleInput_runs (st : Audio * Filter) :
  engine_runs (fst (resampleInput st)) = engine_runs (fst st).
Proof.
  unfold resampleInput. apply (for_loop_frame (fun st => engine_runs (fst st))).
  intros k acc. apply resample_lane_runs.
Qed.

Lemma convert_output_runs (chan : nat) (a : Audio) :
  engine_runs (convert_output chan a) = engine_runs a.
Proof.
  unfold convert_output. destruct (nOutputSrc a !! chan) as [src|]; [|reflexivity].
  destruct (src_process _ _ _) as [[src' inLen] produced]. reflexivity.
Qed.

Lemma accumulate_output_runs (chan i : nat) (main : Filter) (a : Audio) :
  engine_runs (accumulate_output chan i main a) = engine_runs a.
Proof.
  unfold accumulate_output.
  destruct (outputChannels a) as [|[p|[p|p|]|]|p]; try reflexivity.
  destruct (Nat.odd i); reflexivity.
Qed.

Lemma refill_runs (main : Filter) (a : Audio) :
  engine_runs (populateAndResampleOutputBuffer main a) = engine_runs a.
Proof.
  unfold populateAndResampleOutputBuffer.
  apply (for_loop_frame engine_runs). intros chan acc.
  apply (for_loop_frame engine_runs). intros i acc'.
  rewrite convert_output_runs. apply accumulate_output_runs.
Qed.

(** The readiness test: every active output lane holds a frame. *)
Lemma buffer_ready_iff (a : Audio) :
  buffer_ready a = true <->
  forall chan, (chan < outChannels a)%nat ->
    buffer_empty (row (nOutputBuffer a) chan) = false.
Proof.
  unfold buffer_ready.
  apply (for_loop_ind (fun n (ready : bool) =>
    ready = true <->
    forall chan, (chan < n)%nat -> buffer_empty (row (nOutputBuffer a) chan) = false)).
  - split; [intros _ chan Hc; lia|reflexivity].
  - intros k acc Hk IH. rewrite andb_true_iff, negb_true_iff, IH. split.
    + intros (Hall & Hk') chan Hc. destruct (decide (chan = k)) as [->|Hne];
        [exact Hk'|apply Hall; lia].
    + intros Hall. split; [intros chan Hc; apply Hall; lia|apply Hall; lia].
Qed.

Lemma shift_lane_input_side (chan : nat) (a : Audio) :
  input_side (shift_lane chan a) = input_side a.
Proof. reflexivity. Qed.

(** The pops: one frame leaves each of the first [n] lanes. *)
Lemma shift_loop_spec (n : nat) (a : Audio) :
  (n <= length (nOutputBuffer a))%nat ->
  let a' := for_loop n shift_lane a in
  input_side a' = input_side a /\
  (forall chan, (chan < n)%nat ->
     row (nOutputBuffer a') chan = drop 1 (row (nOutputBuffer a) chan)) /\
  (forall chan, (n <= chan)%nat ->
     row (nOutputBuffer a') chan = row (nOutputBuffer a) chan).
Proof.
  intros Hn. cbv zeta.
  assert (Hinv : forall k, (k <= n)%nat ->
    input_side (for_loop k shift_lane a) = input_side a /\
    length (nOutputBuffer (for_loop k shift_lane a)) = length (nOutputBuffer a) /\
    (forall chan, (chan < k)%nat ->
       row (nOutputBuffer (for_loop k shift_lane a)) chan = drop 1 (row (nOutputBuffer a) chan)) /\
    (forall chan, (k <= chan)%nat ->
       row (nOutputBuffer (for_loop k shift_lane a)) chan = row (nOutputBuffer a) chan)).
  { induction k as [|k IH]; intros Hk.
    - rewrite for_loop_0. repeat split; intros; try reflexivity; lia.
    - destruct (IH ltac:(lia)) as (Ein & Elen & Hlo & Hhi).
      rewrite for_loop_S.
      set (acc := for_loop k shift_lane a) in *. clearbody acc.
      unfold shift_lane. cbn [nOutputBuffer set_nOutputBuffer set_nOutputFrame].
      split; [exact Ein|]. split; [rewrite length_insert; exact Elen|]. split.
      + intros chan Hc. destruct (decide (chan = k)) as [->|Hne].
        * unfold row at 1. rewrite list_lookup_insert_eq by lia.
          cbn [default from_option id]. rewrite (Hhi k) by lia. reflexivity.
        * unfold row at 1. rewrite list_lookup_insert_ne by congruence.
          apply Hlo. lia.
      + intros chan Hc. unfold row at 1. rewrite list_lookup_insert_ne by lia.
        apply Hhi. lia. }
  destruct (Hinv n ltac:(lia)) as (A & _ & B & C). repeat split; assumption.
Qed.

Lemma select_outChannels_le (z : Z) : (select_outChannels z <= NUM_CHANNELS)%nat.
Proof.
  unfold select_outChannels, NUM_CHANNELS.
  destruct z as [|[p|[p|p|]|]|p]; lia.
Qed.

Lemma processOutputBuffer_spec (a : Audio) (output : Output) :
  (outChannels a <= length (nOutputBuffer a))%nat ->
  let r := processOutputBuffer (a, output) in
  input_side (fst r) = input_side a /\
  (buffer_ready a = true ->
     (forall chan, (chan < outChannels a)%nat ->
        row (nOutputBuffer (fst r)) chan = drop 1 (row (nOutputBuffer a) chan)) /\
     (forall chan, (outChannels a <= chan)%nat ->
        row (nOutputBuffer (fst r)) chan = row (nOutputBuffer a) chan)) /\
  (buffer_ready a = false ->
     nOutputBuffer (fst r) = nOutputBuffer a /\ out_voltages (snd r) = out_voltages output).
Proof.
  intros Hlen. cbv zeta. unfold processOutputBuffer.
  destruct (shift_loop_spec (outChannels a) a Hlen) as (A & B & C).
  destruct (buffer_ready a); cbn [fst snd].
  - split; [exact A|]. split; [intros _; split; assumption|discriminate].
  - split; [reflexivity|]. split; [discriminate|]. intros _. split; reflexivity.
Qed.
End Gating.

Section GatingClaim.
Context `{Dims} `{Host} `{Engine}.

Lemma select_channels_output_side (a : Audio) :
  nOutputBuffer (select_channels a) = nOutputBuffer a /\
  engine_runs (select_channels a) = engine_runs a /\
  outChannels (select_channels a) = select_outChannels (outputChannels a).
Proof. repeat split; reflexivity. Qed.

(** The state after the input of this call is buffered. *)
Lemma buffered_output_side (input : Input) (a : Audio) :
  let a1 := populateInputBuffer input (select_channels a) in
  nOutputBuffer a1 = nOutputBuffer a /\
  engine_runs a1 = engine_runs a /\
  outChannels a1 = select_outChannels (outputChannels a).
Proof.
  cbv zeta.
  pose proof (populateInputBuffer_output_side input (select_channels a)) as E.
  unfold output_side in E. tuple_inv E.
  destruct (select_channels_output_side a) as (A & B & C).
  repeat split; congruence.
Qed.

Lemma processing_cycle_spec (a : Audio) (main : Filter) :
  snd (processing_cycle (a, main)) = process_audio (snd (resampleInput (a, main))) /\
  engine_runs (fst (processing_cycle (a, main))) = S (engine_runs a).
Proof.
  unfold processing_cycle.
  pose proof (resampleInput_runs (a, main)) as E. cbn [fst] in E.
  destruct (resampleInput (a, main)) as [a2 main2]. cbn [fst snd] in *.
  split; [reflexivity|]. rewrite refill_runs. cbn [engine_runs set_engine_runs].
  rewrite E. reflexivity.
Qed.

(** C8.  On a host call of [nChannelProcess], with [a1] the pipeline after
    this call's input is buffered:
    - the engine entry point [process_audio] is entered once if lane 0 of
      the output buffers is empty, and not at all otherwise;
    - when it is entered, it is run on the block [resampleInput] wrote;
    - when lane 0 is not empty, the engine state is untouched, the input
      side is exactly [a1] (only the input was buffered), and either every
      active output lane holds a frame and each of them loses exactly its
      first frame while the other lanes are untouched, or some active lane
      is empty and then no buffer is popped and no voltage is written. *)
Theorem C8_engine_runs_iff_output_drained
    (input : Input) (a : Audio) (main : Filter) (output : Output) :
  length (nOutputBuffer a) = NUM_CHANNELS ->
  let r := nChannelProcess input (a, main, output) in
  let a' := fst (fst r) in
  let main' := snd (fst r) in
  let output' := snd r in
  let a1 := populateInputBuffer input (select_channels a) in
  let lanes := select_outChannels (outputChannels a) in
  let drained := buffer_empty (row (nOutputBuffer a) 0) in
  engine_runs a' = (engine_runs a + (if drained then 1 else 0))%nat /\
  (drained = true -> main' = process_audio (snd (resampleInput (a1, main)))) /\
  (drained = false ->
     main' = main /\ input_side a' = input_side a1 /\
     ((forall chan, (chan < lanes)%nat ->
         buffer_empty (row (nOutputBuffer a) chan) = false) ->
      (forall chan, (chan < lanes)%nat ->
         row (nOutputBuffer a') chan = drop 1 (row (nOutputBuffer a) chan)) /\
      (forall chan, (lanes <= chan)%nat ->
         row (nOutputBuffer a') chan = row (nOutputBuffer a) chan)) /\
     ((exists chan, (chan < lanes)%nat /\
         buffer_empty (row (nOutputBuffer a) chan) = true) ->
      nOutputBuffer a' = nOutputBuffer a /\
      out_voltages output' = out_voltages output)).
Proof.
  intros Hlen. cbv zeta. unfold nChannelProcess.
  destruct (buffered_output_side input a) as (Eb & Er & Eo). cbv zeta in Eb, Er, Eo.
  set (a1 := populateInputBuffer input (select_channels a)) in *. clearbody a1.
  rewrite Eb.
  destruct (buffer_empty (row (nOutputBuffer a) 0)) eqn:Hd.
  - (* drained: the cycle runs *)
    destruct (processing_cycle_spec a1 main) as (Em & En).
    destruct (processing_cycle (a1, main)) as [a2 main2]. cbn [fst snd] in Em, En.
    assert (Hruns : forall a3 o3,
              (if negb (buffer_empty (row (nOutputBuffer a2) 0))
               then processOutputBuffer (a2, output) else (a2, output)) = (a3, o3) ->
              engine_runs a3 = engine_runs a2).
    { intros a3 o3. destruct (negb _).
      - unfold processOutputBuffer. destruct (buffer_ready a2); intros E; inversion E; subst.
        + apply (for_loop_frame engine_runs). intros k acc. reflexivity.
        + reflexivity.
      - intros E. inversion E. reflexivity. }
    destruct (if negb (buffer_empty (row (nOutputBuffer a2) 0))
              then processOutputBuffer (a2, output) else (a2, output)) as [a3 o3] eqn:E3.
    cbn [fst snd]. rewrite (Hruns a3 o3 eq_refl), En, Er.
    split; [lia|]. split; [intros _; exact Em|discriminate].
  - (* not drained: only buffering and popping *)
    rewrite Eb, Hd. cbn [negb].
    assert (Hle : (outChannels a1 <= length (nOutputBuffer a1))%nat).
    { rewrite Eo, Eb, Hlen. apply select_outChannels_le. }
    destruct (processOutputBuffer_spec a1 output Hle) as (Ein & Hready & Hnot).
    cbv zeta in Ein, Hready, Hnot.
    destruct (processOutputBuffer (a1, output)) as [a3 o3]. cbn [fst snd] in *.
    split.
    { pose proof Ein as Ein'. unfold input_side in Ein'. tuple_inv Ein'. lia. }
    split; [discriminate|]. intros _.
    split; [reflexivity|]. split; [exact Ein|]. split.
    + intros Hall.
      assert (Hr : buffer_ready a1 = true).
      { apply buffer_ready_iff. intros chan Hc. rewrite Eb. apply Hall.
        rewrite <- Eo. exact Hc. }
      destruct (Hready Hr) as (Hpop & Hrest). rewrite Eo, Eb in *. split; assumption.
    + intros (chan & Hc & He).
      assert (Hr : buffer_ready a1 = false).
      { destruct (buffer_ready a1) eqn:Hr; [|reflexivity].
        pose proof (proj1 (buffer_ready_iff a1) Hr chan) as Hne.
        rewrite Eo, Eb in Hne. rewrite (Hne Hc) in He. discriminate He. }
      destruct (Hnot Hr) as (A & B). rewrite A, Eb. split; [reflexivity|exact B].
Qed.
End GatingClaim.

(** A pipeline whose two stereo output lanes hold frames. *)
Lemma C8_engine_runs_iff_output_drained_witness :
  let a := @set_nOutputBuffer passthrough_host
             [[1%Q; 2%Q]; [3%Q]; []; []; []; []]
             (@Build_Audio passthrough_host 1 2 1 0 0 96000%Q 0%nat 0%nat 0%nat
                (replicate 6 tt) (replicate 6 tt) (replicate 6 []) (replicate 6 [])
                (replicate 6 0%Q) (replicate 6 0%Q)
                (replicate 6 (replicate 2 0%Q)) (replicate 6 (replicate 2 0%Q)) 5) in
  let input := {| in_voltages := [1%Q; 2%Q] |} in
  let r := @nChannelProcess tiny_dims passthrough_host idle_engine input
             (a, marked_main, fresh_output) in
  let a1 := @populateInputBuffer passthrough_host input (select_channels a) in
  engine_runs (fst (fst r)) = 5%nat /\
  snd (fst r) = marked_main /\
  input_side (fst (fst r)) = input_side a1 /\
  row (nOutputBuffer (fst (fst r))) 0 = [2%Q] /\
  row (nOutputBuffer (fst (fst r))) 1 = [].
Proof.
  cbv zeta.
  match goal with |- context [@nChannelProcess _ _ _ ?i (?a, _, _)] =>
    pose proof (@C8_engine_runs_iff_output_drained tiny_dims passthrough_host idle_engine
                  i a marked_main fresh_output eq_refl) as W
  end.
  cbv zeta in W. destruct W as (W1 & _ & W3).
  destruct (W3 eq_refl) as (Wm & Win & Wpop & _).
  destruct Wpop as (Wp & _).
  { intros chan Hc. vm_compute in Hc.
    destruct chan as [|[|chan]]; [reflexivity|reflexivity|lia]. }
  split; [exact W1|]. split; [exact Wm|]. split; [exact Win|].
  split; [apply (Wp 0%nat); vm_compute; lia|apply (Wp 1%nat); vm_compute; lia].
Defined.

(** * Further properties of the filter and of the pipeline *)

(** ** Array copies *)

Lemma copy_loop_length (f : nat -> Q) (n : nat) (l : list Q) :
  length (copy_loop f n l) = length l.
Proof.
  unfold copy_loop. induction n as [|n IH]; [reflexivity|].
  rewrite (for_loop_S n (fun j l => <[j := f j]> l) l), length_insert. exact IH.
Qed.

Lemma copy_loop_S (f : nat -> Q) (n : nat) (l : list Q) :
  copy_loop f (S n) l = <[n := f n]> (copy_loop f n l).
Proof. exact (for_loop_S n (fun j l => <[j := f j]> l) l). Qed.

Lemma copy_loop_written (f : nat -> Q) (n : nat) (l : list Q) (k : nat) :
  (k < n)%nat -> (k < length l)%nat -> copy_loop f n l !! k = Some (f k).
Proof.
  induction n as [|n IH]; intros Hk Hl; [lia|].
  rewrite copy_loop_S. destruct (decide (k = n)) as [->|Hne].
  - apply list_lookup_insert_eq. rewrite copy_loop_length. exact Hl.
  - rewrite list_lookup_insert_ne by congruence. apply IH; [lia|exact Hl].
Qed.

Lemma copy_loop_untouched (f : nat -> Q) (n : nat) (l : list Q) (k : nat) :
  (n <= k)%nat -> copy_loop f n l !! k = l !! k.
Proof.
  induction n as [|n IH]; intros Hk; [reflexivity|].
  rewrite copy_loop_S, list_lookup_insert_ne by lia. apply IH. lia.
Qed.

(** A loop that stores [f j] into [user_scale_bank[j]] is one update of
    [user_scale_bank]. *)
Lemma user_scale_copy_loop (f : nat -> Q) (n : nat) (m : Filter) :
  for_loop n (fun j m =>
    with_fs (fun s => fs_set_user_scale_bank (<[j := f j]> (user_scale_bank s)) s) m) m
  = with_fs (fs_set_user_scale_bank (copy_loop f n (user_scale_bank (fs m)))) m.
Proof.
  induction n as [|n IH].
  - rewrite for_loop_0. destruct m as [s o qs t r e l]. destruct s. reflexivity.
  - rewrite for_loop_S, IH, copy_loop_S. reflexivity.
Qed.

(** ** Bank change, user scale and default user scale *)

Section Requests.
Context `{Dims} `{Tables}.

Lemma bank_change_loop (b : Z) (locks : list bool) (n : nat) (m : Filter) :
  LOCK_ON (io m) = locks -> NEW_BANK (io m) = b ->
  let m' := for_loop n (fun i m =>
              if negb (getB (LOCK_ON (io m)) i)
              then with_fs (fun s =>
                     fs_set_scale_bank (<[i := NEW_BANK (io m)]> (scale_bank s)) s) m
              else m) m in
  io m' = io m /\
  old_scale_bank (fs m') = old_scale_bank (fs m) /\
  scale (fs m') = scale (fs m) /\ note (fs m') = note (fs m) /\
  buf (fs m') = buf (fs m) /\ buf_a (fs m') = buf_a (fs m) /\
  length (scale_bank (fs m')) = length (scale_bank (fs m)) /\
  (forall k, (k < n)%nat -> (k < length (scale_bank (fs m)))%nat ->
     scale_bank (fs m') !! k =
       Some (if negb (getB locks k) then b else getZ (scale_bank (fs m)) k)) /\
  (forall k, (n <= k)%nat -> scale_bank (fs m') !! k = scale_bank (fs m) !! k).
Proof.
  intros Hl Hb. cbv zeta. induction n as [|n IH].
  - rewrite for_loop_0. repeat split; intros; try reflexivity; lia.
  - rewrite for_loop_S. destruct IH as (Eio & E1 & E2 & E3 & E4 & E5 & El & Hlo & Hhi).
    set (acc := for_loop n _ m) in *. clearbody acc.
    rewrite Eio, Hl, Hb.
    destruct (negb (getB locks n)) eqn:Hn.
    + cbn [fs io with_fs fs_set_scale_bank scale_bank old_scale_bank scale note buf buf_a].
      split; [exact Eio|]. do 5 (split; [assumption|]).
      split; [rewrite length_insert; exact El|]. split.
      * intros k Hk Hlen. destruct (decide (k = n)) as [->|Hne].
        -- rewrite list_lookup_insert_eq by lia. rewrite Hn. reflexivity.
        -- rewrite list_lookup_insert_ne by congruence. apply Hlo; [lia|exact Hlen].
      * intros k Hk. rewrite list_lookup_insert_ne by lia. apply Hhi. lia.
    + split; [exact Eio|]. do 5 (split; [assumption|]). split; [exact El|]. split.
      * intros k Hk Hlen. destruct (decide (k = n)) as [->|Hne].
        -- rewrite (Hhi n) by lia. rewrite Hn. unfold getZ.
           destruct (scale_bank (fs m) !! n) eqn:E; [reflexivity|].
           apply lookup_ge_None in E. lia.
        -- apply Hlo; [lia|exact Hlen].
      * intros k Hk. apply Hhi. lia.
Qed.

(** X1.  [process_bank_change]: on a bank-change event every unlocked
    channel takes the new bank and every locked channel keeps its bank;
    without the event no bank changes.  Nothing but [scale_bank] is
    written. *)
Theorem process_bank_change_channels (m : Filter) (i : nat) :
  length (scale_bank (fs m)) = NUM_CHANNELS -> (i < NUM_CHANNELS)%nat ->
  let m' := process_bank_change m in
  getZ (scale_bank (fs m')) i =
    (if CHANGED_BANK (io m) && negb (getB (LOCK_ON (io m)) i)
     then NEW_BANK (io m) else getZ (scale_bank (fs m)) i) /\
  io m' = io m /\ old_scale_bank (fs m') = old_scale_bank (fs m) /\
  scale (fs m') = scale (fs m) /\ note (fs m') = note (fs m) /\
  buf (fs m') = buf (fs m) /\ buf_a (fs m') = buf_a (fs m).
Proof.
  intros Hlen Hi. cbv zeta. unfold process_bank_change.
  destruct (CHANGED_BANK (io m)); cbn [andb]; [|repeat split; reflexivity].
  destruct (bank_change_loop (NEW_BANK (io m)) (LOCK_ON (io m)) NUM_CHANNELS m eq_refl eq_refl)
    as (Eio & E1 & E2 & E3 & E4 & E5 & _ & Hlo & _).
  split; [|repeat split; assumption].
  unfold getZ at 1. rewrite (Hlo i Hi) by lia. reflexivity.
Qed.

(** X2.  [process_user_scale_change]: on a user-scale update the first
    [NUM_BANKNOTES] entries of [user_scale_bank] become the entries of
    [io->USER_SCALE] and the entries beyond are kept; without the update the
    filter is left as it is.  Only [user_scale_bank] is written. *)
Theorem process_user_scale_change_copies (m : Filter) :
  let m' := process_user_scale_change m in
  (USER_SCALE_CHANGED (io m) = false -> m' = m) /\
  (USER_SCALE_CHANGED (io m) = true ->
     m' = with_fs (fs_set_user_scale_bank (user_scale_bank (fs m'))) m /\
     (forall j, (j < NUM_BANKNOTES)%nat -> (j < length (user_scale_bank (fs m)))%nat ->
        user_scale_bank (fs m') !! j = Some (getQ (USER_SCALE (io m)) j)) /\
     (forall j, (NUM_BANKNOTES <= j)%nat ->
        user_scale_bank (fs m') !! j = user_scale_bank (fs m) !! j)).
Proof.
  cbv zeta. unfold process_user_scale_change.
  destruct (USER_SCALE_CHANGED (io m)); split; try discriminate; [|reflexivity].
  intros _.
  assert (E : for_loop NUM_BANKNOTES (fun i m0 =>
                with_fs (fun s => fs_set_user_scale_bank
                  (<[i := getQ (USER_SCALE (io m0)) i]> (user_scale_bank s)) s) m0) m
              = with_fs (fs_set_user_scale_bank
                  (copy_loop (fun j => getQ (USER_SCALE (io m)) j) NUM_BANKNOTES
                     (user_scale_bank (fs m)))) m).
  { rewrite <- user_scale_copy_loop.
    assert (G : forall n,
      for_loop n (fun i m0 => with_fs (fun s => fs_set_user_scale_bank
                   (<[i := getQ (USER_SCALE (io m0)) i]> (user_scale_bank s)) s) m0) m
      = for_loop n (fun j m0 => with_fs (fun s => fs_set_user_scale_bank
                   (<[j := getQ (USER_SCALE (io m)) j]> (user_scale_bank s)) s) m0) m
      /\ io (for_loop n (fun j m0 => with_fs (fun s => fs_set_user_scale_bank
                   (<[j := getQ (USER_SCALE (io m)) j]> (user_scale_bank s)) s) m0) m) = io m).
    { induction n as [|n (IH1 & IH2)].
      - rewrite !for_loop_0. split; reflexivity.
      - rewrite !for_loop_S, IH1, IH2. split; [reflexivity|exact IH2]. }
    exact (proj1 (G NUM_BANKNOTES)). }
  rewrite E. cbn [fs with_fs fs_set_user_scale_bank user_scale_bank].
  split; [reflexivity|]. split.
  - intros j Hj Hl. apply copy_loop_written; assumption.
  - intros j Hj. apply copy_loop_untouched. exact Hj.
Qed.

(** X3.  [set_default_user_scalebank]: afterwards a lookup through the user
    scale gives the max-Q coefficient of the last preset bank, at every
    offset below [NUM_BANKNOTES] that [user_scale_bank] has. *)
Theorem set_default_user_scalebank_lookup (m : Filter) (off : nat) :
  (off < NUM_BANKNOTES)%nat -> (off < length (user_scale_bank (fs m)))%nat ->
  let m' := set_default_user_scalebank m in
  deref (fs m') UserScaleBank off
    = deref (fs m') (PresetMaxq (Z.of_nat NUM_SCALEBANKS - 1)) off /\
  m' = with_fs (fs_set_user_scale_bank (user_scale_bank (fs m'))) m.
Proof.
  intros Hoff Hlen. cbv zeta. unfold set_default_user_scalebank.
  rewrite (user_scale_copy_loop
             (fun j => getQ (presets_c_maxq (Z.of_nat NUM_SCALEBANKS - 1)) j)).
  cbn [fs with_fs fs_set_user_scale_bank user_scale_bank deref].
  split; [|reflexivity].
  unfold getQ at 1. rewrite copy_loop_written by assumption. reflexivity.
Qed.
End Requests.

Lemma process_bank_change_channels_witness :
  let m := with_io (bank_event 2 (<[1%nat := true]> (replicate 6 false)))
             (@resting_filter tiny_dims 0%Q) in
  let m' := process_bank_change m in
  getZ (scale_bank (fs m')) 0 =
    (if CHANGED_BANK (io m) && negb (getB (LOCK_ON (io m)) 0)
     then NEW_BANK (io m) else getZ (scale_bank (fs m)) 0) /\
  io m' = io m /\ old_scale_bank (fs m') = old_scale_bank (fs m) /\
  scale (fs m') = scale (fs m) /\ note (fs m') = note (fs m) /\
  buf (fs m') = buf (fs m) /\ buf_a (fs m') = buf_a (fs m).
Proof.
  apply (process_bank_change_channels
           (with_io (bank_event 2 (<[1%nat := true]> (replicate 6 false)))
              (@resting_filter tiny_dims 0%Q)) 0).
  - reflexivity.
  - unfold NUM_CHANNELS. lia.
Defined.

Lemma process_user_scale_change_copies_witness :
  let m := with_io (user_scale_event (replicate 6 (1 # 2)%Q)) (@resting_filter tiny_dims 0%Q) in
  user_scale_bank (fs (@process_user_scale_change tiny_dims m)) !! 3%nat
    = Some (getQ (USER_SCALE (io m)) 3).
Proof.
  cbv zeta.
  apply (proj1 (proj2 (proj2 (@process_user_scale_change_copies tiny_dims
           (with_io (user_scale_event (replicate 6 (1 # 2)%Q)) (@resting_filter tiny_dims 0%Q)))
           eq_refl))).
  - vm_compute. lia.
  - vm_compute. lia.
Defined.

Lemma set_default_user_scalebank_lookup_witness :
  let m' := @set_default_user_scalebank tiny_dims flat_tables (@resting_filter tiny_dims 0%Q) in
  @deref flat_tables (fs m') UserScaleBank 2
    = @deref flat_tables (fs m') (PresetMaxq (Z.of_nat (@NUM_SCALEBANKS tiny_dims) - 1)) 2 /\
  m' = with_fs (fs_set_user_scale_bank (user_scale_bank (fs m'))) (@resting_filter tiny_dims 0%Q).
Proof.
  apply (@set_default_user_scalebank_lookup tiny_dims flat_tables
           (@resting_filter tiny_dims 0%Q) 2).
  - vm_compute. lia.
  - vm_compute. lia.
Defined.

(** ** Filter type requests: the last request wins *)

Section TypeRequests.
Context `{Dims} `{Tables} `{Collaborators}.

Lemma change_filter_type_pending (t : FilterTypes) (m : Filter) :
  new_filter_type (fs (change_filter_type t m)) = t /\
  filter_type (fs (change_filter_type t m)) = filter_type (fs m) /\
  (type_in_step (fs m) -> type_in_step (fs (change_filter_type t m))).
Proof.
  unfold change_filter_type, type_in_step.
  destruct (new_filter_type (fs m)) eqn:En, t; cbn; rewrite ?En;
    repeat split; try reflexivity; try discriminate; auto.
Qed.

Lemma request_types_snoc (ts : list FilterTypes) (t : FilterTypes) (m : Filter) :
  request_types (ts ++ [t]) m = change_filter_type t (request_types ts m).
Proof. unfold request_types. rewrite foldl_app. reflexivity. Qed.

Lemma request_types_in_step (ts : list FilterTypes) (m : Filter) :
  type_in_step (fs m) ->
  type_in_step (fs (request_types ts m)) /\
  filter_type (fs (request_types ts m)) = filter_type (fs m).
Proof.
  intros Hm. induction ts as [|t ts IH] using rev_ind.
  - split; [exact Hm|reflexivity].
  - rewrite request_types_snoc.
    destruct (change_filter_type_pending t (request_types ts m)) as (_ & Ef & Hs).
    destruct IH as (IH1 & IH2). split; [apply Hs; exact IH1|congruence].
Qed.

Lemma apply_pending_type_in_step (m : Filter) :
  type_in_step (fs m) ->
  filter_type (fs (apply_pending_type m)) = new_filter_type (fs m).
Proof.
  unfold type_in_step, apply_pending_type.
  destruct (filter_type_changed (fs m)); intros Hs; [reflexivity|].
  apply Hs. reflexivity.
Qed.

Lemma clear_change_flags_new_type (m : Filter) :
  new_filter_type (fs (clear_change_flags m)) = new_filter_type (fs m).
Proof. reflexivity. Qed.

Lemma apply_pending_new_type (m : Filter) :
  new_filter_type (fs (apply_pending_type m)) = new_filter_type (fs m).
Proof. unfold apply_pending_type. destruct (filter_type_changed (fs m)); reflexivity. Qed.

Lemma process_audio_block_new_type (m : Filter) :
  new_filter_type (fs (process_audio_block m)) = new_filter_type (fs m).
Proof.
  rewrite process_audio_block_unfold, clear_change_flags_new_type.
  match goal with |- context [for_loop NUM_CHANNELS level_cell ?x] =>
    rewrite (proj1 (level_loop_frame x)) end.
  match goal with |- context [morph_blend ?x] =>
    rewrite (proj1 (morph_blend_frame x)) end.
  rewrite fs_with_rotation.
  pose proof (block_filtered_type_state m) as E. unfold type_state in E. tuple_inv E.
  rewrite <- (apply_pending_new_type m). assumption.
Qed.

(** X4.  From a state whose pending type is in step, after any series of
    [change_filter_type] requests the next [process_audio_block] leaves the
    type requested last as the active type, with no change pending and the
    pending type in step again; until that block the active type is the
    one before the requests. *)
Theorem last_requested_type_wins (ts : list FilterTypes) (t : FilterTypes) (m : Filter) :
  type_in_step (fs m) ->
  let r := request_types (ts ++ [t]) m in
  filter_type (fs r) = filter_type (fs m) /\
  filter_type (fs (process_audio_block r)) = t /\
  filter_type_changed (fs (process_audio_block r)) = false /\
  type_in_step (fs (process_audio_block r)).
Proof.
  intros Hm r.
  destruct (request_types_in_step (ts ++ [t]) m Hm) as (Hs & Ef).
  assert (En : new_filter_type (fs r) = t).
  { subst r. rewrite request_types_snoc.
    exact (proj1 (change_filter_type_pending t (request_types ts m))). }
  destruct (process_audio_block_type_state r) as (Et & Ec).
  rewrite (apply_pending_type_in_step r Hs), En in Et.
  split; [exact Ef|]. split; [exact Et|]. split; [exact Ec|].
  unfold type_in_step. intros _. rewrite Et, process_audio_block_new_type, En. reflexivity.
Qed.
End TypeRequests.

Lemma last_requested_type_wins_witness :
  let m := @resting_filter tiny_dims 0%Q in
  let r := request_types ([BPRE; MAXQ] ++ [BPRE]) m in
  filter_type (fs r) = MAXQ /\
  filter_type (fs (@process_audio_block tiny_dims flat_tables still_collaborators r)) = BPRE /\
  filter_type_changed (fs (@process_audio_block tiny_dims flat_tables still_collaborators r))
    = false /\
  type_in_step (fs (@process_audio_block tiny_dims flat_tables still_collaborators r)).
Proof.
  apply (@last_requested_type_wins tiny_dims flat_tables still_collaborators
           [BPRE; MAXQ] BPRE (@resting_filter tiny_dims 0%Q)).
  unfold type_in_step. reflexivity.
Defined.

(** ** History is reset once per event *)

Section ResetOnce.
Context `{Dims}.

Lemma clamp_scale_bank_idem (z : Z) :
  clamp_scale_bank (clamp_scale_bank z) = clamp_scale_bank z.
Proof.
  unfold clamp_scale_bank.
  destruct (Z.leb_spec (Z.of_nat NUM_SCALEBANKS) z) as [Hge|Hlt]; cbn [andb].
  - destruct (Z.eqb_spec z 255) as [->|Hne]; cbn [negb].
    + destruct (Z.leb_spec (Z.of_nat NUM_SCALEBANKS) 255); reflexivity.
    + destruct (Z.leb_spec (Z.of_nat NUM_SCALEBANKS) (Z.of_nat NUM_SCALEBANKS - 1));
        [lia|reflexivity].
  - destruct (Z.leb_spec (Z.of_nat NUM_SCALEBANKS) z); [lia|reflexivity].
Qed.

(** After its pass a channel's resolved bank is its bank. *)
Lemma scale_bank_channel_old_own usc i s :
  (i < length (scale_bank s))%nat -> (i < length (old_scale_bank s))%nat ->
  getZ (old_scale_bank (scale_bank_channel usc i s)) i
  = getZ (scale_bank (scale_bank_channel usc i s)) i.
Proof.
  intros Hsb Ho. unfold scale_bank_channel, needs_reset.
  cbn [scale_bank old_scale_bank fs_set_scale fs_set_scale_bank filter_type_changed].
  assert (Hget : getZ (<[i:=clamp_scale_bank (getZ (scale_bank s) i)]> (scale_bank s)) i
                 = clamp_scale_bank (getZ (scale_bank s) i)).
  { unfold getZ at 1. rewrite list_lookup_insert_eq by exact Hsb. reflexivity. }
  rewrite Hget.
  destruct (Z.eqb_spec (clamp_scale_bank (getZ (scale_bank s) i)) (getZ (old_scale_bank s) i))
    as [Heq|Hne]; cbn [negb orb].
  - destruct (filter_type_changed s || usc).
    + match goal with |- context [resolve_coefs i ?t] =>
        destruct (resolve_coefs_frame i t) as (Esb & Eo & _) end.
      rewrite Esb, Eo.
      cbn [scale_bank old_scale_bank fs_set_buf fs_set_old_scale_bank fs_set_scale
           fs_set_scale_bank].
      rewrite Hget. unfold getZ at 1. rewrite list_lookup_insert_eq by exact Ho. reflexivity.
    + cbn [scale_bank old_scale_bank fs_set_scale fs_set_scale_bank].
      rewrite Hget. symmetry. exact Heq.
  - match goal with |- context [resolve_coefs i ?t] =>
      destruct (resolve_coefs_frame i t) as (Esb & Eo & _) end.
    rewrite Esb, Eo.
    cbn [scale_bank old_scale_bank fs_set_buf fs_set_old_scale_bank fs_set_scale
         fs_set_scale_bank].
    rewrite Hget. unfold getZ at 1. rewrite list_lookup_insert_eq by exact Ho. reflexivity.
Qed.

Lemma channel_loop_resolved usc s n :
  (n <= length (scale_bank s))%nat -> (n <= length (old_scale_bank s))%nat ->
  let s' := for_loop n (scale_bank_channel usc) s in
  length (scale_bank s') = length (scale_bank s) /\
  length (old_scale_bank s') = length (old_scale_bank s) /\
  forall k, (k < n)%nat -> getZ (old_scale_bank s') k = getZ (scale_bank s') k.
Proof.
  intros Lsb Lo. cbv zeta. induction n as [|n IH].
  - rewrite for_loop_0. repeat split; intros; lia.
  - rewrite for_loop_S. destruct (IH ltac:(lia) ltac:(lia)) as (E1 & E2 & Hk).
    set (acc := for_loop n (scale_bank_channel usc) s) in *. clearbody acc.
    destruct (scale_bank_channel_lengths usc n acc) as (B1 & B2 & _).
    split; [congruence|]. split; [congruence|].
    intros k Hlt. destruct (decide (k = n)) as [->|Hne].
    + apply scale_bank_channel_old_own; lia.
    + destruct (scale_bank_channel_others usc n acc k Hne) as (C1 & C2 & _).
      unfold getZ. rewrite C1, C2. apply Hk. lia.
Qed.

(** The bank of a channel after the loop, whatever the other arrays hold. *)
Lemma channel_loop_bank usc s n k :
  (n <= length (scale_bank s))%nat ->
  getZ (scale_bank (for_loop n (scale_bank_channel usc) s)) k =
  if decide (k < n)%nat then clamp_scale_bank (getZ (scale_bank s) k)
  else getZ (scale_bank s) k.
Proof.
  intros Lsb. induction n as [|n IH].
  - rewrite for_loop_0. destruct (decide _); [lia|reflexivity].
  - rewrite for_loop_S. specialize (IH ltac:(lia)).
    assert (Hlen : length (scale_bank (for_loop n (scale_bank_channel usc) s))
                   = length (scale_bank s)).
    { apply (for_loop_frame (fun s => length (scale_bank s))). intros j acc.
      exact (proj1 (scale_bank_channel_lengths usc j acc)). }
    set (acc := for_loop n (scale_bank_channel usc) s) in *. clearbody acc.
    assert (Hown : getZ (scale_bank (scale_bank_channel usc n acc)) n
                   = clamp_scale_bank (getZ (scale_bank acc) n)).
    { unfold scale_bank_channel.
      match goal with |- context [if ?c then _ else _] => destruct c end.
      - match goal with |- context [resolve_coefs n ?t] =>
          rewrite (proj1 (resolve_coefs_frame n t)) end.
        cbn [scale_bank fs_set_buf fs_set_old_scale_bank fs_set_scale fs_set_scale_bank].
        unfold getZ at 1. rewrite list_lookup_insert_eq by lia. reflexivity.
      - cbn [scale_bank fs_set_scale fs_set_scale_bank].
        unfold getZ at 1. rewrite list_lookup_insert_eq by lia. reflexivity. }
    destruct (decide (k = n)) as [->|Hne].
    + rewrite Hown, IH. destruct (decide (n < n)%nat); [lia|].
      destruct (decide (n < S n)%nat); [reflexivity|lia].
    + unfold getZ at 1.
      rewrite (proj1 (scale_bank_channel_others usc n acc k Hne)).
      fold (getZ (scale_bank acc) k). rewrite IH.
      destruct (decide (k < n)%nat), (decide (k < S n)%nat); try lia; reflexivity.
Qed.

Lemma fs_process_scale_bank (m : Filter) :
  fs (process_scale_bank m)
  = for_loop NUM_CHANNELS (scale_bank_channel (USER_SCALE_CHANGED (io m))) (fs m).
Proof. reflexivity. Qed.

Lemma process_scale_bank_bank (m : Filter) (i : nat) :
  length (scale_bank (fs m)) = NUM_CHANNELS -> (i < NUM_CHANNELS)%nat ->
  getZ (scale_bank (fs (process_scale_bank m))) i
  = clamp_scale_bank (getZ (scale_bank (fs m)) i).
Proof.
  intros Lsb Hi.
  pose proof (channel_loop_bank (USER_SCALE_CHANGED (io m)) (fs m) NUM_CHANNELS i
                ltac:(lia)) as E.
  destruct (decide (i < NUM_CHANNELS)%nat); [exact E|lia].
Qed.

(** X5.  A channel for which no reset is due on entry of
    [process_scale_bank] keeps its whole second-pass history, and its bank
    is only clamped. *)
Theorem no_event_keeps_history (m : Filter) (i : nat) :
  wf_channels (fs m) -> (i < NUM_CHANNELS)%nat ->
  reset_due m i = false ->
  row (buf (fs (process_scale_bank m))) i = row (buf (fs m)) i /\
  getZ (scale_bank (fs (process_scale_bank m))) i
    = clamp_scale_bank (getZ (scale_bank (fs m)) i).
Proof.
  intros W Hi Hdue.
  destruct (process_scale_bank_spec m W) as (_ & _ & _ & Lo).
  destruct (Lo i Hi) as (Esb & _ & Eb).
  unfold reset_due in Hdue. rewrite Hdue in Eb.
  unfold row at 1, getZ at 1. rewrite Eb, Esb. split; reflexivity.
Qed.

(** After [process_scale_bank] the bank resolved last is the bank. *)
Lemma process_scale_bank_resolved (m : Filter) (i : nat) :
  length (scale_bank (fs m)) = NUM_CHANNELS ->
  length (old_scale_bank (fs m)) = NUM_CHANNELS ->
  (i < NUM_CHANNELS)%nat ->
  getZ (old_scale_bank (fs (process_scale_bank m))) i
  = getZ (scale_bank (fs (process_scale_bank m))) i.
Proof.
  intros Lsb Lo Hi.
  destruct (channel_loop_resolved (USER_SCALE_CHANGED (io m)) (fs m) NUM_CHANNELS
              ltac:(lia) ltac:(lia)) as (_ & _ & Hk).
  cbv zeta in Hk. specialize (Hk i Hi).
  rewrite <- (fs_process_scale_bank m) in Hk. exact Hk.
Qed.

(** X6.  After [process_scale_bank] every channel's resolved bank
    [old_scale_bank] is its bank, so that a reset is due again only through
    the filter-type and user-scale flags. *)
Theorem process_scale_bank_resolves (m : Filter) (i : nat) :
  length (scale_bank (fs m)) = NUM_CHANNELS ->
  length (old_scale_bank (fs m)) = NUM_CHANNELS ->
  (i < NUM_CHANNELS)%nat ->
  let m' := process_scale_bank m in
  getZ (old_scale_bank (fs m')) i = getZ (scale_bank (fs m')) i /\
  reset_due m' i = filter_type_changed (fs m) || USER_SCALE_CHANGED (io m).
Proof.
  intros Lsb Lo Hi. cbv zeta.
  pose proof (process_scale_bank_resolved m i Lsb Lo Hi) as Hk.
  split; [exact Hk|].
  pose proof (process_scale_bank_type_state m) as Et. unfold type_state in Et. tuple_inv Et.
  unfold reset_due. rewrite Hk.
  assert (Ecl : clamp_scale_bank (getZ (scale_bank (fs (process_scale_bank m))) i)
                = getZ (scale_bank (fs (process_scale_bank m))) i).
  { rewrite (process_scale_bank_bank m i Lsb Hi). apply clamp_scale_bank_idem. }
  rewrite Ecl, Z.eqb_refl. cbn [negb orb].
  f_equal. assumption.
Qed.
End ResetOnce.

Lemma no_event_keeps_history_witness :
  row (buf (fs (@process_scale_bank tiny_dims (@resting_filter tiny_dims 1%Q)))) 3
    = row (buf (fs (@resting_filter tiny_dims 1%Q))) 3 /\
  getZ (scale_bank (fs (@process_scale_bank tiny_dims (@resting_filter tiny_dims 1%Q)))) 3
    = @clamp_scale_bank tiny_dims (getZ (scale_bank (fs (@resting_filter tiny_dims 1%Q))) 3).
Proof.
  apply (@no_event_keeps_history tiny_dims (@resting_filter tiny_dims 1%Q) 3).
  - apply wf_channelsb_correct. vm_compute. reflexivity.
  - unfold NUM_CHANNELS. lia.
  - vm_compute. reflexivity.
Defined.

Lemma process_scale_bank_resolves_witness :
  let m := with_io (bank_event 2 (replicate 6 false)) (@resting_filter tiny_dims 1%Q) in
  let m' := @process_scale_bank tiny_dims (process_bank_change m) in
  getZ (old_scale_bank (fs m')) 4 = getZ (scale_bank (fs m')) 4 /\
  @reset_due tiny_dims m' 4
    = filter_type_changed (fs (process_bank_change m))
      || USER_SCALE_CHANGED (io (process_bank_change m)).
Proof.
  apply (@process_scale_bank_resolves tiny_dims
           (process_bank_change
              (with_io (bank_event 2 (replicate 6 false)) (@resting_filter tiny_dims 1%Q))) 4).
  - vm_compute. reflexivity.
  - vm_compute. reflexivity.
  - unfold NUM_CHANNELS. lia.
Defined.

(** ** The filter algorithms keep the arrays' sizes *)

Section ArrayLengths.
Context `{Dims} `{Tables}.

Lemma section_step_length b ch o c0 c1 c2 x :
  length (fst (section_step b ch o c0 c1 c2 x)) = length b.
Proof. unfold section_step. cbn [fst]. rewrite !length_set2. reflexivity. Qed.

Lemma flag_clip_lengths x m : array_lengths (flag_clip x m) = array_lengths m.
Proof. unfold flag_clip. destruct (_ <=? _)%Z; reflexivity. Qed.

Lemma flag_clip_float_lengths x m : array_lengths (flag_clip_float x m) = array_lengths m.
Proof. unfold flag_clip_float. destruct (_ <=? _)%Z; reflexivity. Qed.

Lemma twopass_sample_lengths check ch o j c0_a c0 c1 c2_a c2 ratio_a i m :
  array_lengths (twopass_sample check ch o j c0_a c0 c1 c2_a c2 ratio_a i m)
  = array_lengths m.
Proof.
  unfold twopass_sample.
  set (m1 := if check then _ else m).
  assert (E : array_lengths m1 = array_lengths m).
  { subst m1. destruct check; [apply flag_clip_lengths|reflexivity]. }
  rewrite <- E. clearbody m1. unfold array_lengths, with_fs. cbn [fs].
  pose proof (section_step_length (buf_a (fs m1)) ch o c0_a c1 c2_a
                (inject_Z (get2Z (io_in (io m)) ch i))) as La.
  destruct (section_step (buf_a (fs m1)) _ _ _ _ _ _) as [ba fa]. cbn [fst] in La.
  pose proof (section_step_length (buf (fs m1)) ch o c0 c1 c2 fa) as Lb.
  destruct (section_step (buf (fs m1)) _ _ _ _ _ _) as [b fb]. cbn [fst] in Lb.
  cbn [buf buf_a filter_out fs_set_filter_out fs_set_buf fs_set_buf_a].
  rewrite length_set2, La, Lb. reflexivity.
Qed.

Lemma onepass_sample_lengths ch o j c0 c1 c2 i m :
  array_lengths (onepass_sample ch o j c0 c1 c2 i m) = array_lengths m.
Proof.
  unfold onepass_sample. rewrite <- (flag_clip_float_lengths (get2Z (io_in (io m)) ch i) m).
  unfold array_lengths, with_fs.
  cbn [fs buf buf_a filter_out fs_set_filter_out fs_set_buf].
  rewrite !length_set2. reflexivity.
Qed.

Lemma bpre_sample_lengths ch o j c0 c1 c2 i m :
  array_lengths (bpre_sample ch o j c0 c1 c2 i m) = array_lengths m.
Proof.
  unfold bpre_sample. rewrite <- (flag_clip_lengths (get2Z (io_in (io m)) ch i) m).
  unfold array_lengths, with_fs.
  cbn [fs buf buf_a filter_out fs_set_filter_out fs_set_buf].
  rewrite !length_set2. reflexivity.
Qed.

Lemma glide_voct_lengths ch v m : array_lengths (glide_voct ch v m) = array_lengths m.
Proof. unfold glide_voct. destruct (GLIDE_SWITCH (io m)); reflexivity. Qed.

Lemma twopass_channel_lengths ch m :
  array_lengths (twopass_channel ch m) = array_lengths m.
Proof.
  unfold twopass_channel. cbv zeta.
  match goal with |- context [if ?c then _ else _] => destruct c end.
  - rewrite glide_voct_lengths.
    rewrite for_loop_frame by (intros; apply twopass_sample_lengths).
    change (array_lengths (set_voct ?c ?v ?x)) with (array_lengths x).
    rewrite for_loop_frame by (intros; apply twopass_sample_lengths).
    reflexivity.
  - change (array_lengths (set_voct ?c ?v ?x)) with (array_lengths x).
    rewrite for_loop_frame by (intros; apply twopass_sample_lengths).
    reflexivity.
Qed.

Lemma onepass_slot_lengths j m : array_lengths (onepass_slot j m) = array_lengths m.
Proof.
  unfold onepass_slot. cbv zeta.
  destruct (slot_active j m); [|reflexivity].
  destruct (NUM_CHANNELS <=? j)%nat; [rewrite glide_voct_lengths|];
    (rewrite for_loop_frame by (intros; apply onepass_sample_lengths));
    destruct (j <? NUM_CHANNELS)%nat; reflexivity.
Qed.

Lemma bpre_slot_lengths j m : array_lengths (bpre_slot j m) = array_lengths m.
Proof.
  unfold bpre_slot. cbv zeta.
  destruct (slot_active j m); [|reflexivity].
  destruct (NUM_CHANNELS <=? j)%nat; [rewrite glide_voct_lengths|];
    (rewrite for_loop_frame by (intros; apply bpre_sample_lengths));
    destruct (j <? NUM_CHANNELS)%nat; reflexivity.
Qed.

Lemma run_algorithm_lengths (a : Algorithm) (m : Filter) :
  array_lengths (run_algorithm a m) = array_lengths m.
Proof.
  destruct a; unfold run_algorithm.
  - unfold filter_twopass. cbv zeta.
    rewrite for_loop_frame by (intros; apply twopass_channel_lengths). reflexivity.
  - unfold filter_onepass. cbv zeta.
    rewrite for_loop_frame by (intros; apply onepass_slot_lengths). reflexivity.
  - unfold filter_bpre. cbv zeta.
    rewrite for_loop_frame by (intros; apply bpre_slot_lengths). reflexivity.
Qed.
End ArrayLengths.

(** ** Across blocks *)

Section BlockHistory.
Context `{Dims} `{Tables} `{Collaborators}.

Lemma process_scale_bank_lengths (m : Filter) :
  length (scale_bank (fs (process_scale_bank m))) = length (scale_bank (fs m)) /\
  length (old_scale_bank (fs (process_scale_bank m))) = length (old_scale_bank (fs m)) /\
  length (scale (fs (process_scale_bank m))) = length (scale (fs m)) /\
  length (buf (fs (process_scale_bank m))) = length (buf (fs m)).
Proof.
  rewrite fs_process_scale_bank.
  set (P := fun s : FilterSt =>
    (length (scale_bank s), length (old_scale_bank s), length (scale s), length (buf s))).
  assert (E : P (for_loop NUM_CHANNELS (scale_bank_channel (USER_SCALE_CHANGED (io m))) (fs m))
              = P (fs m)).
  { apply for_loop_frame. intros k acc.
    destruct (scale_bank_channel_lengths (USER_SCALE_CHANGED (io m)) k acc) as (A & B & C & D).
    unfold P. rewrite A, B, C, D. reflexivity. }
  unfold P in E. tuple_inv E. repeat split; assumption.
Qed.

Lemma apply_pending_type_arrays (m : Filter) :
  bank_state (fs (apply_pending_type m)) = bank_state (fs m) /\
  buf (fs (apply_pending_type m)) = buf (fs m) /\
  io (apply_pending_type m) = io m.
Proof.
  unfold apply_pending_type. destruct (filter_type_changed (fs m)); repeat split.
Qed.

Lemma clear_change_flags_arrays (m : Filter) :
  bank_state (fs (clear_change_flags m)) = bank_state (fs m) /\
  buf (fs (clear_change_flags m)) = buf (fs m) /\
  USER_SCALE_CHANGED (io (clear_change_flags m)) = false.
Proof. repeat split. Qed.

Lemma inputs_bank_state (m m' : Filter) :
  filter_inputs m' = filter_inputs m -> bank_state (fs m') = bank_state (fs m).
Proof.
  intros E. destruct (filter_inputs_inv _ _ E) as (C & _).
  unfold fs_config in C. tuple_inv C. unfold bank_state. congruence.
Qed.

Lemma fs_block_prepared (m : Filter) :
  fs (block_prepared m) = fs (process_scale_bank (apply_pending_type m)).
Proof. reflexivity. Qed.

(** The index arrays a block leaves are those its resolver left; the
    history it leaves is the one its filter left. *)
Lemma process_audio_block_arrays (m : Filter) :
  bank_state (fs (process_audio_block m))
    = bank_state (fs (process_scale_bank (apply_pending_type m))) /\
  buf (fs (process_audio_block m)) = buf (fs (block_filtered m)) /\
  length (buf (fs (process_audio_block m))) = length (buf (fs m)) /\
  USER_SCALE_CHANGED (io (process_audio_block m)) = false.
Proof.
  rewrite process_audio_block_unfold.
  match goal with |- context [clear_change_flags ?x] =>
    destruct (clear_change_flags_arrays x) as (A1 & A2 & A3); rewrite A1, A2, A3;
    clear A1 A2 A3 end.
  match goal with |- context [for_loop NUM_CHANNELS level_cell ?x] =>
    rewrite (proj1 (level_loop_frame x)) end.
  match goal with |- context [morph_blend ?x] =>
    rewrite (proj1 (morph_blend_frame x)) end.
  rewrite fs_with_rotation.
  assert (Eb : bank_state (fs (block_filtered m))
               = bank_state (fs (process_scale_bank (apply_pending_type m)))).
  { unfold block_filtered, run_filter. cbv zeta. fold (block_prepared m).
    rewrite (inputs_bank_state _ _ (run_algorithm_inputs
               (selected_algorithm (fs (block_prepared m))) (block_prepared m))).
    rewrite fs_block_prepared. reflexivity. }
  assert (El : length (buf (fs (block_filtered m))) = length (buf (fs m))).
  { unfold block_filtered, run_filter. cbv zeta. fold (block_prepared m).
    pose proof (run_algorithm_lengths (selected_algorithm (fs (block_prepared m)))
                  (block_prepared m)) as E.
    unfold array_lengths in E. tuple_inv E.
    rewrite fs_block_prepared in *.
    destruct (process_scale_bank_lengths (apply_pending_type m)) as (_ & _ & _ & L).
    destruct (apply_pending_type_arrays m) as (_ & B & _). congruence. }
  repeat split; assumption.
Qed.

(** X7.  When a block ends no channel is due for a reset: the next
    [process_scale_bank], if no bank change, filter-type request or user-scale
    update arrives in between, leaves every channel's history exactly as
    the block's filter wrote it. *)
Theorem history_survives_to_next_block (m : Filter) (i : nat) :
  channels_present (fs m) -> (i < NUM_CHANNELS)%nat ->
  let m1 := process_audio_block m in
  reset_due m1 i = false /\
  row (buf (fs (process_scale_bank m1))) i = row (buf (fs m1)) i /\
  buf (fs m1) = buf (fs (block_filtered m)).
Proof.
  intros (Lsb & Lo & Ls & Lb) Hi. cbv zeta.
  destruct (process_audio_block_arrays m) as (Ebank & Ebuf & Elen & Eusc).
  destruct (process_audio_block_type_state m) as (_ & Eflag).
  destruct (apply_pending_type_arrays m) as (Ea & _ & _).
  unfold bank_state in Ebank, Ea. tuple_inv Ebank. tuple_inv Ea.
  set (m0 := apply_pending_type m) in *.
  assert (L0 : length (scale_bank (fs m0)) = NUM_CHANNELS) by congruence.
  assert (L0' : length (old_scale_bank (fs m0)) = NUM_CHANNELS) by congruence.
  pose proof (process_scale_bank_resolved m0 i L0 L0' Hi) as Eres.
  pose proof (process_scale_bank_bank m0 i L0 Hi) as Ecl.
  destruct (process_scale_bank_lengths m0) as (P1 & P2 & P3 & _).
  assert (Hdue : reset_due (process_audio_block m) i = false).
  { unfold reset_due. rewrite Eflag, Eusc.
    replace (scale_bank (fs (process_audio_block m)))
      with (scale_bank (fs (process_scale_bank m0))) by congruence.
    replace (old_scale_bank (fs (process_audio_block m)))
      with (old_scale_bank (fs (process_scale_bank m0))) by congruence.
    rewrite Eres, Ecl, clamp_scale_bank_idem, Z.eqb_refl. reflexivity. }
  split; [exact Hdue|]. split; [|exact Ebuf].
  destruct (channel_loop_spec (USER_SCALE_CHANGED (io (process_audio_block m)))
              (fs (process_audio_block m)) NUM_CHANNELS) as (_ & _ & _ & Lo').
  { replace (scale_bank (fs (process_audio_block m)))
      with (scale_bank (fs (process_scale_bank m0))) by congruence.
    rewrite P1, L0. lia. }
  { replace (scale (fs (process_audio_block m)))
      with (scale (fs (process_scale_bank m0))) by congruence.
    rewrite P3. replace (scale (fs m0)) with (scale (fs m)) by congruence.
    rewrite Ls. lia. }
  { rewrite Elen, Lb. lia. }
  destruct (Lo' i Hi) as (_ & _ & Eb).
  rewrite <- fs_process_scale_bank in Eb.
  unfold reset_due in Hdue. rewrite Hdue in Eb.
  unfold row at 1. rewrite Eb. reflexivity.
Qed.
End BlockHistory.

Lemma history_survives_to_next_block_witness :
  let m1 := @process_audio_block tiny_dims flat_tables still_collaborators
              (@resting_filter tiny_dims 1%Q) in
  @reset_due tiny_dims m1 2 = false /\
  row (buf (fs (@process_scale_bank tiny_dims m1))) 2 = row (buf (fs m1)) 2 /\
  buf (fs m1)
    = buf (fs (@block_filtered tiny_dims flat_tables still_collaborators
                 (@resting_filter tiny_dims 1%Q))).
Proof.
  apply (@history_survives_to_next_block tiny_dims flat_tables still_collaborators
           (@resting_filter tiny_dims 1%Q) 2).
  - repeat split.
  - unfold NUM_CHANNELS. lia.
Defined.

(** ** Table subscripts stay inside the tables *)

Section TableSubscripts.
Local Open Scope Q_scope.

Lemma div_1_4 (x : Q) : x / 1.4 == x * (5 # 7).
Proof. unfold Qdiv. apply Qmult_comp; reflexivity. Qed.

Lemma to_index_bounds (x : Q) (lo hi : Z) :
  (0 <= lo)%Z -> inject_Z lo <= x -> x <= inject_Z hi ->
  (lo <= Z.of_nat (to_index x) <= hi)%Z.
Proof.
  intros Hlo Hx1 Hx2. unfold to_index.
  pose proof (Qfloor_resp_le _ _ Hx1) as F1. pose proof (Qfloor_resp_le _ _ Hx2) as F2.
  rewrite Qfloor_Z in F1, F2. lia.
Qed.

Lemma twopass_qval_a_range (qcv : Q) :
  0 <= qcv -> 0 <= twopass_qval_a qcv <= 4095.
Proof.
  intros Hq. unfold twopass_qval_a, Qgtb. cbv zeta.
  destruct (Qltb 4095 (qcv * 2)) eqn:E.
  - split; lra.
  - apply Qltb_ge in E. split; lra.
Qed.

Lemma twopass_qval_b_range (qcv old : Q) :
  qcv <= 4095 -> 1000 <= twopass_qval_b qcv old <= 3925.
Proof.
  intros Hq. unfold twopass_qval_b, Qgeb.
  destruct (Qltb qcv 3900) eqn:E.
  - split; lra.
  - apply Qltb_ge in E. rewrite (proj2 (Qle_bool_iff _ _) E). split; lra.
Qed.

(** X8.  For a Q control value in 0..4095 the two-pass and single-pass
    algorithms read [exp_4096] only at subscripts 200..3125 and the
    two-pass algorithm reads [twopass_calibration] only at subscripts
    100..3025; the Q value of the second section stays within
    1000..3925. *)
Theorem table_subscripts_in_range (qcval : Z) (old : Q) :
  (0 <= qcval <= 4095)%Z ->
  let qcv := inject_Z qcval in
  (200 <= to_index (twopass_qval_a qcv / 1.4) + 200 <= 3125)%nat /\
  (200 <= to_index (twopass_qval_b qcv old / 1.4) + 200 <= 3125)%nat /\
  (200 <= to_index (qcv / 1.4) + 200 <= 3125)%nat /\
  (100 <= to_index (twopass_qval_b qcv old - 900) <= 3025)%nat /\
  1000 <= twopass_qval_b qcv old <= 3925.
Proof.
  intros (H0 & H1) qcv.
  assert (Hq0 : 0 <= qcv) by (unfold qcv; rewrite <- (Zle_Qle 0); exact H0).
  assert (Hq1 : qcv <= 4095) by (unfold qcv; rewrite <- (Zle_Qle _ 4095); exact H1).
  destruct (twopass_qval_a_range qcv Hq0) as (A0 & A1).
  destruct (twopass_qval_b_range qcv old Hq1) as (B0 & B1).
  split; [|split; [|split; [|split]]].
  - pose proof (to_index_bounds (twopass_qval_a qcv / 1.4) 0 2925 ltac:(lia)) as E.
    destruct E as (E0 & E1); [rewrite div_1_4; unfold inject_Z; lra..|]. lia.
  - pose proof (to_index_bounds (twopass_qval_b qcv old / 1.4) 0 2925 ltac:(lia)) as E.
    destruct E as (E0 & E1); [rewrite div_1_4; unfold inject_Z; lra..|]. lia.
  - pose proof (to_index_bounds (qcv / 1.4) 0 2925 ltac:(lia)) as E.
    destruct E as (E0 & E1); [rewrite div_1_4; unfold inject_Z; lra..|]. lia.
  - pose proof (to_index_bounds (twopass_qval_b qcv old - 900) 100 3025 ltac:(lia)) as E.
    destruct E as (E0 & E1); [unfold inject_Z; lra..|]. lia.
  - split; assumption.
Qed.
End TableSubscripts.

Lemma table_subscripts_in_range_witness :
  let qcv := inject_Z 4095 in
  (200 <= to_index (twopass_qval_a qcv / 1.4) + 200 <= 3125)%nat /\
  (200 <= to_index (twopass_qval_b qcv 0 / 1.4) + 200 <= 3125)%nat /\
  (200 <= to_index (qcv / 1.4) + 200 <= 3125)%nat /\
  (100 <= to_index (twopass_qval_b qcv 0 - 900) <= 3025)%nat /\
  (1000 <= twopass_qval_b qcv 0 <= 3925)%Q.
Proof.
  apply (table_subscripts_in_range 4095 0). lia.
Defined.

(** ** The interpolated coefficients stay between the table entries *)

Section BpreBlend.
Context `{Dims} `{Tables}.
Local Open Scope Q_scope.



Lemma nudge_filter_le (filter_num : nat) : (nudge_filter filter_num <= NUM_FILTS)%nat.
Proof.
  unfold nudge_filter. cbv zeta.
  destruct (Nat.ltb_spec NUM_FILTS ((filter_num + 1) mod 256)); lia.
Qed.


(** X10.  The "next note" [filter_bpre] blends with is never beyond note
    [NUM_FILTS]: for a note below [NUM_FILTS] it is the note after it, and
    with at most 20 filters its three coefficients lie in the same row of
    63 floats as the note's. *)
Theorem nudge_filter_in_row (scale_num filter_num k : nat) :
  (NUM_FILTS <= 20)%nat -> (k < 3)%nat ->
  (nudge_filter filter_num <= NUM_FILTS)%nat /\
  ((filter_num < NUM_FILTS)%nat -> nudge_filter filter_num = (filter_num + 1)%nat) /\
  (scale_num * 63 <= scale_num * 63 + nudge_filter filter_num * 3 + k
     < (scale_num + 1) * 63)%nat.
Proof.
  intros Hn Hk. pose proof (nudge_filter_le filter_num) as Hle.
  split; [exact Hle|]. split; [|lia].
  intros Hf. unfold nudge_filter. cbv zeta.
  rewrite Nat.mod_small by lia.
  destruct (Nat.ltb_spec NUM_FILTS (filter_num + 1)); lia.
Qed.
End BpreBlend.


Lemma nudge_filter_in_row_witness :
  (@nudge_filter rainbow_dims 19 <= @NUM_FILTS rainbow_dims)%nat /\
  ((19 < @NUM_FILTS rainbow_dims)%nat -> @nudge_filter rainbow_dims 19 = (19 + 1)%nat) /\
  (10 * 63 <= 10 * 63 + @nudge_filter rainbow_dims 19 * 3 + 2 < (10 + 1) * 63)%nat.
Proof.
  apply (@nudge_filter_in_row rainbow_dims 10 19 2).
  - vm_compute. lia.
  - lia.
Defined.

(** ** Level meter and envelope input *)

Section Levels.
Context `{Dims} `{Tables} `{Collaborators}.
Local Open Scope Q_scope.

Lemma level_cell_unfold (j : nat) (m : Filter) :
  level_cell j m =
  with_envelope (fun e =>
      env_set_preload
        (<[j := if Qgtb (level_blend m j) 0 then level_blend m j else -1 * level_blend m j]>
           (envout_preload e)) e)
    (with_io (fun o =>
       io_set_channelLevel
         (<[j := (level_blend m j * getQ (channel_level (levels m)) j) / CLIP_LEVEL]>
            (channelLevel o)) o) m).
Proof. reflexivity. Qed.

Lemma level_loop_values (m : Filter) (n : nat) :
  let m' := for_loop n level_cell m in
  (fs m' = fs m /\ rotation m' = rotation m /\ levels m' = levels m) /\
  length (envout_preload (envelope m')) = length (envout_preload (envelope m)) /\
  length (channelLevel (io m')) = length (channelLevel (io m)) /\
  (forall k, (k < n)%nat -> (k < length (envout_preload (envelope m)))%nat ->
     envout_preload (envelope m') !! k =
       Some (if Qgtb (level_blend m k) 0 then level_blend m k else -1 * level_blend m k)) /\
  (forall k, (k < n)%nat -> (k < length (channelLevel (io m)))%nat ->
     channelLevel (io m') !! k =
       Some ((level_blend m k * getQ (channel_level (levels m)) k) / CLIP_LEVEL)).
Proof.
  cbv zeta. induction n as [|n IH].
  - rewrite for_loop_0. repeat split; intros; lia.
  - rewrite for_loop_S. destruct IH as ((Ef & Er & El) & Le & Lc & He & Hc).
    set (acc := for_loop n level_cell m) in *. clearbody acc.
    rewrite level_cell_unfold.
    assert (Eb : forall k, level_blend acc k = level_blend m k).
    { intros k. unfold level_blend. rewrite Ef, Er. reflexivity. }
    cbn [fs io rotation levels envelope with_envelope with_io env_set_preload
         io_set_channelLevel envout_preload channelLevel].
    rewrite !length_insert, Eb, El.
    split; [repeat split; assumption|]. split; [exact Le|]. split; [exact Lc|]. split.
    + intros k Hk Hlen. destruct (decide (k = n)) as [->|Hne].
      * rewrite list_lookup_insert_eq by lia. reflexivity.
      * rewrite list_lookup_insert_ne by congruence. apply He; [lia|exact Hlen].
    + intros k Hk Hlen. destruct (decide (k = n)) as [->|Hne].
      * rewrite list_lookup_insert_eq by lia. reflexivity.
      * rewrite list_lookup_insert_ne by congruence. apply Hc; [lia|exact Hlen].
Qed.

Lemma clear_change_flags_levels (m : Filter) :
  envelope (clear_change_flags m) = envelope m /\
  channelLevel (io (clear_change_flags m)) = channelLevel (io m).
Proof. split; reflexivity. Qed.

Lemma morph_blend_levels (m : Filter) :
  envelope (morph_blend m) = envelope m /\
  channelLevel (io (morph_blend m)) = channelLevel (io m).
Proof.
  unfold morph_blend.
  set (P := fun m : Filter => (envelope m, channelLevel (io m))).
  assert (E : P (for_loop NUM_SAMPLES (fun i => for_loop NUM_CHANNELS (morph_cell i)) m) = P m).
  { apply for_loop_frame. intros i acc. apply for_loop_frame. intros j acc'. reflexivity. }
  unfold P in E. tuple_inv E. split; assumption.
Qed.

Lemma rectified (x : Q) : (if Qgtb x 0 then x else -1 * x) == Qabs x.
Proof.
  unfold Qgtb. destruct (Qltb 0 x) eqn:E.
  - apply Qltb_lt in E. rewrite Qabs_pos by lra. reflexivity.
  - apply Qltb_ge in E. rewrite Qabs_neg by exact E. ring.
Qed.

Lemma envelope_with_rotation (f : Rotation -> Rotation) (m : Filter) :
  envelope (with_rotation f m) = envelope m.
Proof. reflexivity. Qed.

Lemma block_prepared_envelope (m : Filter) :
  envelope (block_prepared m) = envelope m.
Proof.
  unfold block_prepared, apply_pending_type. cbv zeta.
  destruct (filter_type_changed (fs m)); reflexivity.
Qed.

Lemma channelLevel_but_clip (o : IO) :
  channelLevel (io_but_clip o) = channelLevel o.
Proof. reflexivity. Qed.

Lemma block_filtered_level_arrays (m : Filter) :
  envout_preload (envelope (block_filtered m)) = envout_preload (envelope m) /\
  channelLevel (io (block_filtered m)) = channelLevel (io m).
Proof.
  unfold block_filtered, run_filter. cbv zeta. fold (block_prepared m).
  destruct (filter_inputs_inv _ _ (run_algorithm_inputs
    (selected_algorithm (fs (block_prepared m))) (block_prepared m)))
    as (_ & Eio & _ & _ & _ & _ & Ee).
  rewrite Ee, block_prepared_envelope. split; [reflexivity|].
  rewrite <- (channelLevel_but_clip (io (run_algorithm _ _))), Eio.
  rewrite channelLevel_but_clip, block_prepared_io. reflexivity.
Qed.

(** The finalizer on the state [mr] it is entered with. *)
Lemma finalizer_levels (mr : Filter) (j : nat) :
  length (envout_preload (envelope mr)) = NUM_CHANNELS ->
  length (channelLevel (io mr)) = NUM_CHANNELS ->
  (j < NUM_CHANNELS)%nat ->
  let m' := clear_change_flags (for_loop NUM_CHANNELS level_cell (morph_blend mr)) in
  level_blend m' j = level_blend mr j /\
  getQ (channel_level (levels m')) j = getQ (channel_level (levels mr)) j /\
  getQ (envout_preload (envelope m')) j
    = (if Qgtb (level_blend mr j) 0 then level_blend mr j else -1 * level_blend mr j) /\
  getQ (channelLevel (io m')) j
    = (level_blend mr j * getQ (channel_level (levels mr)) j) / CLIP_LEVEL.
Proof.
  intros Le Lc Hj. cbv zeta.
  destruct (clear_change_flags_levels (for_loop NUM_CHANNELS level_cell (morph_blend mr)))
    as (C1 & C2).
  destruct (clear_change_flags_fs (for_loop NUM_CHANNELS level_cell (morph_blend mr)))
    as (_ & _ & C3 & C4 & C5 & _).
  destruct (level_loop_frame (morph_blend mr)) as (F1 & R1 & L1 & _).
  cbv zeta in F1, R1, L1.
  destruct (morph_blend_frame mr) as (F2 & R2 & L2 & _).
  destruct (morph_blend_levels mr) as (M1 & M2).
  assert (Eb : forall k, level_blend (morph_blend mr) k = level_blend mr k).
  { intros k. unfold level_blend. rewrite F2, R2. reflexivity. }
  destruct (level_loop_values (morph_blend mr) NUM_CHANNELS)
    as (_ & _ & _ & He & Hc).
  cbv zeta in He, Hc.
  split; [|split; [|split]].
  - unfold level_blend. rewrite C3, C4, F1, R1, F2, R2. reflexivity.
  - rewrite C5, L1, L2. reflexivity.
  - unfold getQ at 1. rewrite C1, (He j Hj) by (rewrite M1, Le; exact Hj).
    cbn [default from_option id]. rewrite Eb. reflexivity.
  - unfold getQ at 1. rewrite C2, (Hc j Hj) by (rewrite M2, Lc; exact Hj).
    cbn [default from_option id]. rewrite Eb, L2. reflexivity.
Qed.

(** X11.  At the end of [process_audio_block], for every channel: the
    envelope input [envout_preload] is the absolute value of the blend of
    sample 0 of the channel's two filter outputs (so it is never negative
    and does not depend on the channel level), and the meter value
    [channelLevel] is the first output sample of the block divided by
    [CLIP_LEVEL]. *)
Theorem envelope_and_meter (m : Filter) (j : nat) :
  out_shape (io_out (io m)) -> (0 < NUM_SAMPLES)%nat ->
  length (envout_preload (envelope m)) = NUM_CHANNELS ->
  length (channelLevel (io m)) = NUM_CHANNELS ->
  (j < NUM_CHANNELS)%nat ->
  let m' := process_audio_block m in
  getQ (envout_preload (envelope m')) j == Qabs (level_blend m' j) /\
  0 <= getQ (envout_preload (envelope m')) j /\
  getQ (channelLevel (io m')) j == get2Q (io_out (io m')) j 0 / CLIP_LEVEL.
Proof.
  intros Hsh Hn Le Lc Hj.
  cbv zeta. rewrite process_audio_block_unfold.
  destruct (block_filtered_level_arrays m) as (A1 & A2).
  assert (Le' : length (envout_preload (envelope
            (with_rotation (update_morph (io (block_filtered m))) (block_filtered m))))
          = NUM_CHANNELS).
  { rewrite envelope_with_rotation, A1. exact Le. }
  assert (Lc' : length (channelLevel (io
            (with_rotation (update_morph (io (block_filtered m))) (block_filtered m))))
          = NUM_CHANNELS).
  { rewrite io_with_rotation, A2. exact Lc. }
  assert (Hsh' : out_shape (io_out (io
            (with_rotation (update_morph (io (block_filtered m))) (block_filtered m))))).
  { rewrite io_with_rotation, (proj1 (block_filtered_io_out m)). exact Hsh. }
  set (mr := with_rotation (update_morph (io (block_filtered m))) (block_filtered m)) in *.
  clearbody mr.
  destruct (finalizer_out mr j 0%nat Hsh' Hj Hn) as (Hout & _). cbv zeta in Hout.
  destruct (finalizer_levels mr j Le' Lc' Hj) as (Eb & El & Ee & Ec).
  cbv zeta in Eb, El, Ee, Ec.
  rewrite Ee, Ec, Eb. split; [apply rectified|]. split.
  - rewrite rectified. apply Qabs_nonneg.
  - rewrite Hout. unfold level_blend in Eb. cbv zeta in Eb.
    change (j + 6)%nat with (j + NUM_CHANNELS)%nat.
    rewrite Eb, El. reflexivity.
Qed.
End Levels.

Lemma envelope_and_meter_witness :
  let m := @resting_filter tiny_dims 1%Q in
  let m' := @process_audio_block tiny_dims flat_tables still_collaborators m in
  (getQ (envout_preload (envelope m')) 2 == Qabs (level_blend m' 2))%Q /\
  (0 <= getQ (envout_preload (envelope m')) 2)%Q /\
  (getQ (channelLevel (io m')) 2 == get2Q (io_out (io m')) 2 0 / @CLIP_LEVEL tiny_dims)%Q.
Proof.
  apply (@envelope_and_meter tiny_dims flat_tables still_collaborators
           (@resting_filter tiny_dims 1%Q) 2).
  - split; [reflexivity|]. intros j Hj. unfold NUM_CHANNELS in Hj.
    do 6 (destruct j as [|j]; [reflexivity|]). lia.
  - vm_compute. lia.
  - reflexivity.
  - reflexivity.
  - unfold NUM_CHANNELS. lia.
Defined.

(** ** Conversion of the input samples *)

Lemma get2Z_set2 (m : list (list Z)) (r c : nat) (v : Z) (k j : nat) :
  (k < length m)%nat -> (j < length (row m k))%nat ->
  get2Z (set2 m r c v) k j = if (r =? k)%nat && (c =? j)%nat then v else get2Z m k j.
Proof.
  intros Hk Hj.
  destruct (Nat.eqb_spec r k) as [->|Hr]; cbn [andb].
  - destruct (Nat.eqb_spec c j) as [->|Hc].
    + apply get2Z_set2_eq; assumption.
    + apply get2Z_set2_ne. right. exact Hc.
  - apply get2Z_set2_ne. left. exact Hr.
Qed.

Lemma Qtrunc_between (x : Q) :
  (0 <= x -> 0 <= inject_Z (Qtrunc x) <= x)%Q /\
  (x <= 0 -> x <= inject_Z (Qtrunc x) <= 0)%Q.
Proof.
  destruct x as [n d]. unfold Qtrunc, Qle, inject_Z. cbn [Qnum Qden].
  rewrite !Z.mul_1_r, !Z.mul_0_l. split; intros Hn.
  - pose proof (Z.quot_pos n (Z.pos d) Hn ltac:(lia)).
    pose proof (Z.mul_quot_le n (Z.pos d) Hn ltac:(lia)). split; lia.
  - pose proof (Z.quot_opp_l n (Z.pos d) ltac:(lia)) as Eo.
    pose proof (Z.quot_pos (- n) (Z.pos d) ltac:(lia) ltac:(lia)).
    pose proof (Z.mul_quot_le (- n) (Z.pos d) ltac:(lia) ltac:(lia)). split; lia.
Qed.

Lemma clamp_between (x lo hi : Q) : (lo <= hi -> lo <= clamp x lo hi <= hi)%Q.
Proof.
  intros Hlh. unfold clamp, Qgtb.
  destruct (Qltb x lo) eqn:E1; [split; lra|]. apply Qltb_ge in E1.
  destruct (Qltb hi x) eqn:E2; [split; lra|]. apply Qltb_ge in E2. split; lra.
Qed.

Section InputConversion.
Context `{Dims} `{Host}.
Local Open Scope Q_scope.

(** X12.  The sample [resampleInput] stores for a converted frame lies
    within the 12-bit bounds, whatever the frame holds, as long as the
    bounds have zero between them: it is the frame scaled by [MAX_12BIT],
    cut to the bounds and truncated toward zero. *)
Theorem to_12bit_in_range (x : Q) :
  MIN_12BIT <= 0 -> 0 <= MAX_12BIT ->
  MIN_12BIT <= inject_Z (to_12bit x) <= MAX_12BIT /\
  (MIN_12BIT <= x * MAX_12BIT <= MAX_12BIT ->
     Qabs (inject_Z (to_12bit x)) <= Qabs (x * MAX_12BIT)).
Proof.
  intros Hlo Hhi. unfold to_12bit.
  assert (Hlh : MIN_12BIT <= MAX_12BIT) by (apply Qle_trans with 0; assumption).
  pose proof (clamp_between (x * MAX_12BIT) MIN_12BIT MAX_12BIT Hlh) as Hc.
  destruct (Qtrunc_between (clamp (x * MAX_12BIT) MIN_12BIT MAX_12BIT)) as (Hp & Hn).
  split.
  - destruct (Qlt_le_dec (clamp (x * MAX_12BIT) MIN_12BIT MAX_12BIT) 0) as [Hneg|Hpos].
    + specialize (Hn ltac:(lra)). split; lra.
    + specialize (Hp Hpos). split; lra.
  - intros Hin.
    assert (Ec : clamp (x * MAX_12BIT) MIN_12BIT MAX_12BIT = x * MAX_12BIT).
    { unfold clamp, Qgtb.
      destruct (Qltb (x * MAX_12BIT) MIN_12BIT) eqn:E1; [apply Qltb_lt in E1; lra|].
      destruct (Qltb MAX_12BIT (x * MAX_12BIT)) eqn:E2; [apply Qltb_lt in E2; lra|].
      reflexivity. }
    rewrite Ec in Hp, Hn. rewrite Ec.
    destruct (Qlt_le_dec (x * MAX_12BIT) 0) as [Hneg|Hpos].
    + specialize (Hn ltac:(lra)). rewrite !Qabs_neg by lra. lra.
    + specialize (Hp Hpos). rewrite !Qabs_pos by lra. lra.
Qed.

(** *** The rows fed by each lane *)

Lemma store_lane_sample_lengths (inCh i j : nat) (v : Z) (tin : list (list Z)) :
  length (store_lane_sample inCh i j v tin) = length tin /\
  forall k, length (row (store_lane_sample inCh i j v tin) k) = length (row tin k).
Proof.
  unfold store_lane_sample.
  destruct inCh as [|[|[|[|n]]]]; split; intros;
    rewrite ?length_set2, ?length_row_set2; reflexivity.
Qed.

Lemma store_lane_sample_cell (inCh i j : nat) (v : Z) (tin : list (list Z)) (k c : nat) :
  (k < length tin)%nat -> (c < length (row tin k))%nat ->
  get2Z (store_lane_sample inCh i j v tin) k c
  = if lane_written inCh i k && (j =? c)%nat then v else get2Z tin k c.
Proof.
  intros Hk Hc. unfold store_lane_sample, lane_written.
  destruct inCh as [|[|[|[|n]]]];
    rewrite ?get2Z_set2 by (rewrite ?length_set2, ?length_row_set2; assumption);
    rewrite ?(Nat.eqb_sym k);
    repeat match goal with
    | |- context [(?a =? ?b)%nat] => destruct (Nat.eqb_spec a b)
    end; cbn [andb orb]; try reflexivity; try lia.
Qed.

Lemma store_lane_loop (inCh : nat) (frames : list Q) (i : nat) (tin : list (list Z)) (n : nat) :
  let t' := for_loop n
              (fun j tin => store_lane_sample inCh i j (to_12bit (getQ frames j)) tin) tin in
  length t' = length tin /\
  (forall k, length (row t' k) = length (row tin k)) /\
  (forall k c, (k < length tin)%nat -> (c < length (row tin k))%nat ->
     get2Z t' k c = if lane_written inCh i k && (c <? n)%nat
                    then to_12bit (getQ frames c) else get2Z tin k c).
Proof.
  cbv zeta. induction n as [|n IH].
  - rewrite for_loop_0. split; [reflexivity|]. split; [reflexivity|].
    intros k c _ _. rewrite andb_false_r. reflexivity.
  - rewrite for_loop_S. destruct IH as (L1 & L2 & Hcell).
    set (acc := for_loop n _ tin) in *. clearbody acc.
    destruct (store_lane_sample_lengths inCh i n (to_12bit (getQ frames n)) acc) as (S1 & S2).
    split; [congruence|]. split; [intros k; rewrite S2; apply L2|].
    intros k c Hk Hc.
    rewrite store_lane_sample_cell by (rewrite ?L1, ?L2; assumption).
    rewrite Hcell by assumption.
    destruct (lane_written inCh i k); cbn [andb]; [|reflexivity].
    destruct (Nat.eqb_spec n c) as [->|Hne].
    + destruct (Nat.ltb_spec c (S c)); [reflexivity|lia].
    + destruct (Nat.ltb_spec c n), (Nat.ltb_spec c (S n)); try lia; reflexivity.
Qed.

Lemma feeding_lane_lt (inCh : nat) (active : nat -> bool) (n k l : nat) :
  feeding_lane inCh active n k = Some l -> (l < n)%nat.
Proof.
  induction n as [|n IH]; cbn [feeding_lane]; [discriminate|].
  destruct (active n && lane_written inCh n k).
  - intros E. injection E as <-. lia.
  - intros E. specialize (IH E). lia.
Qed.

Lemma feeding_lane_ext (inCh : nat) (f g : nat -> bool) (n k : nat) :
  (forall i, (i < n)%nat -> f i = g i) ->
  feeding_lane inCh f n k = feeding_lane inCh g n k.
Proof.
  induction n as [|n IH]; intros Hfg; [reflexivity|].
  cbn [feeding_lane]. rewrite (Hfg n) by lia. rewrite IH by (intros; apply Hfg; lia).
  reflexivity.
Qed.
End InputConversion.

Lemma to_12bit_in_range_witness :
  (@MIN_12BIT tiny_dims <= inject_Z (@to_12bit tiny_dims (1 # 5)) <= @MAX_12BIT tiny_dims)%Q /\
  ((@MIN_12BIT tiny_dims <= (1 # 5) * @MAX_12BIT tiny_dims <= @MAX_12BIT tiny_dims)%Q ->
     (Qabs (inject_Z (@to_12bit tiny_dims (1 # 5))) <= Qabs ((1 # 5) * @MAX_12BIT tiny_dims))%Q).
Proof.
  apply (@to_12bit_in_range tiny_dims (1 # 5)); vm_compute; discriminate.
Defined.

(** ** The rows of the engine input after [resampleInput] *)

Section InputRows.
Context `{Dims} `{Host}.

Lemma lane_active_row (a a' : Audio) (i : nat) :
  row (nInputBuffer a') i = row (nInputBuffer a) i -> lane_active a' i = lane_active a i.
Proof. unfold lane_active. intros ->. reflexivity. Qed.

(** One lane: what it leaves alone, and the store it makes. *)
Lemma resample_lane_spec (i : nat) (a : Audio) (main : Filter) :
  let r := resample_lane i (a, main) in
  inChannels (fst r) = inChannels a /\
  length (nInputSrc (fst r)) = length (nInputSrc a) /\
  (forall l, l <> i ->
     row (nInputFrames (fst r)) l = row (nInputFrames a) l /\
     row (nInputBuffer (fst r)) l = row (nInputBuffer a) l) /\
  (lane_active a i = false -> r = (a, main)) /\
  (lane_active a i = true -> (i < length (nInputSrc a))%nat ->
     io_in (io (snd r))
     = store_lane (inChannels a) (row (nInputFrames (fst r)) i) i (io_in (io main))).
Proof.
  cbv zeta. unfold resample_lane, lane_active.
  destruct (negb (buffer_empty (row (nInputBuffer a) i))) eqn:Ea.
  - destruct (nInputSrc a !! i) as [src|] eqn:Es.
    + destruct (src_process _ _ _) as [[src' inLen] produced].
      cbn [fst snd inChannels nInputSrc nInputFrames nInputBuffer set_nInputSrc
           set_nInputFrames set_nInputBuffer io with_io io_in io_set_in].
      split; [reflexivity|]. split; [apply length_insert|]. split.
      * intros l Hl. unfold row. rewrite !list_lookup_insert_ne by congruence.
        split; reflexivity.
      * split; [discriminate|]. intros _ _. reflexivity.
    + cbn [fst snd]. split; [reflexivity|]. split; [reflexivity|].
      split; [intros; split; reflexivity|]. split; [discriminate|].
      intros _ Hi. apply lookup_ge_None in Es. lia.
  - cbn [fst snd]. split; [reflexivity|]. split; [reflexivity|].
    split; [intros; split; reflexivity|]. split; [reflexivity|discriminate].
Qed.

(** The loop over the lanes, described from the state it is entered with. *)
Lemma resample_loop_rows (a : Audio) (main : Filter) (n : nat) :
  (n <= length (nInputSrc a))%nat ->
  let r := for_loop n resample_lane (a, main) in
  inChannels (fst r) = inChannels a /\
  length (nInputSrc (fst r)) = length (nInputSrc a) /\
  (forall l, (n <= l)%nat ->
     row (nInputFrames (fst r)) l = row (nInputFrames a) l /\
     row (nInputBuffer (fst r)) l = row (nInputBuffer a) l) /\
  length (io_in (io (snd r))) = length (io_in (io main)) /\
  (forall k, length (row (io_in (io (snd r))) k) = length (row (io_in (io main)) k)) /\
  (forall k j, (k < length (io_in (io main)))%nat ->
     (j < length (row (io_in (io main)) k))%nat -> (j < NUM_SAMPLES)%nat ->
     get2Z (io_in (io (snd r))) k j =
       match feeding_lane (inChannels a) (lane_active a) n k with
       | Some l => to_12bit (get2Q (nInputFrames (fst r)) l j)
       | None => get2Z (io_in (io main)) k j
       end).
Proof.
  intros Hn. cbv zeta. induction n as [|n IH].
  - rewrite for_loop_0. cbn [fst snd feeding_lane].
    repeat split; intros; reflexivity.
  - rewrite for_loop_S. destruct (IH ltac:(lia)) as (Ei & Es & Hrows & L1 & L2 & Hcell).
    destruct (for_loop n resample_lane (a, main)) as [an mn]. cbn [fst snd] in *.
    destruct (resample_lane_spec n an mn) as (Si & Ss & Srows & Soff & Son).
    cbv zeta in Si, Ss, Srows, Soff, Son.
    assert (Eact : lane_active an n = lane_active a n).
    { apply lane_active_row. apply (Hrows n). lia. }
    rewrite Eact in Soff, Son.
    split; [congruence|]. split; [congruence|]. split.
    { intros l Hl. destruct (Srows l ltac:(lia)) as (A & B).
      destruct (Hrows l ltac:(lia)) as (C & D). split; congruence. }
    cbn [feeding_lane].
    destruct (lane_active a n) eqn:Ean.
    + specialize (Son eq_refl ltac:(lia)). rewrite Son, Ei.
      destruct (store_lane_loop (inChannels a) (row (nInputFrames (fst (resample_lane n (an, mn)))) n)
                  n (io_in (io mn)) NUM_SAMPLES) as (T1 & T2 & Tcell).
      cbv zeta in T1, T2, Tcell. fold (store_lane (inChannels a)
        (row (nInputFrames (fst (resample_lane n (an, mn)))) n) n (io_in (io mn))) in T1, T2, Tcell.
      split; [congruence|]. split; [intros k; rewrite T2; apply L2|].
      intros k j Hk Hj Hjn.
      rewrite Tcell by (rewrite ?L1, ?L2; assumption).
      destruct (Nat.ltb_spec j NUM_SAMPLES); [|lia].
      rewrite andb_true_r. cbn [andb].
      destruct (lane_written (inChannels a) n k); [reflexivity|].
      rewrite (Hcell k j Hk Hj Hjn).
      destruct (feeding_lane (inChannels a) (lane_active a) n k) as [l|] eqn:Ef;
        [|reflexivity].
      apply feeding_lane_lt in Ef.
      unfold get2Q. rewrite (proj1 (Srows l ltac:(lia))). reflexivity.
    + rewrite (Soff eq_refl). cbn [fst snd andb].
      split; [exact L1|]. split; [exact L2|]. exact Hcell.
Qed.

Lemma resampleInput_rows (a : Audio) (main : Filter) (k j : nat) :
  length (nInputSrc a) = NUM_CHANNELS ->
  (k < length (io_in (io main)))%nat ->
  (j < length (row (io_in (io main)) k))%nat -> (j < NUM_SAMPLES)%nat ->
  get2Z (io_in (io (snd (resampleInput (a, main))))) k j =
    match feeding_lane (inChannels a) (lane_active a) NUM_CHANNELS k with
    | Some l => to_12bit (get2Q (nInputFrames (fst (resampleInput (a, main)))) l j)
    | None => get2Z (io_in (io main)) k j
    end.
Proof.
  intros Hs Hk Hj Hjn. unfold resampleInput.
  destruct (resample_loop_rows a main NUM_CHANNELS ltac:(lia)) as (_ & _ & _ & _ & _ & Hcell).
  apply Hcell; assumption.
Qed.

(** X13.  The engine input after [resampleInput], when the lanes below
    [inChannels] hold frames and the others are drained, row by row
    ([frames l] is the converted sample of lane [l]):
    - two lanes: row [k] holds lane [k mod 2], on all six rows;
    - three lanes: rows 0, 1, 2 hold lanes 0, 1, 2, row 3 holds lane 2 and
      rows 4 and 5 keep what they held;
    - six lanes: row [k] holds lane [k]. *)
Theorem resampleInput_mapping (a : Audio) (main : Filter) (k j : nat) :
  length (nInputSrc a) = NUM_CHANNELS ->
  length (io_in (io main)) = NUM_CHANNELS ->
  (forall i, (i < NUM_CHANNELS)%nat -> lane_active a i = (i <? inChannels a)%nat) ->
  (k < NUM_CHANNELS)%nat ->
  (j < length (row (io_in (io main)) k))%nat -> (j < NUM_SAMPLES)%nat ->
  let r := resampleInput (a, main) in
  let frames l := to_12bit (get2Q (nInputFrames (fst r)) l j) in
  (inChannels a = 2%nat -> get2Z (io_in (io (snd r))) k j = frames (k mod 2)%nat) /\
  (inChannels a = 3%nat ->
     get2Z (io_in (io (snd r))) k j =
       if (k <? 3)%nat then frames k
       else if (k =? 3)%nat then frames 2%nat
       else get2Z (io_in (io main)) k j) /\
  (inChannels a = 6%nat -> get2Z (io_in (io (snd r))) k j = frames k).
Proof.
  intros Hs Hin Hact Hk Hj Hjn. cbv zeta.
  rewrite (resampleInput_rows a main k j Hs ltac:(lia) Hj Hjn).
  rewrite (feeding_lane_ext (inChannels a) (lane_active a)
             (fun i => (i <? inChannels a)%nat) NUM_CHANNELS k Hact).
  unfold NUM_CHANNELS in *.
  split; [|split]; intros ->;
    do 6 (destruct k as [|k]; [reflexivity|]); lia.
Qed.
End InputRows.

Lemma resampleInput_mapping_witness :
  let a := @populateInputBuffer passthrough_host {| in_voltages := [1%Q; 2%Q; 3%Q] |}
             (select_channels (fresh_audio 3)) in
  let r := @resampleInput tiny_dims passthrough_host (a, marked_main) in
  let frames l := @to_12bit tiny_dims (get2Q (nInputFrames (fst r)) l 0) in
  (inChannels a = 2%nat -> get2Z (io_in (io (snd r))) 3 0 = frames (3 mod 2)%nat) /\
  (inChannels a = 3%nat ->
     get2Z (io_in (io (snd r))) 3 0 =
       if (3 <? 3)%nat then frames 3%nat
       else if (3 =? 3)%nat then frames 2%nat
       else get2Z (io_in (io marked_main)) 3 0) /\
  (inChannels a = 6%nat -> get2Z (io_in (io (snd r))) 3 0 = frames 3%nat).
Proof.
  apply (@resampleInput_mapping tiny_dims passthrough_host
           (@populateInputBuffer passthrough_host {| in_voltages := [1%Q; 2%Q; 3%Q] |}
              (select_channels (fresh_audio 3))) marked_main 3 0).
  - vm_compute. reflexivity.
  - vm_compute. reflexivity.
  - intros i Hi. unfold NUM_CHANNELS in Hi.
    do 6 (destruct i as [|i]; [vm_compute; reflexivity|]). lia.
  - unfold NUM_CHANNELS. lia.
  - vm_compute. lia.
  - vm_compute. lia.
Defined.

(** ** Buffering of the host input *)

Section InputBuffering.
Context `{Dims} `{Host}.
Local Open Scope Q_scope.

Lemma generateNoise_buffers (a : Audio) :
  inputChannels (snd (generateNoise a)) = inputChannels a /\
  inChannels (snd (generateNoise a)) = inChannels a /\
  nInputBuffer (snd (generateNoise a)) = nInputBuffer a /\
  nInputFrame (snd (generateNoise a)) = nInputFrame a.
Proof.
  unfold generateNoise.
  destruct (noiseSelected a) as [|[p|[p|p|]|]|p];
    first [destruct (brown_next (brown a)) | idtac];
    first [destruct (pink_next (pink a)) | idtac];
    first [destruct (white_next (white a)) | idtac]; repeat split; reflexivity.
Qed.

(** One lane of [populateInputBuffer]. *)
Lemma populate_lane_spec (input : Input) (i : nat) (a : Audio) :
  (i < length (nInputBuffer a))%nat -> (i < length (nInputFrame a))%nat ->
  let a' := populate_lane input i a in
  (inputChannels a' = inputChannels a /\ inChannels a' = inChannels a /\
   length (nInputBuffer a') = length (nInputBuffer a) /\
   length (nInputFrame a') = length (nInputFrame a)) /\
  (forall l, l <> i ->
     row (nInputBuffer a') l = row (nInputBuffer a) l /\
     nInputFrame a' !! l = nInputFrame a !! l) /\
  (buffer_full (row (nInputBuffer a) i) = true -> a' = a) /\
  (buffer_full (row (nInputBuffer a) i) = false ->
     row (nInputBuffer a') i = row (nInputBuffer a) i ++ [getQ (nInputFrame a') i] /\
     (inputChannels a = 1%Z -> getQ (nInputFrame a') i = getVoltage input 0 / 5) /\
     (inputChannels a <> 0%Z -> inputChannels a <> 1%Z ->
        getQ (nInputFrame a') i = getVoltage input i / 5)).
Proof.
  intros Hb Hf. cbv zeta. unfold populate_lane.
  destruct (buffer_full (row (nInputBuffer a) i)) eqn:Efull; cbn [negb].
  { split; [repeat split; reflexivity|]. split; [intros; split; reflexivity|].
    split; [reflexivity|discriminate]. }
  destruct (Z.eqb_spec (inputChannels a) 0) as [E0|N0].
  - destruct (generateNoise_buffers a) as (G1 & G2 & G3 & G4).
    destruct (generateNoise a) as [nO a1]. cbn [snd] in G1, G2, G3, G4.
    cbn [inputChannels inChannels nInputBuffer nInputFrame set_nInputFrame set_nInputBuffer].
    rewrite G1, G2, G3, G4, !length_insert.
    split; [repeat split; reflexivity|]. split.
    { intros l Hl. unfold row. rewrite !list_lookup_insert_ne by congruence.
      split; reflexivity. }
    split; [discriminate|]. intros _. split.
    + unfold row at 1. rewrite list_lookup_insert_eq by exact Hb. reflexivity.
    + split; [intros E1; congruence|intros N0 _; congruence].
  - destruct (Z.eqb_spec (inputChannels a) 1) as [E1|N1];
      cbn [inputChannels inChannels nInputBuffer nInputFrame set_nInputFrame set_nInputBuffer];
      rewrite !length_insert;
      (split; [repeat split; reflexivity|]);
      (split; [intros l Hl; unfold row; rewrite !list_lookup_insert_ne by congruence;
               split; reflexivity|]);
      (split; [discriminate|]); intros _;
      (split; [unfold row at 1; rewrite list_lookup_insert_eq by exact Hb; reflexivity|]);
      unfold getQ; rewrite !list_lookup_insert_eq by exact Hf;
      cbn [default from_option id]; split; intros; try reflexivity; congruence.
Qed.

Lemma populate_loop_spec (input : Input) (a : Audio) (n : nat) :
  (n <= length (nInputBuffer a))%nat -> (n <= length (nInputFrame a))%nat ->
  let a' := for_loop n (populate_lane input) a in
  (inputChannels a' = inputChannels a /\ inChannels a' = inChannels a /\
   length (nInputBuffer a') = length (nInputBuffer a) /\
   length (nInputFrame a') = length (nInputFrame a)) /\
  (forall l, (n <= l)%nat ->
     row (nInputBuffer a') l = row (nInputBuffer a) l /\
     nInputFrame a' !! l = nInputFrame a !! l) /\
  (forall l, (l < n)%nat ->
     if buffer_full (row (nInputBuffer a) l)
     then row (nInputBuffer a') l = row (nInputBuffer a) l /\
          nInputFrame a' !! l = nInputFrame a !! l
     else row (nInputBuffer a') l = row (nInputBuffer a) l ++ [getQ (nInputFrame a') l] /\
          (inputChannels a = 1%Z -> getQ (nInputFrame a') l = getVoltage input 0 / 5) /\
          (inputChannels a <> 0%Z -> inputChannels a <> 1%Z ->
             getQ (nInputFrame a') l = getVoltage input l / 5)).
Proof.
  intros Hb Hf. cbv zeta. induction n as [|n IH].
  - rewrite for_loop_0. split; [repeat split; reflexivity|].
    split; [intros; split; reflexivity|]. intros l Hl. lia.
  - rewrite for_loop_S.
    destruct (IH ltac:(lia) ltac:(lia)) as ((I1 & I2 & I3 & I4) & Hhi & Hlo).
    set (acc := for_loop n (populate_lane input) a) in *. clearbody acc.
    destruct (populate_lane_spec input n acc ltac:(lia) ltac:(lia))
      as ((P1 & P2 & P3 & P4) & Poth & Pfull & Ppush).
    cbv zeta in P1, P2, P3, P4, Poth, Pfull, Ppush.
    destruct (Hhi n ltac:(lia)) as (Hn1 & Hn2). rewrite Hn1 in Pfull, Ppush.
    split; [repeat split; congruence|]. split.
    { intros l Hl. destruct (Poth l ltac:(lia)) as (A & B).
      destruct (Hhi l ltac:(lia)) as (C & D). split; congruence. }
    intros l Hl. destruct (decide (l = n)) as [->|Hne].
    + destruct (buffer_full (row (nInputBuffer a) n)).
      * rewrite (Pfull eq_refl). split; assumption.
      * destruct (Ppush eq_refl) as (Q1 & Q2 & Q3). rewrite I1 in Q2, Q3.
        split; [exact Q1|]. split; assumption.
    + specialize (Hlo l ltac:(lia)). destruct (Poth l Hne) as (A & B).
      unfold getQ in *. rewrite A, B. exact Hlo.
Qed.

(** X14.  [populateInputBuffer] pushes exactly one frame on every lane
    below [inChannels] that is not full and leaves every other lane as it
    was.  With one connected input channel the frame is the voltage of
    channel 0 divided by 5 on every lane; with two or more it is the
    voltage of the lane's own channel divided by 5.  No lane grows beyond
    [BUFFER_SIZE]. *)
Theorem populateInputBuffer_pushes (input : Input) (a : Audio) (l : nat) :
  (inChannels a <= length (nInputBuffer a))%nat ->
  (inChannels a <= length (nInputFrame a))%nat ->
  let a' := populateInputBuffer input a in
  let pushed := (l <? inChannels a)%nat && negb (buffer_full (row (nInputBuffer a) l)) in
  row (nInputBuffer a') l
    = (if pushed then row (nInputBuffer a) l ++ [getQ (nInputFrame a') l]
       else row (nInputBuffer a) l) /\
  (pushed = true -> inputChannels a = 1%Z ->
     getQ (nInputFrame a') l = getVoltage input 0 / 5) /\
  (pushed = true -> inputChannels a <> 0%Z -> inputChannels a <> 1%Z ->
     getQ (nInputFrame a') l = getVoltage input l / 5) /\
  ((length (row (nInputBuffer a) l) <= BUFFER_SIZE)%nat ->
   (length (row (nInputBuffer a') l) <= BUFFER_SIZE)%nat).
Proof.
  intros Hb Hf. cbv zeta. unfold populateInputBuffer.
  destruct (populate_loop_spec input a (inChannels a) Hb Hf) as (_ & Hhi & Hlo).
  cbv zeta in Hhi, Hlo.
  destruct (Nat.ltb_spec l (inChannels a)) as [Hl|Hl]; cbn [andb].
  - specialize (Hlo l Hl).
    destruct (buffer_full (row (nInputBuffer a) l)) eqn:Efull; cbn [negb].
    + destruct Hlo as (A & _). rewrite A.
      split; [reflexivity|]. split; [discriminate|]. split; [discriminate|]. auto.
    + destruct Hlo as (A & B & C). rewrite A.
      split; [reflexivity|]. split; [auto|]. split; [auto|].
      intros _. rewrite length_app. cbn [length].
      unfold buffer_full in Efull. apply Nat.leb_gt in Efull. lia.
  - destruct (Hhi l Hl) as (A & _). rewrite A.
    split; [reflexivity|]. split; [discriminate|]. split; [discriminate|]. auto.
Qed.
End InputBuffering.

Lemma populateInputBuffer_pushes_witness :
  let input := {| in_voltages := [1%Q] |} in
  let a := select_channels (fresh_audio 1) in
  let a' := @populateInputBuffer passthrough_host input a in
  let pushed := (1 <? inChannels a)%nat && negb (@buffer_full passthrough_host (row (nInputBuffer a) 1)) in
  row (nInputBuffer a') 1
    = (if pushed then row (nInputBuffer a) 1 ++ [getQ (nInputFrame a') 1]
       else row (nInputBuffer a) 1) /\
  (pushed = true -> inputChannels a = 1%Z ->
     getQ (nInputFrame a') 1 = (getVoltage input 0 / 5)%Q) /\
  (pushed = true -> inputChannels a <> 0%Z -> inputChannels a <> 1%Z ->
     getQ (nInputFrame a') 1 = (getVoltage input 1 / 5)%Q) /\
  ((length (row (nInputBuffer a) 1) <= @BUFFER_SIZE passthrough_host)%nat ->
   (length (row (nInputBuffer a') 1) <= @BUFFER_SIZE passthrough_host)%nat).
Proof.
  apply (@populateInputBuffer_pushes passthrough_host {| in_voltages := [1%Q] |}
           (select_channels (fresh_audio 1)) 1).
  - vm_compute. lia.
  - vm_compute. lia.
Defined.

(** ** Mixdown of the engine output *)

Lemma get2Q_set2 (m : list (list Q)) (r c : nat) (v : Q) (k j : nat) :
  (k < length m)%nat -> (j < length (row m k))%nat ->
  get2Q (set2 m r c v) k j = if (r =? k)%nat && (c =? j)%nat then v else get2Q m k j.
Proof.
  intros Hk Hj.
  destruct (Nat.eqb_spec r k) as [->|Hr]; cbn [andb].
  - destruct (Nat.eqb_spec c j) as [->|Hc].
    + apply get2Q_set2_eq; assumption.
    + apply get2Q_set2_ne. right. exact Hc.
  - apply get2Q_set2_ne. left. exact Hr.
Qed.

Section Mixdown.
Context `{Dims} `{Host}.
Local Open Scope Q_scope.

Lemma convert_output_frames (chan : nat) (a : Audio) :
  nOutputFrames (convert_output chan a) = nOutputFrames a /\
  outputChannels (convert_output chan a) = outputChannels a.
Proof.
  unfold convert_output. destruct (nOutputSrc a !! chan) as [src|]; [|split; reflexivity].
  destruct (src_process _ _ _) as [[src' inLen] produced]. split; reflexivity.
Qed.

Lemma accumulate_output_cell (chan i : nat) (main : Filter) (a : Audio) :
  let a' := accumulate_output chan i main a in
  outputChannels a' = outputChannels a /\
  length (nOutputFrames a') = length (nOutputFrames a) /\
  (forall l, length (row (nOutputFrames a') l) = length (row (nOutputFrames a) l)) /\
  (forall l c, (l < length (nOutputFrames a))%nat ->
     (c < length (row (nOutputFrames a) l))%nat ->
     get2Q (nOutputFrames a') l c =
       if (output_lane (outputChannels a) chan i =? l)%nat && (i =? c)%nat
       then mix_cell (outputChannels a)
              (get2Q (io_out (io main)) chan i / MAX_12BIT) (get2Q (nOutputFrames a) l c)
       else get2Q (nOutputFrames a) l c).
Proof.
  cbv zeta. unfold accumulate_output, output_lane, mix_cell.
  destruct (outputChannels a) as [|[p|[p|p|]|]|p] eqn:Eo;
    try destruct (Nat.odd i);
    cbn [outputChannels nOutputFrames set_nOutputFrames];
    (split; [exact Eo|]); (split; [apply length_set2|]);
    (split; [intros l; apply length_row_set2|]);
    intros l c Hl Hc; rewrite get2Q_set2 by assumption;
    repeat match goal with
    | |- context [(?x =? ?y)%nat] => destruct (Nat.eqb_spec x y)
    end; cbn [andb]; subst; reflexivity.
Qed.

(** The samples of one channel. *)
Lemma sample_loop_cell (chan : nat) (main : Filter) (a : Audio) (n : nat) :
  let a' := for_loop n (fun i a => convert_output chan (accumulate_output chan i main a)) a in
  outputChannels a' = outputChannels a /\
  length (nOutputFrames a') = length (nOutputFrames a) /\
  (forall l, length (row (nOutputFrames a') l) = length (row (nOutputFrames a) l)) /\
  (forall l c, (l < length (nOutputFrames a))%nat ->
     (c < length (row (nOutputFrames a) l))%nat ->
     get2Q (nOutputFrames a') l c =
       if (output_lane (outputChannels a) chan c =? l)%nat && (c <? n)%nat
       then mix_cell (outputChannels a)
              (get2Q (io_out (io main)) chan c / MAX_12BIT) (get2Q (nOutputFrames a) l c)
       else get2Q (nOutputFrames a) l c).
Proof.
  cbv zeta. induction n as [|n IH].
  - rewrite for_loop_0. split; [reflexivity|]. split; [reflexivity|].
    split; [reflexivity|]. intros l c _ _. rewrite andb_false_r. reflexivity.
  - rewrite for_loop_S. destruct IH as (Eo & L1 & L2 & Hcell).
    set (acc := for_loop n _ a) in *. clearbody acc.
    destruct (convert_output_frames chan (accumulate_output chan n main acc)) as (C1 & C2).
    destruct (accumulate_output_cell chan n main acc) as (A1 & A2 & A3 & Acell).
    cbv zeta in A1, A2, A3, Acell.
    rewrite C1, C2. split; [congruence|]. split; [congruence|].
    split; [intros l; rewrite A3; apply L2|].
    intros l c Hl Hc. rewrite Acell by (rewrite ?L1, ?L2; assumption).
    rewrite Eo, Hcell by assumption.
    destruct (Nat.eqb_spec n c) as [->|Hne].
    + destruct (Nat.ltb_spec c c); [lia|]. destruct (Nat.ltb_spec c (S c)); [|lia].
      rewrite !andb_true_r, andb_false_r. reflexivity.
    + rewrite andb_false_r.
      destruct (Nat.ltb_spec c n), (Nat.ltb_spec c (S n)); try lia; reflexivity.
Qed.

(** The channels. *)
Lemma channel_loop_cell (main : Filter) (a : Audio) (n : nat) :
  let a' := for_loop n (fun chan =>
              for_loop NUM_SAMPLES (fun i a =>
                convert_output chan (accumulate_output chan i main a))) a in
  outputChannels a' = outputChannels a /\
  length (nOutputFrames a') = length (nOutputFrames a) /\
  (forall l, length (row (nOutputFrames a') l) = length (row (nOutputFrames a) l)) /\
  (forall l c, (l < length (nOutputFrames a))%nat ->
     (c < length (row (nOutputFrames a) l))%nat -> (c < NUM_SAMPLES)%nat ->
     get2Q (nOutputFrames a') l c =
       for_loop n (fun chan acc =>
         if (output_lane (outputChannels a) chan c =? l)%nat
         then mix_cell (outputChannels a) (get2Q (io_out (io main)) chan c / MAX_12BIT) acc
         else acc) (get2Q (nOutputFrames a) l c)).
Proof.
  cbv zeta. induction n as [|n IH].
  - rewrite for_loop_0. split; [reflexivity|]. split; [reflexivity|].
    split; [reflexivity|]. intros l c _ _ _. rewrite for_loop_0. reflexivity.
  - rewrite for_loop_S. destruct IH as (Eo & L1 & L2 & Hcell).
    set (acc := for_loop n _ a) in *. clearbody acc.
    destruct (sample_loop_cell n main acc NUM_SAMPLES) as (S1 & S2 & S3 & Scell).
    cbv zeta in S1, S2, S3, Scell.
    split; [congruence|]. split; [congruence|].
    split; [intros l; rewrite S3; apply L2|].
    intros l c Hl Hc Hcn. rewrite Scell by (rewrite ?L1, ?L2; assumption).
    rewrite (for_loop_S n (fun chan acc0 =>
      if (output_lane (outputChannels a) chan c =? l)%nat
      then mix_cell (outputChannels a) (get2Q (io_out (io main)) chan c / MAX_12BIT) acc0
      else acc0)).
    rewrite Eo, Hcell by assumption.
    destruct (Nat.ltb_spec c NUM_SAMPLES); [|lia]. rewrite andb_true_r. reflexivity.
Qed.

Lemma all_channels_mixed (oc : Z) (main : Filter) (c : nat) (old : Q) (n : nat) :
  oc <> 2%Z ->
  for_loop n (fun chan acc =>
    mix_cell oc (get2Q (io_out (io main)) chan c / MAX_12BIT) acc) old
  = for_loop n (fun chan acc => acc + get2Q (io_out (io main)) chan c / MAX_12BIT) old.
Proof.
  intros Hoc. apply for_loop_ext. intros k acc. unfold mix_cell.
  destruct oc as [|[p|[p|p|]|]|p]; try reflexivity. congruence.
Qed.

Lemma own_channel_assigned (x : nat -> Q) (l : nat) (old : Q) (n : nat) :
  for_loop n (fun chan acc => if (chan =? l)%nat then x chan else acc) old
  = if (l <? n)%nat then x l else old.
Proof.
  induction n as [|n IH].
  - rewrite for_loop_0. reflexivity.
  - rewrite (for_loop_S n (fun chan acc => if (chan =? l)%nat then x chan else acc)), IH.
    destruct (Nat.eqb_spec n l) as [->|Hne].
    + destruct (Nat.ltb_spec l (S l)); [reflexivity|lia].
    + destruct (Nat.ltb_spec l n), (Nat.ltb_spec l (S n)); try lia; reflexivity.
Qed.

(** X15.  What [populateAndResampleOutputBuffer] leaves in sample [c] of
    lane [l] of [nOutputFrames]:
    - six output channels: the engine output of channel [l] divided by
      [MAX_12BIT];
    - two output channels: the sum of all six engine channels is added to
      the cell of lane 0 at even samples and of lane 1 at odd samples; the
      odd samples of lane 0 and the even samples of lane 1 are not written;
    - otherwise: the sum of all six channels is added to the cell of lane 0
      and no other lane is written.
    The sums are added to what the cell held on entry. *)
Theorem output_mixdown (main : Filter) (a : Audio) (l c : nat) :
  (l < length (nOutputFrames a))%nat -> (c < length (row (nOutputFrames a) l))%nat ->
  (l < NUM_CHANNELS)%nat -> (c < NUM_SAMPLES)%nat ->
  let a' := populateAndResampleOutputBuffer main a in
  let old := get2Q (nOutputFrames a) l c in
  get2Q (nOutputFrames a') l c =
    match outputChannels a with
    | 2%Z => get2Q (io_out (io main)) l c / MAX_12BIT
    | 1%Z => if (l =? (if Nat.odd c then 1 else 0))%nat then mixed_sample main c old else old
    | _ => if (l =? 0)%nat then mixed_sample main c old else old
    end.
Proof.
  intros Hl Hc Hl6 Hcn. cbv zeta. unfold populateAndResampleOutputBuffer.
  destruct (channel_loop_cell main a NUM_CHANNELS) as (_ & _ & _ & Hcell).
  cbv zeta in Hcell. rewrite (Hcell l c Hl Hc Hcn). clear Hcell.
  unfold mixed_sample.
  assert (Hmix : forall oc (lane : nat), oc <> 2%Z ->
    (forall chan, output_lane oc chan c = lane) ->
    for_loop NUM_CHANNELS (fun chan acc =>
      if (output_lane oc chan c =? l)%nat
      then mix_cell oc (get2Q (io_out (io main)) chan c / MAX_12BIT) acc
      else acc) (get2Q (nOutputFrames a) l c)
    = if (l =? lane)%nat
      then for_loop NUM_CHANNELS
             (fun chan acc => acc + get2Q (io_out (io main)) chan c / MAX_12BIT)
             (get2Q (nOutputFrames a) l c)
      else get2Q (nOutputFrames a) l c).
  { intros oc lane Hoc Hlane. destruct (Nat.eqb_spec l lane) as [->|Hne].
    - rewrite <- (all_channels_mixed oc main c _ NUM_CHANNELS Hoc).
      apply for_loop_ext. intros k acc. rewrite Hlane, Nat.eqb_refl. reflexivity.
    - apply (for_loop_frame (fun x => x)). intros k acc. rewrite Hlane.
      destruct (Nat.eqb_spec lane l); [congruence|reflexivity]. }
  destruct (outputChannels a) as [|[p|[p|p|]|]|p];
    try (apply Hmix; [discriminate|reflexivity]).
  unfold output_lane, mix_cell.
  rewrite (own_channel_assigned (fun chan => get2Q (io_out (io main)) chan c / MAX_12BIT)).
  destruct (Nat.ltb_spec l NUM_CHANNELS); [reflexivity|lia].
Qed.
End Mixdown.

Lemma output_mixdown_witness :
  let main := @resting_filter tiny_dims 1%Q in
  let a := select_channels (fresh_audio 1) in
  let a' := @populateAndResampleOutputBuffer tiny_dims passthrough_host main a in
  let old := get2Q (nOutputFrames a) 0 1 in
  get2Q (nOutputFrames a') 0 1 =
    match outputChannels a with
    | 2%Z => (get2Q (io_out (io main)) 0 1 / @MAX_12BIT tiny_dims)%Q
    | 1%Z => if (0 =? (if Nat.odd 1 then 1 else 0))%nat
             then @mixed_sample tiny_dims main 1 old else old
    | _ => if (0 =? 0)%nat then @mixed_sample tiny_dims main 1 old else old
    end.
Proof.
  apply (@output_mixdown tiny_dims passthrough_host (@resting_filter tiny_dims 1%Q)
           (select_channels (fresh_audio 1)) 0 1).
  - vm_compute. lia.
  - vm_compute. lia.
  - unfold NUM_CHANNELS. lia.
  - vm_compute. lia.
Defined.

(** ** The ring buffers stay within their size *)

Lemma rows_insert_bounded (b : list (list Q)) (i : nat) (new : list Q) (N : nat) :
  (forall k, (length (row b k) <= N)%nat) ->
  ((i < length b)%nat -> (length new <= N)%nat) ->
  forall k, (length (row (<[i := new]> b) k) <= N)%nat.
Proof.
  intros Hb Hnew k. destruct (decide (i < length b)%nat) as [Hi|Hi].
  - destruct (decide (k = i)) as [->|Hne].
    + unfold row. rewrite list_lookup_insert_eq by exact Hi. apply Hnew. exact Hi.
    + unfold row. rewrite list_lookup_insert_ne by congruence. apply Hb.
  - rewrite list_insert_ge by lia. apply Hb.
Qed.

Section Bounded.
Context `{Dims} `{Host} `{Engine}.

Lemma buffers_bounded_rows (a a' : Audio) :
  buffers_bounded a ->
  (forall k, (length (row (nInputBuffer a') k) <= BUFFER_SIZE)%nat) ->
  (forall k, (length (row (nOutputBuffer a') k) <= BUFFER_SIZE)%nat) ->
  buffers_bounded a'.
Proof. intros _ Hi Ho k. split; [apply Hi|apply Ho]. Qed.

Lemma populate_lane_bounded (input : Input) (i : nat) (a : Audio) :
  buffers_bounded a -> buffers_bounded (populate_lane input i a).
Proof.
  intros Hb.
  pose proof (populate_lane_output_side input i a) as Eo.
  unfold output_side in Eo. tuple_inv Eo.
  apply (buffers_bounded_rows a); [exact Hb| |].
  - unfold populate_lane.
    destruct (buffer_full (row (nInputBuffer a) i)) eqn:Efull; cbn [negb];
      [intros k; apply Hb|].
    assert (Hgen : forall (v : Q) (a1 : Audio), nInputBuffer a1 = nInputBuffer a ->
      forall k, (length (row (nInputBuffer (set_nInputBuffer
         (<[i := row (nInputBuffer (set_nInputFrame (<[i := v]> (nInputFrame a1)) a1)) i
                 ++ [getQ (nInputFrame (set_nInputFrame (<[i := v]> (nInputFrame a1)) a1)) i]]>
            (nInputBuffer (set_nInputFrame (<[i := v]> (nInputFrame a1)) a1)))
         (set_nInputFrame (<[i := v]> (nInputFrame a1)) a1))) k) <= BUFFER_SIZE)%nat).
    { intros v a1 E1.
      cbn [nInputBuffer nInputFrame set_nInputFrame set_nInputBuffer]. rewrite E1.
      apply rows_insert_bounded; [intros k; apply Hb|].
      intros _. rewrite length_app. cbn [length].
      unfold buffer_full in Efull. apply Nat.leb_gt in Efull. lia. }
    destruct (inputChannels a =? 0)%Z.
    + destruct (generateNoise_buffers a) as (_ & _ & G3 & _).
      destruct (generateNoise a) as [nO a1]. cbn [snd] in G3. apply Hgen. exact G3.
    + destruct (inputChannels a =? 1)%Z; apply Hgen; reflexivity.
  - intros k. match goal with E : nOutputBuffer _ = nOutputBuffer a |- _ => rewrite E end.
    apply Hb.
Qed.

Lemma resample_lane_bounded (i : nat) (st : Audio * Filter) :
  buffers_bounded (fst st) -> buffers_bounded (fst (resample_lane i st)).
Proof.
  destruct st as [a main]. cbn [fst]. intros Hb. unfold resample_lane.
  destruct (negb (buffer_empty (row (nInputBuffer a) i))); [|exact Hb].
  destruct (nInputSrc a !! i) as [src|]; [|exact Hb].
  destruct (src_process _ _ _) as [[src' inLen] produced]. cbn [fst].
  apply (buffers_bounded_rows a); [exact Hb| |].
  - cbn [nInputBuffer set_nInputSrc set_nInputFrames set_nInputBuffer].
    apply rows_insert_bounded; [intros k; apply Hb|].
    intros _. rewrite length_drop. pose proof (proj1 (Hb i)). lia.
  - intros k. apply Hb.
Qed.

Lemma convert_output_bounded (chan : nat) (a : Audio) :
  buffers_bounded a -> buffers_bounded (convert_output chan a).
Proof.
  intros Hb. unfold convert_output.
  destruct (nOutputSrc a !! chan) as [src|]; [|exact Hb].
  destruct (src_process _ _ _) as [[src' inLen] produced].
  apply (buffers_bounded_rows a); [exact Hb| |].
  - intros k. apply Hb.
  - cbn [nOutputBuffer set_nOutputSrc set_nOutputBuffer].
    apply rows_insert_bounded; [intros k; apply Hb|].
    intros _. rewrite length_app, length_take. unfold buffer_capacity.
    pose proof (proj2 (Hb chan)). lia.
Qed.

Lemma accumulate_output_bounded (chan i : nat) (main : Filter) (a : Audio) :
  buffers_bounded a -> buffers_bounded (accumulate_output chan i main a).
Proof.
  intros Hb. unfold accumulate_output.
  destruct (outputChannels a) as [|[p|[p|p|]|]|p]; try exact Hb.
  destruct (Nat.odd i); exact Hb.
Qed.

Lemma shift_lane_bounded (chan : nat) (a : Audio) :
  buffers_bounded a -> buffers_bounded (shift_lane chan a).
Proof.
  intros Hb. unfold shift_lane.
  apply (buffers_bounded_rows a); [exact Hb| |].
  - intros k. apply Hb.
  - cbn [nOutputBuffer set_nOutputFrame set_nOutputBuffer].
    apply rows_insert_bounded; [intros k; apply Hb|].
    intros _. rewrite length_drop. pose proof (proj2 (Hb chan)). lia.
Qed.

Lemma for_loop_preserves {S} (P : S -> Prop) (n : nat) (body : nat -> S -> S) (s : S) :
  (forall k acc, P acc -> P (body k acc)) -> P s -> P (for_loop n body s).
Proof.
  intros Hb Hs. induction n as [|n IH]; [exact Hs|].
  rewrite for_loop_S. apply Hb. exact IH.
Qed.

Lemma processing_cycle_bounded (a : Audio) (main : Filter) :
  buffers_bounded a -> buffers_bounded (fst (processing_cycle (a, main))).
Proof.
  intros Hb. unfold processing_cycle.
  assert (Hr : buffers_bounded (fst (resampleInput (a, main)))).
  { unfold resampleInput.
    apply (for_loop_preserves (fun st => buffers_bounded (fst st))); [|exact Hb].
    intros k acc. apply resample_lane_bounded. }
  destruct (resampleInput (a, main)) as [a2 main2]. cbn [fst] in *.
  unfold populateAndResampleOutputBuffer.
  apply (for_loop_preserves buffers_bounded).
  - intros chan acc Hacc. apply (for_loop_preserves buffers_bounded); [|exact Hacc].
    intros i acc' Hacc'. apply convert_output_bounded, accumulate_output_bounded. exact Hacc'.
  - exact Hr.
Qed.

Lemma processOutputBuffer_bounded (a : Audio) (output : Output) :
  buffers_bounded a -> buffers_bounded (fst (processOutputBuffer (a, output))).
Proof.
  intros Hb. unfold processOutputBuffer.
  destruct (buffer_ready a); cbn [fst]; [|exact Hb].
  apply (for_loop_preserves buffers_bounded); [|exact Hb].
  intros k acc. apply shift_lane_bounded.
Qed.

(** X16.  A host call never makes a ring buffer hold more than
    [BUFFER_SIZE] frames: if no input or output lane does before
    [nChannelProcess], none does after it. *)
Theorem nChannelProcess_buffers_bounded (input : Input) (a : Audio) (main : Filter)
    (output : Output) :
  buffers_bounded a ->
  buffers_bounded (fst (fst (nChannelProcess input (a, main, output)))).
Proof.
  intros Hb. unfold nChannelProcess.
  assert (B1 : buffers_bounded (populateInputBuffer input (select_channels a))).
  { unfold populateInputBuffer. apply (for_loop_preserves buffers_bounded).
    - intros k acc. apply populate_lane_bounded.
    - exact Hb. }
  set (a1 := populateInputBuffer input (select_channels a)) in *. clearbody a1.
  assert (B2 : buffers_bounded (fst (if buffer_empty (row (nOutputBuffer a1) 0)
                                     then processing_cycle (a1, main) else (a1, main)))).
  { destruct (buffer_empty (row (nOutputBuffer a1) 0));
      [apply processing_cycle_bounded; exact B1|exact B1]. }
  destruct (if buffer_empty (row (nOutputBuffer a1) 0)
            then processing_cycle (a1, main) else (a1, main)) as [a2 main2].
  cbn [fst] in B2.
  assert (B3 : buffers_bounded (fst (if negb (buffer_empty (row (nOutputBuffer a2) 0))
                                     then processOutputBuffer (a2, output) else (a2, output)))).
  { destruct (negb (buffer_empty (row (nOutputBuffer a2) 0)));
      [apply processOutputBuffer_bounded; exact B2|exact B2]. }
  destruct (if negb (buffer_empty (row (nOutputBuffer a2) 0))
            then processOutputBuffer (a2, output) else (a2, output)) as [a3 output3].
  exact B3.
Qed.
End Bounded.

(** ** The voltages of a host call *)

Section Emission.
Context `{Dims} `{Host}.
Local Open Scope Q_scope.

Lemma shift_loop_frames (n : nat) (a : Audio) :
  (n <= length (nOutputBuffer a))%nat -> (n <= length (nOutputFrame a))%nat ->
  let a' := for_loop n shift_lane a in
  length (nOutputFrame a') = length (nOutputFrame a) /\
  length (nOutputBuffer a') = length (nOutputBuffer a) /\
  (forall c, (n <= c)%nat -> row (nOutputBuffer a') c = row (nOutputBuffer a) c) /\
  (forall c, (c < n)%nat -> getQ (nOutputFrame a') c = getQ (row (nOutputBuffer a) c) 0).
Proof.
  intros Hb Hf. cbv zeta. induction n as [|n IH].
  - rewrite for_loop_0. repeat split; intros; try reflexivity; lia.
  - rewrite for_loop_S. destruct (IH ltac:(lia) ltac:(lia)) as (L1 & L2 & Hhi & Hlo).
    set (acc := for_loop n shift_lane a) in *. clearbody acc.
    unfold shift_lane. cbn [nOutputBuffer nOutputFrame set_nOutputBuffer set_nOutputFrame].
    rewrite !length_insert. split; [exact L1|]. split; [exact L2|]. split.
    + intros c Hc. unfold row at 1. rewrite list_lookup_insert_ne by lia. apply Hhi. lia.
    + intros c Hc. destruct (decide (c = n)) as [->|Hne].
      * unfold getQ at 1. rewrite list_lookup_insert_eq by lia.
        cbn [default from_option id]. rewrite (Hhi n) by lia. reflexivity.
      * unfold getQ at 1. rewrite list_lookup_insert_ne by congruence. apply Hlo. lia.
Qed.

Lemma getQ_setVoltage (v : Q) (c : nat) (o : Output) (k : nat) :
  (k < length (out_voltages o))%nat ->
  getQ (out_voltages (setVoltage v c o)) k = if (c =? k)%nat then v else getQ (out_voltages o) k.
Proof.
  intros Hk. unfold setVoltage, getQ. cbn [out_voltages].
  destruct (Nat.eqb_spec c k) as [->|Hne].
  - rewrite list_lookup_insert_eq by exact Hk. reflexivity.
  - rewrite list_lookup_insert_ne by exact Hne. reflexivity.
Qed.

Lemma emit_loop_spec (f : nat -> Q) (n : nat) (o : Output) :
  let o' := for_loop n (fun chan o => setVoltage (f chan) chan o) o in
  out_channels o' = out_channels o /\
  length (out_voltages o') = length (out_voltages o) /\
  (forall k, (k < length (out_voltages o))%nat ->
     getQ (out_voltages o') k = if (k <? n)%nat then f k else getQ (out_voltages o) k).
Proof.
  cbv zeta. induction n as [|n IH].
  - rewrite for_loop_0. repeat split; reflexivity.
  - rewrite (for_loop_S n (fun chan o => setVoltage (f chan) chan o)).
    destruct IH as (E1 & E2 & Hk).
    set (acc := for_loop n _ o) in *. clearbody acc.
    split; [exact E1|]. split; [unfold setVoltage; cbn [out_voltages];
                                rewrite length_insert; exact E2|].
    intros k Hlt. rewrite getQ_setVoltage by lia. rewrite Hk by exact Hlt.
    destruct (Nat.eqb_spec n k) as [->|Hne].
    + destruct (Nat.ltb_spec k (S k)); [reflexivity|lia].
    + destruct (Nat.ltb_spec k n), (Nat.ltb_spec k (S n)); try lia; reflexivity.
Qed.

(** X17.  [processOutputBuffer], entered with the channel counts
    [nChannelProcess] selects: the output is given [outChannels] channels;
    when every active lane holds a frame, the voltage of each channel below
    [outChannels] becomes five times the oldest frame of its lane and the
    other voltages are kept; when an active lane is empty, every voltage is
    kept. *)
Theorem processOutputBuffer_emits (a : Audio) (output : Output) (c : nat) :
  outChannels a = select_outChannels (outputChannels a) ->
  (NUM_CHANNELS <= length (nOutputBuffer a))%nat ->
  (NUM_CHANNELS <= length (nOutputFrame a))%nat ->
  (c < length (out_voltages output))%nat ->
  let r := processOutputBuffer (a, output) in
  out_channels (snd r) = outChannels a /\
  getQ (out_voltages (snd r)) c =
    if buffer_ready a && (c <? outChannels a)%nat
    then getQ (row (nOutputBuffer a) c) 0 * 5
    else getQ (out_voltages output) c.
Proof.
  intros Hsel Hb Hf Hc. cbv zeta. unfold processOutputBuffer.
  pose proof (select_outChannels_le (outputChannels a)) as Hle. rewrite <- Hsel in Hle.
  destruct (buffer_ready a); cbn [fst snd andb]; [|split; reflexivity].
  destruct (shift_loop_frames (outChannels a) a ltac:(lia) ltac:(lia)) as (_ & _ & _ & Hfr).
  cbv zeta in Hfr.
  pose proof (shift_loop_spec (outChannels a) a ltac:(lia)) as (Ein & _ & _).
  unfold input_side in Ein. tuple_inv Ein.
  set (a' := for_loop (outChannels a) shift_lane a) in *. clearbody a'.
  unfold emit_frames.
  repeat match goal with E : outputChannels a' = _ |- _ => rewrite E end.
  repeat match goal with E : outChannels a' = _ |- _ => rewrite E end.
  revert Hfr. rewrite Hsel. unfold select_outChannels. intros Hfr.
  destruct (outputChannels a) as [|[p|[p|p|]|]|p];
    try (split; [reflexivity|]; rewrite getQ_setVoltage by exact Hc;
         destruct c as [|c]; [rewrite Hfr by lia; reflexivity|reflexivity]).
  - destruct (emit_loop_spec (fun chan => getQ (nOutputFrame a') chan * 5) 6
                (setChannels 6 output)) as (E1 & _ & Hk).
    cbv zeta in E1, Hk. split; [exact E1|]. rewrite Hk by exact Hc.
    destruct (Nat.ltb_spec c 6); [rewrite Hfr by lia; reflexivity|reflexivity].
  - split; [reflexivity|]. rewrite !getQ_setVoltage
      by (unfold setVoltage; cbn [out_voltages]; rewrite ?length_insert; exact Hc).
    destruct c as [|[|c]]; cbn [Nat.eqb Nat.ltb Nat.leb]; rewrite ?Hfr by lia; reflexivity.
Qed.
End Emission.

Lemma nChannelProcess_buffers_bounded_witness :
  buffers_bounded
    (fst (fst (@nChannelProcess tiny_dims passthrough_host idle_engine
                 {| in_voltages := [1%Q] |} (fresh_audio 1, marked_main, fresh_output)))).
Proof.
  apply (@nChannelProcess_buffers_bounded tiny_dims passthrough_host idle_engine
           {| in_voltages := [1%Q] |} (fresh_audio 1) marked_main fresh_output).
  intros k. do 6 (destruct k as [|k]; [vm_compute; lia|]). vm_compute. lia.
Defined.

Lemma processOutputBuffer_emits_witness :
  let a := set_nOutputBuffer (replicate 6 [(1 # 2)%Q; (1 # 4)%Q])
             (select_channels (fresh_audio 1)) in
  let r := @processOutputBuffer passthrough_host (a, fresh_output) in
  out_channels (snd r) = outChannels a /\
  getQ (out_voltages (snd r)) 0 =
    if buffer_ready a && (0 <? outChannels a)%nat
    then (getQ (row (nOutputBuffer a) 0) 0 * 5)%Q
    else getQ (out_voltages fresh_output) 0.
Proof.
  apply (@processOutputBuffer_emits passthrough_host
           (set_nOutputBuffer (replicate 6 [(1 # 2)%Q; (1 # 4)%Q])
              (select_channels (fresh_audio 1))) fresh_output 0).
  - vm_compute. reflexivity.
  - vm_compute. lia.
  - vm_compute. lia.
  - vm_compute. lia.
Defined.

(** ** The V/oct output stays below the frequency ceiling *)

Section VoctOutput.
Context `{Dims} `{Tables}.
Local Open Scope Q_scope.



Lemma twopass_sample_env check ch o j c0_a c0 c1 c2_a c2 ratio_a i m :
  envelope (twopass_sample check ch o j c0_a c0 c1 c2_a c2 ratio_a i m) = envelope m /\
  rotation (twopass_sample check ch o j c0_a c0 c1 c2_a c2 ratio_a i m) = rotation m.
Proof.
  unfold twopass_sample, flag_clip.
  destruct check; [destruct (_ <=? _)%Z|]; split; reflexivity.
Qed.






End VoctOutput.


(** ** Bank and filter selection on the panel *)

Section PanelTick.
Context `{Settings}.

Lemma handle_filter_change_spec (p : Panel) (o : IO) :
  let r := handle_filter_change (p, o) in
  let reset := negb (Qtrunc (FILTER_PARAM p) =? currFilter p)%Z
               && (Qtrunc (FILTER_PARAM p) =? Bpre)%Z && (currBank p =? 19)%Z in
  currFilter (fst r) = Qtrunc (FILTER_PARAM p) /\
  FILTER_SWITCH (fst r) = FILTER_SWITCH p /\
  FILTER_PARAM (fst r) = FILTER_PARAM p /\
  currBank (fst r) = (if reset then 0 else currBank p)%Z /\
  nextBank (fst r) = (if reset then 0 else Qtrunc (BANK_PARAM p))%Z /\
  BANK_PARAM (fst r) = (if reset then 0 else BANK_PARAM p)%Q.
Proof.
  cbv zeta. unfold handle_filter_change.
  destruct (Z.eqb_spec (Qtrunc (FILTER_PARAM p)) (currFilter p)) as [E|N]; cbn [negb andb].
  - cbn [fst currFilter FILTER_SWITCH FILTER_PARAM currBank nextBank BANK_PARAM].
    repeat split; congruence.
  - destruct ((Qtrunc (FILTER_PARAM p) =? Bpre)%Z && (currBank p =? 19)%Z);
      cbn [fst currFilter FILTER_SWITCH FILTER_PARAM currBank nextBank BANK_PARAM];
      repeat split; reflexivity.
Qed.

(** X19.  After the bank and filter handling of a tick, the filter seen
    last and the filter written to [main.io] are both the filter
    parameter.  If they agreed before the tick, and the interpolated filter
    was not selected together with bank 19, it is not selected together
    with bank 19 after the tick either, provided a press of the bank switch
    does not fall on the tick on which the filter parameter changes while
    the bank parameter is at 19. *)
Theorem last_bank_stays_excluded (pressed : bool) (p : Panel) (o : IO) :
  filter_in_step p -> last_bank_excluded p ->
  (pressed = true ->
     Qtrunc (FILTER_PARAM p) = currFilter p \/ Qtrunc (BANK_PARAM p) <> 19%Z) ->
  let p' := fst (bank_filter_tick pressed (p, o)) in
  filter_in_step p' /\ currFilter p' = Qtrunc (FILTER_PARAM p) /\ last_bank_excluded p'.
Proof.
  intros Hstep Hex Hpress. cbv zeta. unfold bank_filter_tick.
  destruct (handle_filter_change_spec p o) as (F1 & F2 & F3 & F4 & F5 & F6).
  cbv zeta in F1, F2, F3, F4, F5, F6.
  destruct (handle_filter_change (p, o)) as [p1 o1]. cbn [fst] in *.
  unfold filter_in_step, last_bank_excluded in *.
  unfold handle_bank_switch.
  destruct pressed.
  - specialize (Hpress eq_refl).
    destruct ((FILTER_SWITCH p1 =? Bpre)%Z && (nextBank p1 =? 19)%Z) eqn:Eref;
      cbn [fst currFilter FILTER_SWITCH FILTER_PARAM currBank nextBank BANK_PARAM];
      (split; [congruence|]); (split; [exact F1|]); rewrite F1.
    + rewrite F4. intros (Ef & Eb).
      destruct (Z.eqb_spec (Qtrunc (FILTER_PARAM p)) (currFilter p)) as [E|N];
        cbn [negb andb] in Eb.
      * apply Hex. split; congruence.
      * apply andb_true_iff in Eref. destruct Eref as (Es & _).
        apply Z.eqb_eq in Es. congruence.
    + rewrite F5. intros (Ef & Eb).
      destruct (Z.eqb_spec (Qtrunc (FILTER_PARAM p)) (currFilter p)) as [E|N];
        cbn [negb andb] in Eb.
      * apply andb_false_iff in Eref. rewrite F2, F5 in Eref. cbn [negb andb] in Eref.
        destruct Eref as [Es|Eb']; [apply Z.eqb_neq in Es; congruence|].
        apply Z.eqb_neq in Eb'. cbn [negb andb] in Eb'.
        destruct (Z.eqb_spec (Qtrunc (FILTER_PARAM p)) (currFilter p)); congruence.
      * destruct Hpress as [E|Nb]; [congruence|].
        destruct ((Qtrunc (FILTER_PARAM p) =? Bpre)%Z && (currBank p =? 19)%Z);
          [discriminate Eb|congruence].
  - cbn [fst currFilter FILTER_SWITCH FILTER_PARAM currBank nextBank BANK_PARAM].
    split; [congruence|]. split; [exact F1|]. rewrite F1, F4. intros (Ef & Eb).
    destruct (Z.eqb_spec (Qtrunc (FILTER_PARAM p)) (currFilter p)) as [E|N];
      cbn [negb andb] in Eb.
    + apply Hex. split; congruence.
    + rewrite Ef, Z.eqb_refl in Eb. cbn [andb] in Eb.
      destruct (Z.eqb_spec (currBank p) 19); [discriminate Eb|congruence].
Qed.


(** X21.  When the filter parameter moves to the interpolated filter while
    the panel is on bank 19 and the bank switch is not pressed, the panel
    goes back to bank 0 but no bank change is announced: [CHANGED_BANK] is
    false after the tick, and [process_bank_change] run on the result leaves
    the bank of every channel as it was. *)
Theorem bank_reset_is_not_announced (p : Panel) (m : Filter) :
  currFilter p <> Bpre -> Qtrunc (FILTER_PARAM p) = Bpre -> currBank p = 19%Z ->
  let r := bank_filter_tick false (p, io m) in
  currBank (fst r) = 0%Z /\ BANK_PARAM (fst r) = 0%Q /\ currFilter (fst r) = Bpre /\
  CHANGED_BANK (snd r) = false /\ NEW_BANK (snd r) = 0%Z /\
  scale_bank (fs (process_bank_change (with_io (fun _ => snd r) m))) = scale_bank (fs m).
Proof.
  intros Hf Hp Hb. cbv zeta. unfold bank_filter_tick, handle_filter_change.
  cbn [handle_bank_switch].
  assert (E1 : (Qtrunc (FILTER_PARAM p) =? currFilter p)%Z = false)
    by (apply Z.eqb_neq; congruence).
  assert (E2 : (Qtrunc (FILTER_PARAM p) =? Bpre)%Z = true) by (apply Z.eqb_eq; exact Hp).
  assert (E3 : (currBank p =? 19)%Z = true) by (apply Z.eqb_eq; exact Hb).
  rewrite E1, E2, E3.
  cbn [negb andb handle_bank_switch fst snd currBank BANK_PARAM currFilter
       CHANGED_BANK NEW_BANK io_set_bank io_set_CHANGED_BANK].
  split; [reflexivity|]. split; [reflexivity|]. split; [exact Hp|].
  split; [reflexivity|]. split; [reflexivity|].
  unfold process_bank_change.
  cbn [io with_io CHANGED_BANK io_set_bank io_set_CHANGED_BANK]. reflexivity.
Qed.
End PanelTick.

Lemma last_bank_stays_excluded_witness :
  let p := turn_knobs 19 1 (panel_at 3 1) in
  let p' := fst (@bank_filter_tick panel_settings true (p, idle_io)) in
  filter_in_step p' /\ currFilter p' = Qtrunc (FILTER_PARAM p) /\ @last_bank_excluded panel_settings p'.
Proof.
  apply (@last_bank_stays_excluded panel_settings true
           (turn_knobs 19 1 (panel_at 3 1)) idle_io).
  - reflexivity.
  - intros (E & _). discriminate E.
  - intros _. left. reflexivity.
Defined.


Lemma bank_reset_is_not_announced_witness :
  let m := @resting_filter tiny_dims 0%Q in
  let r := @bank_filter_tick panel_settings false (turn_knobs 19 2 (panel_at 19 1), io m) in
  currBank (fst r) = 0%Z /\ BANK_PARAM (fst r) = 0%Q /\ currFilter (fst r) = 2%Z /\
  CHANGED_BANK (snd r) = false /\ NEW_BANK (snd r) = 0%Z /\
  scale_bank (fs (process_bank_change (with_io (fun _ => snd r) m))) = scale_bank (fs m).
Proof.
  apply (@bank_reset_is_not_announced panel_settings
           (turn_knobs 19 2 (panel_at 19 1)) (@resting_filter tiny_dims 0%Q)).
  - discriminate.
  - reflexivity.
  - reflexivity.
Defined.

(** ** A bank switch, from the event to the reset *)

Section BankSwitch.
Context `{Dims}.

(** X22.  Whatever the reason for a reset is, [process_scale_bank] keeps
    every float of a channel's second-pass history from offset
    [NUM_SCALES * NUM_FILTS + 2] on. *)
Theorem reset_keeps_history_tail (m : Filter) (i k : nat) :
  wf_channels (fs m) -> (i < NUM_CHANNELS)%nat ->
  (NUM_SCALES * NUM_FILTS + 2 <= k)%nat ->
  row (buf (fs (process_scale_bank m))) i !! k = row (buf (fs m)) i !! k.
Proof.
  intros W Hi Hk.
  destruct (process_scale_bank_spec m W) as (_ & _ & _ & Lo).
  destruct (Lo i Hi) as (_ & _ & Hb).
  unfold row at 1. rewrite Hb. cbn [default from_option id].
  match goal with |- context [if ?c then _ else _] => destruct c end;
    [apply clear_history_untouched; exact Hk|reflexivity].
Qed.

Lemma process_bank_change_wf (m : Filter) :
  wf_channels (fs m) -> is_u8 (NEW_BANK (io m)) ->
  wf_channels (fs (process_bank_change m)).
Proof.
  intros W Hnb. unfold process_bank_change.
  destruct (CHANGED_BANK (io m)); [|exact W].
  destruct (bank_change_loop (NEW_BANK (io m)) (LOCK_ON (io m)) NUM_CHANNELS m eq_refl eq_refl)
    as (_ & E1 & E2 & E3 & E4 & E5 & El & Hlo & Hhi).
  cbv zeta in E1, E2, E3, E4, E5, El, Hlo, Hhi.
  destruct W as (L1 & L2 & L3 & L4 & L5 & L6 & U1 & U2 & U3 & F1 & F2).
  unfold wf_channels. rewrite E1, E2, E3, E4, E5, El.
  do 6 (split; [assumption|]). split; [|repeat split; assumption].
  apply Forall_lookup. intros k z Hz.
  assert (Hk : (k < NUM_CHANNELS)%nat).
  { apply lookup_lt_Some in Hz. rewrite El, L1 in Hz. exact Hz. }
  rewrite (Hlo k Hk) in Hz by lia. injection Hz as <-.
  destruct (negb (getB (LOCK_ON (io m)) k)); [exact Hnb|].
  unfold getZ. destruct (scale_bank (fs m) !! k) as [z|] eqn:E.
  - exact (proj1 (Forall_lookup _ _) U1 k z E).
  - apply lookup_ge_None in E. lia.
Qed.

(** X23.  A bank switch followed by the start of a block, with no other
    reset pending and the channel's bank resolved: a locked channel keeps
    its bank and its whole second-pass history, an unlocked channel takes
    the (clamped) new bank and, when that differs from the bank resolved
    last, the leading floats of its second-pass history are zero. *)
Theorem bank_switch_reaches_unlocked_channels (m : Filter) (i k : nat) :
  wf_channels (fs m) -> is_u8 (NEW_BANK (io m)) ->
  (1 <= NUM_SCALES * NUM_FILTS)%nat -> (i < NUM_CHANNELS)%nat ->
  CHANGED_BANK (io m) = true ->
  filter_type_changed (fs m) = false -> USER_SCALE_CHANGED (io m) = false ->
  getZ (old_scale_bank (fs m)) i = clamp_scale_bank (getZ (scale_bank (fs m)) i) ->
  (k < NUM_SCALES * NUM_FILTS + 2)%nat ->
  let m' := process_scale_bank (process_bank_change m) in
  if getB (LOCK_ON (io m)) i
  then row (buf (fs m')) i = row (buf (fs m)) i /\
       getZ (scale_bank (fs m')) i = clamp_scale_bank (getZ (scale_bank (fs m)) i)
  else getZ (scale_bank (fs m')) i = clamp_scale_bank (NEW_BANK (io m)) /\
       (clamp_scale_bank (NEW_BANK (io m)) <> getZ (old_scale_bank (fs m)) i ->
        row (buf (fs m')) i !! k = Some 0%Q).
Proof.
  intros W Hnb Hn Hi Hcb Hft Hus Hres Hk. cbv zeta.
  pose proof (process_bank_change_wf m W Hnb) as W'.
  destruct (process_scale_bank_spec (process_bank_change m) W') as (_ & _ & _ & Lo).
  destruct (Lo i Hi) as (Esb & _ & Eb). clear Lo.
  pose proof (wf_row_length _ _ W' Hi) as Hrow.
  revert Esb Eb Hrow. unfold process_bank_change. rewrite Hcb.
  destruct (bank_change_loop (NEW_BANK (io m)) (LOCK_ON (io m)) NUM_CHANNELS m eq_refl eq_refl)
    as (Eio & E1 & _ & _ & E4 & _ & _ & Hlo & _).
  cbv zeta in Eio, E1, E4, Hlo.
  assert (Li : (i < length (scale_bank (fs m)))%nat) by (destruct W as (L1 & _); lia).
  specialize (Hlo i Hi Li).
  assert (Et : filter_type_changed (fs (for_loop NUM_CHANNELS (fun i0 m0 =>
                 if negb (getB (LOCK_ON (io m0)) i0)
                 then with_fs (fun s =>
                        fs_set_scale_bank (<[i0 := NEW_BANK (io m0)]> (scale_bank s)) s) m0
                 else m0) m)) = filter_type_changed (fs m)).
  { apply (for_loop_frame (fun m0 => filter_type_changed (fs m0))). intros j acc.
    destruct (negb (getB (LOCK_ON (io acc)) j)); reflexivity. }
  set (mb := for_loop NUM_CHANNELS _ m) in *. clearbody mb.
  intros Esb Eb Hrow. rewrite Eio, Hus, E1, E4, Et, Hft in Eb.
  rewrite orb_false_r in Eb. rewrite orb_false_r in Eb.
  assert (Eg : getZ (scale_bank (fs mb)) i
               = if negb (getB (LOCK_ON (io m)) i) then NEW_BANK (io m)
                 else getZ (scale_bank (fs m)) i).
  { unfold getZ at 1. rewrite Hlo. reflexivity. }
  rewrite Eg in Esb, Eb. rewrite E4 in Hrow.
  destruct (getB (LOCK_ON (io m)) i); cbn [negb] in *.
  - split; [|unfold getZ at 1; rewrite Esb; reflexivity].
    unfold row at 1. rewrite Eb. cbn [default from_option id].
    rewrite Hres, Z.eqb_refl. reflexivity.
  - split; [unfold getZ at 1; rewrite Esb; reflexivity|]. intros Hne.
    unfold row at 1. rewrite Eb. cbn [default from_option id].
    destruct (Z.eqb_spec (clamp_scale_bank (NEW_BANK (io m))) (getZ (old_scale_bank (fs m)) i))
      as [E|_]; [contradiction|]. cbn [negb].
    apply clear_history_zero; [assumption..|]. rewrite Hrow. nia.
Qed.
End BankSwitch.

Lemma reset_keeps_history_tail_witness :
  row (buf (fs (@process_scale_bank rainbow_dims after_bank_switch))) 0 !! 222%nat
    = row (buf (fs after_bank_switch)) 0 !! 222%nat.
Proof.
  apply (@reset_keeps_history_tail rainbow_dims after_bank_switch 0 222).
  - apply wf_channelsb_correct. vm_compute. reflexivity.
  - vm_compute. lia.
  - vm_compute. lia.
Defined.

Lemma bank_switch_reaches_unlocked_channels_witness :
  let m := with_io (bank_event 2 (<[1%nat := true]> (replicate 6 false)))
             (@resting_filter tiny_dims 1%Q) in
  let m' := @process_scale_bank tiny_dims (process_bank_change m) in
  if getB (LOCK_ON (io m)) 0
  then row (buf (fs m')) 0 = row (buf (fs m)) 0 /\
       getZ (scale_bank (fs m')) 0 = @clamp_scale_bank tiny_dims (getZ (scale_bank (fs m)) 0)
  else getZ (scale_bank (fs m')) 0 = @clamp_scale_bank tiny_dims (NEW_BANK (io m)) /\
       (@clamp_scale_bank tiny_dims (NEW_BANK (io m)) <> getZ (old_scale_bank (fs m)) 0 ->
        row (buf (fs m')) 0 !! 3%nat = Some 0%Q).
Proof.
  apply (@bank_switch_reaches_unlocked_channels tiny_dims
           (with_io (bank_event 2 (<[1%nat := true]> (replicate 6 false)))
              (@resting_filter tiny_dims 1%Q)) 0 3).
  - apply wf_channelsb_correct. vm_compute. reflexivity.
  - unfold is_u8. vm_compute. split; [discriminate|reflexivity].
  - vm_compute. lia.
  - unfold NUM_CHANNELS. lia.
  - reflexivity.
  - reflexivity.
  - reflexivity.
  - vm_compute. reflexivity.
  - vm_compute. lia.
Defined.

(** ** A channel that is not morphing has no destination filter *)

Section IdleDestination.
Context `{Dims} `{Tables}.
Local Open Scope Q_scope.

Lemma twopass_sample_rows check ch o j c0_a c0 c1 c2_a c2 ratio_a i m k :
  k <> j ->
  row (filter_out (fs (twopass_sample check ch o j c0_a c0 c1 c2_a c2 ratio_a i m))) k
  = row (filter_out (fs m)) k.
Proof.
  intros Hk. unfold twopass_sample.
  set (m1 := if check then _ else m).
  assert (E : fs m1 = fs m) by (subst m1; destruct check; [apply flag_clip_fs|reflexivity]).
  rewrite <- E. cbn [fs with_fs].
  destruct (section_step (buf_a (fs m1)) _ _ _ _ _ _) as [ba fa].
  destruct (section_step (buf (fs m1)) _ _ _ _ _ _) as [b fb].
  cbn [filter_out fs_set_filter_out]. apply row_set2_ne. congruence.
Qed.

Lemma onepass_sample_rows ch o j c0 c1 c2 i m k :
  k <> j ->
  row (filter_out (fs (onepass_sample ch o j c0 c1 c2 i m))) k = row (filter_out (fs m)) k.
Proof.
  intros Hk. unfold onepass_sample.
  rewrite <- (flag_clip_float_fs (get2Z (io_in (io m)) ch i) m).
  cbn [fs with_fs filter_out fs_set_filter_out]. apply row_set2_ne. congruence.
Qed.

Lemma bpre_sample_rows ch o j c0 c1 c2 i m k :
  k <> j ->
  row (filter_out (fs (bpre_sample ch o j c0 c1 c2 i m))) k = row (filter_out (fs m)) k.
Proof.
  intros Hk. unfold bpre_sample.
  rewrite <- (flag_clip_fs (get2Z (io_in (io m)) ch i) m).
  cbn [fs with_fs filter_out fs_set_filter_out]. apply row_set2_ne. congruence.
Qed.

Lemma glide_voct_fs ch v m : fs (glide_voct ch v m) = fs m.
Proof. unfold glide_voct. destruct (GLIDE_SWITCH (io m)); reflexivity. Qed.

Lemma not_morphing (mp : Q) : mp == 0 -> Qgtb mp 0 = false /\ Qeq_bool mp 0 = true.
Proof.
  intros E. split.
  - unfold Qgtb. apply Qltb_ge. rewrite E. apply Qle_refl.
  - apply Qeq_bool_iff. exact E.
Qed.

Lemma twopass_channel_rows (ch : nat) (m : Filter) (k : nat) :
  k <> ch ->
  (k = (ch + 6)%nat -> getQ (motion_morphpos (rotation m)) ch == 0) ->
  row (filter_out (fs (twopass_channel ch m))) k = row (filter_out (fs m)) k.
Proof.
  intros Hk Hidle. unfold twopass_channel. cbv zeta.
  set (m0 := with_fs _ m).
  set (m1 := for_loop NUM_SAMPLES _ m0).
  assert (E1 : row (filter_out (fs m1)) k = row (filter_out (fs m)) k).
  { subst m1. rewrite (for_loop_frame (fun x => row (filter_out (fs x)) k))
      by (intros; apply twopass_sample_rows; exact Hk). reflexivity. }
  assert (R1 : rotation m1 = rotation m).
  { subst m1. rewrite (for_loop_frame rotation) by (intros; apply twopass_sample_env).
    reflexivity. }
  clearbody m1. clearbody m0.
  set (m2 := set_voct ch _ m1).
  assert (E2 : fs m2 = fs m1) by reflexivity.
  assert (R2 : rotation m2 = rotation m1) by reflexivity.
  clearbody m2. rewrite R2, R1.
  destruct (Qgtb (getQ (motion_morphpos (rotation m)) ch) 0) eqn:Emp.
  - rewrite glide_voct_fs.
    destruct (decide (k = (ch + 6)%nat)) as [->|Hne].
    + rewrite (proj1 (not_morphing _ (Hidle eq_refl))) in Emp. discriminate Emp.
    + rewrite (for_loop_frame (fun x => row (filter_out (fs x)) k))
        by (intros; apply twopass_sample_rows; exact Hne).
      rewrite E2. exact E1.
  - rewrite E2. exact E1.
Qed.

Lemma onepass_slot_rows (j : nat) (m : Filter) (k : nat) :
  (k = j -> slot_active j m = false) ->
  row (filter_out (fs (onepass_slot j m))) k = row (filter_out (fs m)) k.
Proof.
  intros Hidle. unfold onepass_slot. cbv zeta.
  destruct (slot_active j m) eqn:Eact; [|reflexivity].
  assert (Hk : k <> j) by (intros ->; specialize (Hidle eq_refl); discriminate Hidle).
  destruct (NUM_CHANNELS <=? j)%nat; [rewrite glide_voct_fs|];
    (rewrite (for_loop_frame (fun x => row (filter_out (fs x)) k))
       by (intros; apply onepass_sample_rows; exact Hk));
    destruct (j <? NUM_CHANNELS)%nat; reflexivity.
Qed.

Lemma bpre_slot_rows (j : nat) (m : Filter) (k : nat) :
  (k = j -> slot_active j m = false) ->
  row (filter_out (fs (bpre_slot j m))) k = row (filter_out (fs m)) k.
Proof.
  intros Hidle. unfold bpre_slot. cbv zeta.
  destruct (slot_active j m) eqn:Eact; [|reflexivity].
  assert (Hk : k <> j) by (intros ->; specialize (Hidle eq_refl); discriminate Hidle).
  destruct (NUM_CHANNELS <=? j)%nat; [rewrite glide_voct_fs|];
    (rewrite (for_loop_frame (fun x => row (filter_out (fs x)) k))
       by (intros; apply bpre_sample_rows; exact Hk));
    destruct (j <? NUM_CHANNELS)%nat; reflexivity.
Qed.

Lemma idle_slot (m : Filter) (ch : nat) :
  (ch < NUM_CHANNELS)%nat -> getQ (motion_morphpos (rotation m)) ch == 0 ->
  slot_active (ch + 6) m = false.
Proof.
  intros Hch Hmp. unfold slot_active, slot_channel, NUM_CHANNELS in *.
  destruct (Nat.ltb_spec (ch + 6) 6); [lia|]. cbn [orb].
  replace (ch + 6 - 6)%nat with ch by lia.
  rewrite (proj2 (not_morphing _ Hmp)). reflexivity.
Qed.

Lemma slot_loop_rows (slot : nat -> Filter -> Filter) (m : Filter) (ch n : nat) :
  (forall j x, rotation (slot j x) = rotation x) ->
  (forall j x k, (k = j -> slot_active j x = false) ->
     row (filter_out (fs (slot j x))) k = row (filter_out (fs x)) k) ->
  (ch < NUM_CHANNELS)%nat -> getQ (motion_morphpos (rotation m)) ch == 0 ->
  rotation (for_loop n slot m) = rotation m /\
  row (filter_out (fs (for_loop n slot m))) (ch + 6) = row (filter_out (fs m)) (ch + 6).
Proof.
  intros Hrot Hrows Hch Hmp. induction n as [|n (IHr & IHf)].
  - rewrite for_loop_0. split; reflexivity.
  - rewrite for_loop_S. split; [rewrite Hrot; exact IHr|].
    rewrite Hrows; [exact IHf|]. intros E. subst n. apply idle_slot; [exact Hch|].
    rewrite IHr. exact Hmp.
Qed.

(** X24.  None of the three filter algorithms computes the morph
    destination of a channel whose morph position is 0: row [ch + 6] of
    [filter_out] is left as it was. *)
Theorem idle_destination_untouched (m : Filter) (ch : nat) :
  (ch < NUM_CHANNELS)%nat -> getQ (motion_morphpos (rotation m)) ch == 0 ->
  row (filter_out (fs (filter_twopass m))) (ch + 6) = row (filter_out (fs m)) (ch + 6) /\
  row (filter_out (fs (filter_onepass m))) (ch + 6) = row (filter_out (fs m)) (ch + 6) /\
  row (filter_out (fs (filter_bpre m))) (ch + 6) = row (filter_out (fs m)) (ch + 6).
Proof.
  intros Hch Hmp. split; [|split].
  - unfold filter_twopass. cbv zeta.
    assert (Hinv : forall n, (n <= NUM_CHANNELS)%nat ->
      rotation (for_loop n twopass_channel (with_io (io_set_INPUT_CLIP false) m)) = rotation m /\
      row (filter_out (fs (for_loop n twopass_channel (with_io (io_set_INPUT_CLIP false) m))))
          (ch + 6) = row (filter_out (fs m)) (ch + 6)).
    { induction n as [|n IH]; intros Hn.
      - rewrite for_loop_0. split; reflexivity.
      - destruct (IH ltac:(lia)) as (IHr & IHf). rewrite for_loop_S. split.
        + rewrite (inputs_rotation _ _ (twopass_channel_inputs n _)). exact IHr.
        + rewrite twopass_channel_rows; [exact IHf| |].
          * unfold NUM_CHANNELS in Hn. lia.
          * intros E. assert (n = ch) as -> by lia. rewrite IHr. exact Hmp. }
    exact (proj2 (Hinv NUM_CHANNELS ltac:(lia))).
  - unfold filter_onepass. cbv zeta.
    refine (proj2 (slot_loop_rows onepass_slot (with_io (io_set_INPUT_CLIP false) m) ch
                     (NUM_CHANNELS * 2) _ _ Hch Hmp)).
    + intros j x. exact (inputs_rotation _ _ (onepass_slot_inputs j x)).
    + intros j x k. apply onepass_slot_rows.
  - unfold filter_bpre. cbv zeta.
    refine (proj2 (slot_loop_rows bpre_slot (with_io (io_set_INPUT_CLIP false) m) ch
                     (NUM_CHANNELS * 2) _ _ Hch Hmp)).
    + intros j x. exact (inputs_rotation _ _ (bpre_slot_inputs j x)).
    + intros j x k. apply bpre_slot_rows.
Qed.
End IdleDestination.

Lemma idle_destination_untouched_witness :
  let m := @resting_filter tiny_dims 1%Q in
  row (filter_out (fs (@filter_twopass tiny_dims flat_tables m))) (2 + 6)
    = row (filter_out (fs m)) (2 + 6) /\
  row (filter_out (fs (@filter_onepass tiny_dims flat_tables m))) (2 + 6)
    = row (filter_out (fs m)) (2 + 6) /\
  row (filter_out (fs (@filter_bpre tiny_dims flat_tables m))) (2 + 6)
    = row (filter_out (fs m)) (2 + 6).
Proof.
  apply (@idle_destination_untouched tiny_dims flat_tables (@resting_filter tiny_dims 1%Q) 2).
  - unfold NUM_CHANNELS. lia.
  - reflexivity.
Defined.
